(** * Cloudflare-Clist: storage adapters and WebDAV bridge

    A shallow embedding of the drive utilities (path helpers and the
    upload-state codec), of the provider adapters' request, listing and
    upload logic, and of the WebDAV route handlers, together with the
    properties their specification states about them.

    Conventions.  JavaScript strings that only travel as paths, header values
    or base64 text are [string]; JSON text, whose code units may exceed one
    byte, is a list of UTF-16 code units.  A promise that rejects is an
    [Err]; network peers and the configuration store are explicit oracles
    that the code consumes, and every externally visible call is recorded in
    a trace. *)

From Stdlib Require Import String Ascii List ZArith NArith Bool Lia Arith.
From Stdlib Require Import Sorted Permutation DecimalString.
From Stdlib Require DecimalFacts DecimalPos DecimalN DecimalZ.
Import ListNotations.

Local Open Scope string_scope.
Local Open Scope list_scope.

(** ** JavaScript string primitives used by the sources *)

Module JsString.

(** [s.startsWith("/")] *)
Definition startsWithSlash (s : string) : bool :=
  match s with
  | String c _ => Ascii.eqb c "/"
  | EmptyString => false
  end.

(** [s.slice(1)] *)
Definition slice1 (s : string) : string :=
  match s with
  | String _ t => t
  | EmptyString => EmptyString
  end.

(** The last code unit of [s], if any. *)
Fixpoint lastChar (s : string) : option ascii :=
  match s with
  | EmptyString => None
  | String c EmptyString => Some c
  | String _ t => lastChar t
  end.

(** [s.endsWith("/")] *)
Definition endsWithSlash (s : string) : bool :=
  match lastChar s with
  | Some c => Ascii.eqb c "/"
  | None => false
  end.

(** [s.slice(0, -1)] *)
Fixpoint sliceInit (s : string) : string :=
  match s with
  | EmptyString => EmptyString
  | String _ EmptyString => EmptyString
  | String c t => String c (sliceInit t)
  end.

(** JavaScript truthiness of a string value. *)
Definition truthy (s : string) : bool :=
  match s with
  | EmptyString => false
  | _ => true
  end.

(** [a || b] on possibly undefined strings: the first truthy operand. *)
Definition orElse (a : option string) (b : string) : string :=
  match a with
  | Some s => if truthy s then s else b
  | None => b
  end.

Definition truthyOpt (a : option string) : bool :=
  match a with
  | Some s => truthy s
  | None => false
  end.

(** [String(n)] of an integral number. *)
Definition numberToString (n : Z) : string :=
  NilZero.string_of_int (Z.to_int n).

(** A collation for examples: the order of the code units. *)
Definition codeUnitCompare (a b : string) : Z :=
  match String.compare a b with
  | Lt => (-1)%Z
  | Eq => 0%Z
  | Gt => 1%Z
  end.

(** [s.slice(n)] for a non-negative [n] *)
Fixpoint sliceFrom (n : nat) (s : string) : string :=
  match n, s with
  | O, _ => s
  | S n', String _ t => sliceFrom n' t
  | S _, EmptyString => EmptyString
  end.

(** [s.split(sep)] for a one-character separator: the segments between
    the separators, at least one. *)
Fixpoint split (sep : ascii) (s : string) : list string :=
  match s with
  | EmptyString => [EmptyString]
  | String c t =>
      if Ascii.eqb c sep then EmptyString :: split sep t
      else
        match split sep t with
        | seg :: rest => String c seg :: rest
        | [] => [String c EmptyString]
        end
  end.

(** [s.replace(/c/g, d)]: every [c] becomes [d]. *)
Fixpoint replaceAll (c d : ascii) (s : string) : string :=
  match s with
  | EmptyString => EmptyString
  | String x t => String (if Ascii.eqb x c then d else x) (replaceAll c d t)
  end.

(** [s.replace(/c+$/g, "")]: the run of [c] at the end is dropped. *)
Fixpoint dropTrailing (c : ascii) (s : string) : string :=
  match s with
  | EmptyString => EmptyString
  | String x t =>
      match dropTrailing c t with
      | EmptyString => if Ascii.eqb x c then EmptyString
                       else String x EmptyString
      | t' => String x t'
      end
  end.

(** [c.repeat(n)] *)
Fixpoint repeatChar (c : ascii) (n : nat) : string :=
  match n with
  | O => EmptyString
  | S n' => String c (repeatChar c n')
  end.

(** Upper and lower case of the ASCII letters. *)
Definition upperChar (c : ascii) : ascii :=
  let n := N_of_ascii c in
  if N.leb 97 n && N.leb n 122 then ascii_of_N (n - 32) else c.
Definition lowerChar (c : ascii) : ascii :=
  let n := N_of_ascii c in
  if N.leb 65 n && N.leb n 90 then ascii_of_N (n + 32) else c.

Fixpoint mapChars (f : ascii -> ascii) (s : string) : string :=
  match s with
  | EmptyString => EmptyString
  | String c t => String (f c) (mapChars f t)
  end.

(** [s.toUpperCase()] and [s.toLowerCase()] on ASCII text. *)
Definition toUpperCase (s : string) : string := mapChars upperChar s.
Definition toLowerCase (s : string) : string := mapChars lowerChar s.

(** [s.replace(pattern, "")] for a string pattern: the first occurrence
    is dropped. *)
Fixpoint replaceFirst (pattern s : string) : string :=
  if String.prefix pattern s then sliceFrom (String.length pattern) s
  else
    match s with
    | String c t => String c (replaceFirst pattern t)
    | EmptyString => EmptyString
    end.

Definition isDigit (c : ascii) : bool :=
  let n := N_of_ascii c in N.leb 48 n && N.leb n 57.

(** The value of the decimal digits at the start of [s], after [acc]. *)
Fixpoint leadingDigits (acc : Z) (s : string) : Z :=
  match s with
  | String c t =>
      if isDigit c
      then leadingDigits (10 * acc + Z.of_N (N_of_ascii c - 48))%Z t
      else acc
  | EmptyString => acc
  end.

(** [s.includes(sub)] *)
Fixpoint includes (s sub : string) : bool :=
  String.prefix sub s
  || match s with
     | String _ t => includes t sub
     | EmptyString => false
     end.

(** White space and line terminators that fit one byte. *)
Definition isSpace (c : ascii) : bool :=
  let n := N_of_ascii c in
  (N.leb 9 n && N.leb n 13) || N.eqb n 32 || N.eqb n 160.

Fixpoint trimStart (s : string) : string :=
  match s with
  | String c t => if isSpace c then trimStart t else s
  | EmptyString => EmptyString
  end.

(** Drops the white space at the end of [s]. *)
Fixpoint trimEnd (s : string) : string :=
  match s with
  | EmptyString => EmptyString
  | String c t =>
      match trimEnd t with
      | EmptyString => if isSpace c then EmptyString else String c EmptyString
      | t' => String c t'
      end
  end.

(** [s.trim()] *)
Definition trim (s : string) : string := trimEnd (trimStart s).

(** [parseInt(s, 10)]; [None] is NaN. *)
Definition parseInt (s : string) : option Z :=
  let s := trimStart s in
  let '(negative, digits) :=
    match s with
    | String "-" t => (true, t)
    | String "+" t => (false, t)
    | _ => (false, s)
    end in
  match digits with
  | String c _ =>
      if isDigit c
      then Some (if negative then (- leadingDigits 0 digits)%Z
                 else leadingDigits 0 digits)
      else None
  | EmptyString => None
  end.

End JsString.

(** ** drive-utils: path helpers *)

Module DriveUtils.
Import JsString.

Definition normalizeRootPath (rootPath : string) : string :=
  if negb (truthy rootPath) then "/"
  else
    let normalized := trim rootPath in
    let normalized :=
      if negb (startsWithSlash normalized) then ("/" ++ normalized)%string
      else normalized in
    if Nat.ltb 1 (String.length normalized) && endsWithSlash normalized
    then sliceInit normalized
    else normalized.

Definition joinRootPath (rootPath path : string) : string :=
  let root := normalizeRootPath rootPath in
  let cleanPath :=
    if truthy path
    then (if startsWithSlash path then path else ("/" ++ path)%string)
    else "" in
  if negb (truthy path) || String.eqb cleanPath "/" then root
  else if String.eqb root "/" then cleanPath
  else (root ++ cleanPath)%string.

Definition stripTrailingSlash (path : string) : string :=
  if Nat.leb (String.length path) 1 then path
  else if endsWithSlash path then sliceInit path else path.

Definition stripLeadingSlash (path : string) : string :=
  if startsWithSlash path then slice1 path else path.

(** [path] begins with two separators. *)
Definition startsWithTwoSlashes (path : string) : bool :=
  startsWithSlash path && startsWithSlash (slice1 path).

(** [path] ends with two separators. *)
Definition endsWithTwoSlashes (path : string) : bool :=
  endsWithSlash path && endsWithSlash (sliceInit path).

End DriveUtils.

(** ** JavaScript 32-bit integer operators *)

Module JsInt.
Local Open Scope Z_scope.

(** ToInt32 and ToUint32 of an integral number. *)
Definition toInt32 (z : Z) : Z := (z + 2 ^ 31) mod 2 ^ 32 - 2 ^ 31.
Definition toUint32 (z : Z) : Z := z mod 2 ^ 32.

Definition band (a b : Z) : Z := toInt32 (Z.land (toInt32 a) (toInt32 b)).
Definition bor (a b : Z) : Z := toInt32 (Z.lor (toInt32 a) (toInt32 b)).
Definition bxor (a b : Z) : Z := toInt32 (Z.lxor (toInt32 a) (toInt32 b)).
Definition bnot (a : Z) : Z := toInt32 (Z.lnot (toInt32 a)).
(** [a << s], [a >> s], [a >>> s] *)
Definition shl (a s : Z) : Z := toInt32 (Z.shiftl (toInt32 a) (toUint32 s mod 32)).
Definition shr (a s : Z) : Z := Z.shiftr (toInt32 a) (toUint32 s mod 32).
Definition shru (a s : Z) : Z := Z.shiftr (toUint32 a) (toUint32 s mod 32).

End JsInt.

(** ** md5: the content hashing primitive *)

Module MD5.
Import JsInt.
Local Open Scope Z_scope.

Definition add32 (a b : Z) : Z := band (a + b) 0xffffffff.

Definition rol (value shift : Z) : Z :=
  bor (shl value shift) (shru value (32 - shift)).

Definition cmn (q a b x s t : Z) : Z :=
  add32 (rol (add32 (add32 a q) (add32 x t)) s) b.

Definition ff (a b c d x s t : Z) : Z :=
  cmn (bor (band b c) (band (bnot b) d)) a b x s t.

Definition gg (a b c d x s t : Z) : Z :=
  cmn (bor (band b d) (band c (bnot d))) a b x s t.

Definition hh (a b c d x s t : Z) : Z :=
  cmn (bxor (bxor b c) d) a b x s t.

Definition ii (a b c d x s t : Z) : Z :=
  cmn (bxor c (bor b (bnot d))) a b x s t.

(** Two lower-case hexadecimal digits of a byte value. *)
Definition hexDigit (n : Z) : ascii :=
  if n <? 10 then ascii_of_N (Z.to_N (48 + n))
  else ascii_of_N (Z.to_N (87 + n)).

Definition hexByte (b : Z) : string :=
  String (hexDigit (b / 16)) (String (hexDigit (b mod 16)) EmptyString).

Definition toHex (num : Z) : string :=
  fold_left
    (fun out i => out ++ hexByte (band (shr num (i * 8)) 0xff))%string
    [0; 1; 2; 3] EmptyString.

(** The sparse [words] array: a slot that was never written reads as 0,
    which is what [undefined | x] and [words[k] || 0] make of it. *)
Definition Words : Type := Z -> Z.

Definition wordsEmpty : Words := fun _ => 0.

Definition wordsSet (w : Words) (k v : Z) : Words :=
  fun j => if j =? k then v else w j.

Definition wordsOr (w : Words) (k v : Z) : Words :=
  wordsSet w k (bor (w k) v).

(** First loop of [md5Hex]: pack the bytes, little endian. *)
Fixpoint packBytes (bytes : list Byte.byte) (i : Z) (w : Words) : Words :=
  match bytes with
  | [] => w
  | b :: rest =>
      packBytes rest (i + 1)
        (wordsOr w (shr i 2) (shl (Z.of_N (Byte.to_N b)) ((i mod 4) * 8)))
  end.

(** One iteration of the block loop, on the block that starts at [i]. *)
Definition block (w : Words) (i : Z) (st : Z * Z * Z * Z) : Z * Z * Z * Z :=
  let '(a, b, c, d) := st in
  let aa := a in
  let bb := b in
  let cc := c in
  let dd := d in
    let a := ff a b c d (w (i + 0)) 7 0xd76aa478 in
    let d := ff d a b c (w (i + 1)) 12 0xe8c7b756 in
    let c := ff c d a b (w (i + 2)) 17 0x242070db in
    let b := ff b c d a (w (i + 3)) 22 0xc1bdceee in
    let a := ff a b c d (w (i + 4)) 7 0xf57c0faf in
    let d := ff d a b c (w (i + 5)) 12 0x4787c62a in
    let c := ff c d a b (w (i + 6)) 17 0xa8304613 in
    let b := ff b c d a (w (i + 7)) 22 0xfd469501 in
    let a := ff a b c d (w (i + 8)) 7 0x698098d8 in
    let d := ff d a b c (w (i + 9)) 12 0x8b44f7af in
    let c := ff c d a b (w (i + 10)) 17 0xffff5bb1 in
    let b := ff b c d a (w (i + 11)) 22 0x895cd7be in
    let a := ff a b c d (w (i + 12)) 7 0x6b901122 in
    let d := ff d a b c (w (i + 13)) 12 0xfd987193 in
    let c := ff c d a b (w (i + 14)) 17 0xa679438e in
    let b := ff b c d a (w (i + 15)) 22 0x49b40821 in
    let a := gg a b c d (w (i + 1)) 5 0xf61e2562 in
    let d := gg d a b c (w (i + 6)) 9 0xc040b340 in
    let c := gg c d a b (w (i + 11)) 14 0x265e5a51 in
    let b := gg b c d a (w (i + 0)) 20 0xe9b6c7aa in
    let a := gg a b c d (w (i + 5)) 5 0xd62f105d in
    let d := gg d a b c (w (i + 10)) 9 0x02441453 in
    let c := gg c d a b (w (i + 15)) 14 0xd8a1e681 in
    let b := gg b c d a (w (i + 4)) 20 0xe7d3fbc8 in
    let a := gg a b c d (w (i + 9)) 5 0x21e1cde6 in
    let d := gg d a b c (w (i + 14)) 9 0xc33707d6 in
    let c := gg c d a b (w (i + 3)) 14 0xf4d50d87 in
    let b := gg b c d a (w (i + 8)) 20 0x455a14ed in
    let a := gg a b c d (w (i + 13)) 5 0xa9e3e905 in
    let d := gg d a b c (w (i + 2)) 9 0xfcefa3f8 in
    let c := gg c d a b (w (i + 7)) 14 0x676f02d9 in
    let b := gg b c d a (w (i + 12)) 20 0x8d2a4c8a in
    let a := hh a b c d (w (i + 5)) 4 0xfffa3942 in
    let d := hh d a b c (w (i + 8)) 11 0x8771f681 in
    let c := hh c d a b (w (i + 11)) 16 0x6d9d6122 in
    let b := hh b c d a (w (i + 14)) 23 0xfde5380c in
    let a := hh a b c d (w (i + 1)) 4 0xa4beea44 in
    let d := hh d a b c (w (i + 4)) 11 0x4bdecfa9 in
    let c := hh c d a b (w (i + 7)) 16 0xf6bb4b60 in
    let b := hh b c d a (w (i + 10)) 23 0xbebfbc70 in
    let a := hh a b c d (w (i + 13)) 4 0x289b7ec6 in
    let d := hh d a b c (w (i + 0)) 11 0xeaa127fa in
    let c := hh c d a b (w (i + 3)) 16 0xd4ef3085 in
    let b := hh b c d a (w (i + 6)) 23 0x04881d05 in
    let a := hh a b c d (w (i + 9)) 4 0xd9d4d039 in
    let d := hh d a b c (w (i + 12)) 11 0xe6db99e5 in
    let c := hh c d a b (w (i + 15)) 16 0x1fa27cf8 in
    let b := hh b c d a (w (i + 2)) 23 0xc4ac5665 in
    let a := ii a b c d (w (i + 0)) 6 0xf4292244 in
    let d := ii d a b c (w (i + 7)) 10 0x432aff97 in
    let c := ii c d a b (w (i + 14)) 15 0xab9423a7 in
    let b := ii b c d a (w (i + 5)) 21 0xfc93a039 in
    let a := ii a b c d (w (i + 12)) 6 0x655b59c3 in
    let d := ii d a b c (w (i + 3)) 10 0x8f0ccc92 in
    let c := ii c d a b (w (i + 10)) 15 0xffeff47d in
    let b := ii b c d a (w (i + 1)) 21 0x85845dd1 in
    let a := ii a b c d (w (i + 8)) 6 0x6fa87e4f in
    let d := ii d a b c (w (i + 15)) 10 0xfe2ce6e0 in
    let c := ii c d a b (w (i + 6)) 15 0xa3014314 in
    let b := ii b c d a (w (i + 13)) 21 0x4e0811a1 in
    let a := ii a b c d (w (i + 4)) 6 0xf7537e82 in
    let d := ii d a b c (w (i + 11)) 10 0xbd3af235 in
    let c := ii c d a b (w (i + 2)) 15 0x2ad7d2bb in
    let b := ii b c d a (w (i + 9)) 21 0xeb86d391 in
  let a := add32 a aa in
  let b := add32 b bb in
  let c := add32 c cc in
  let d := add32 d dd in
  (a, b, c, d).

Fixpoint blocks (n : nat) (w : Words) (i : Z) (st : Z * Z * Z * Z)
  : Z * Z * Z * Z :=
  match n with
  | O => st
  | S n' => blocks n' w (i + 16) (block w i st)
  end.

Definition md5Hex (buffer : list Byte.byte) : string :=
  let len := Z.of_nat (List.length buffer) in
  let words := packBytes buffer 0 wordsEmpty in
  let bitLen := len * 8 in
  let words := wordsOr words (shr bitLen 5) (shl 0x80 (bitLen mod 32)) in
  let top := shl (shru (bitLen + 64) 9) 4 + 14 in
  let words := wordsSet words top bitLen in
  let wordsLength := top + 1 in
  let '(a, b, c, d) :=
    blocks (Z.to_nat ((wordsLength + 15) / 16)) words 0
      (0x67452301, 0xefcdab89, 0x98badcfe, 0x10325476) in
  (toHex a ++ toHex b ++ toHex c ++ toHex d)%string.

End MD5.

(** ** The platform's base64 functions *)

Module Base64.
Local Open Scope N_scope.

(** The character of a 6-bit value. *)
Definition encodeChar (v : N) : ascii :=
  if v <? 26 then ascii_of_N (65 + v)
  else if v <? 52 then ascii_of_N (97 + (v - 26))
  else if v <? 62 then ascii_of_N (48 + (v - 52))
  else if v =? 62 then "+"%char
  else "/"%char.

(** The 6-bit value of a character of the alphabet. *)
Definition decodeChar (c : ascii) : option N :=
  let n := N_of_ascii c in
  if (65 <=? n) && (n <=? 90) then Some (n - 65)
  else if (97 <=? n) && (n <=? 122) then Some (n - 97 + 26)
  else if (48 <=? n) && (n <=? 57) then Some (n - 48 + 52)
  else if n =? 43 then Some 62
  else if n =? 47 then Some 63
  else None.

(** Bytes to 6-bit values, three bytes to four values; a last group of
    one or two bytes gives two or three. *)
Fixpoint sextets (bytes : list N) : list N :=
  match bytes with
  | [] => []
  | [a] => [a / 4; (a mod 4) * 16]
  | [a; b] => [a / 4; (a mod 4) * 16 + b / 16; (b mod 16) * 4]
  | a :: b :: c :: rest =>
      a / 4 :: (a mod 4) * 16 + b / 16 :: (b mod 16) * 4 + c / 64
      :: c mod 64 :: sextets rest
  end.

(** 6-bit values back to bytes; the bits left over at the end are
    dropped. *)
Fixpoint octets (values : list N) : list N :=
  match values with
  | [] => []
  | [_] => []
  | [s1; s2] => [s1 * 4 + s2 / 16]
  | [s1; s2; s3] => [s1 * 4 + s2 / 16; (s2 mod 16) * 16 + s3 / 4]
  | s1 :: s2 :: s3 :: s4 :: rest =>
      s1 * 4 + s2 / 16 :: (s2 mod 16) * 16 + s3 / 4 :: (s3 mod 4) * 64 + s4
      :: octets rest
  end.

Definition padding (n : nat) : string :=
  match Nat.modulo n 3 with
  | 1%nat => "=="
  | 2%nat => "="
  | _ => ""
  end.

(** Base64 of a byte sequence, with padding. *)
Definition encodeBytes (bytes : list N) : string :=
  (string_of_list_ascii (map encodeChar (sextets bytes))
   ++ padding (List.length bytes))%string.

(** [btoa(s)] on the code units of [s]: an error when a code unit does
    not fit one byte. *)
Definition btoa (units : list N) : option string :=
  if forallb (fun u => u <? 256) units then Some (encodeBytes units)
  else None.

Definition isAsciiWhitespace (c : ascii) : bool :=
  let n := N_of_ascii c in
  (n =? 9) || (n =? 10) || (n =? 12) || (n =? 13) || (n =? 32).

Fixpoint decodeChars (l : list ascii) : option (list N) :=
  match l with
  | [] => Some []
  | c :: rest =>
      match decodeChar c, decodeChars rest with
      | Some v, Some vs => Some (v :: vs)
      | _, _ => None
      end
  end.

(** Drops one or two padding characters at the end of [l]. *)
Definition dropPadding (l : list ascii) : list ascii :=
  match rev l with
  | "="%char :: "="%char :: r => rev r
  | "="%char :: r => rev r
  | _ => l
  end.

(** [atob(s)]: the forgiving base64 decoding; [None] is the
    InvalidCharacterError. *)
Definition atobBytes (s : string) : option (list N) :=
  let data := filter (fun c => negb (isAsciiWhitespace c))
                (list_ascii_of_string s) in
  let data :=
    if Nat.eqb (Nat.modulo (List.length data) 4) 0 then dropPadding data
    else data in
  if Nat.eqb (Nat.modulo (List.length data) 4) 1 then None
  else option_map octets (decodeChars data).

(** [atob(s)] as a string of one-byte code units. *)
Definition atob (s : string) : option string :=
  option_map (fun bytes => string_of_list_ascii (map ascii_of_N bytes))
    (atobBytes s).

(** The 6-bit values. *)
Definition sixBits : list N := map N.of_nat (seq 0 64).

(** The characters base64 text is made of, other than the padding. *)
Definition plain (c : ascii) : bool :=
  negb (isAsciiWhitespace c) && negb (Ascii.eqb c "=")
  && negb (Ascii.eqb c "-") && negb (Ascii.eqb c "_").

(** The number of padding characters after [n] bytes. *)
Definition padCount (n : nat) : nat := Nat.modulo (3 - Nat.modulo n 3) 3.

End Base64.

(** ** Outcomes of asynchronous calls *)

(** A promise either resolves with a value or rejects with an error, of
    which the message is kept. *)
Inductive result (A : Type) : Type :=
| Ok (a : A)
| Err (message : string).
Arguments Ok {A} a.
Arguments Err {A} message.

Definition isOk {A : Type} (r : result A) : bool :=
  match r with Ok _ => true | Err _ => false end.

(** Asynchronous code that works on a state [S]: it leaves a state behind
    whether it resolves or rejects. *)
Definition Async (S A : Type) : Type := S -> result A * S.

Definition ret {S A : Type} (a : A) : Async S A := fun s => (Ok a, s).

Definition throw {S A : Type} (message : string) : Async S A :=
  fun s => (Err message, s).

(** [await m] followed by [k]. *)
Definition bind {S A B : Type} (m : Async S A) (k : A -> Async S B)
  : Async S B :=
  fun s =>
    match m s with
    | (Ok a, s') => k a s'
    | (Err e, s') => (Err e, s')
    end.

Notation "x <- m ;; k" := (bind m (fun x => k))
  (at level 61, m at next level, right associativity).
Notation "m ;;; k" := (bind m (fun _ => k))
  (at level 61, right associativity).

(** ** The platform's JSON functions *)

Module Json.
Local Open Scope N_scope.

(** A JavaScript string as its UTF-16 code units. *)
Definition wstring : Type := list N.

Definition units (s : string) : wstring :=
  map N_of_ascii (list_ascii_of_string s).

(** JSON-serializable values.  Numbers are the integral ones; the members
    of an object are in the order in which its properties enumerate. *)
#[local] Unset Elimination Schemes.
Inductive value : Type :=
| Null
| Bool (b : bool)
| Num (z : Z)
| Str (s : wstring)
| Arr (items : list value)
| Obj (members : list (wstring * value)).
#[local] Set Elimination Schemes.

(** *** JSON.stringify *)

Definition isHigh (u : N) : bool := (55296 <=? u) && (u <=? 56319).
Definition isLow (u : N) : bool := (56320 <=? u) && (u <=? 57343).

Definition hexDigit (n : N) : N := if n <? 10 then 48 + n else 87 + n.

(** [\uXXXX] *)
Definition unicodeEscape (u : N) : wstring :=
  [92; 117; hexDigit (u / 4096); hexDigit ((u / 256) mod 16);
   hexDigit ((u / 16) mod 16); hexDigit (u mod 16)].

Definition holds (p : N -> bool) (o : option N) : bool :=
  match o with
  | Some u => p u
  | None => false
  end.

(** The text of one code unit inside a quoted string.  A surrogate is
    escaped unless it is half of a pair with its neighbour. *)
Definition quoteUnit (prev : option N) (u : N) (next : option N) : wstring :=
  if u =? 8 then [92; 98]
  else if u =? 9 then [92; 116]
  else if u =? 10 then [92; 110]
  else if u =? 12 then [92; 102]
  else if u =? 13 then [92; 114]
  else if u =? 34 then [92; 34]
  else if u =? 92 then [92; 92]
  else if u <? 32 then unicodeEscape u
  else if isHigh u && negb (holds isLow next) then unicodeEscape u
  else if isLow u && negb (holds isHigh prev) then unicodeEscape u
  else [u].

Fixpoint quoteUnits (prev : option N) (s : wstring) : wstring :=
  match s with
  | [] => []
  | u :: t => quoteUnit prev u (hd_error t) ++ quoteUnits (Some u) t
  end.

Definition quote (s : wstring) : wstring := 34 :: quoteUnits None s ++ [34].

Fixpoint digitsText (d : Decimal.uint) : wstring :=
  match d with
  | Decimal.Nil => []
  | Decimal.D0 d' => 48 :: digitsText d'
  | Decimal.D1 d' => 49 :: digitsText d'
  | Decimal.D2 d' => 50 :: digitsText d'
  | Decimal.D3 d' => 51 :: digitsText d'
  | Decimal.D4 d' => 52 :: digitsText d'
  | Decimal.D5 d' => 53 :: digitsText d'
  | Decimal.D6 d' => 54 :: digitsText d'
  | Decimal.D7 d' => 55 :: digitsText d'
  | Decimal.D8 d' => 56 :: digitsText d'
  | Decimal.D9 d' => 57 :: digitsText d'
  end.

Definition numberText (z : Z) : wstring :=
  match Z.to_int z with
  | Decimal.Pos d => digitsText d
  | Decimal.Neg d => 45 :: digitsText d
  end.

Fixpoint joinComma (parts : list wstring) : wstring :=
  match parts with
  | [] => []
  | [p] => p
  | p :: rest => p ++ 44 :: joinComma rest
  end.

Fixpoint stringify (v : value) : wstring :=
  match v with
  | Null => units "null"
  | Bool true => units "true"
  | Bool false => units "false"
  | Num z => numberText z
  | Str s => quote s
  | Arr items => 91 :: joinComma (map stringify items) ++ [93]
  | Obj members =>
      123
      :: joinComma (map (fun m => quote (fst m) ++ 58 :: stringify (snd m))
                      members)
      ++ [125]
  end.

(** *** JSON.parse *)

Definition isWs (u : N) : bool :=
  (u =? 32) || (u =? 9) || (u =? 10) || (u =? 13).

Fixpoint skipWs (s : wstring) : wstring :=
  match s with
  | u :: t => if isWs u then skipWs t else s
  | [] => []
  end.

Definition hexValue (u : N) : option N :=
  if (48 <=? u) && (u <=? 57) then Some (u - 48)
  else if (97 <=? u) && (u <=? 102) then Some (u - 87)
  else if (65 <=? u) && (u <=? 70) then Some (u - 55)
  else None.

Definition hex4 (a b c d : N) : option N :=
  match hexValue a, hexValue b, hexValue c, hexValue d with
  | Some x, Some y, Some z, Some w => Some (x * 4096 + y * 256 + z * 16 + w)
  | _, _, _, _ => None
  end.

(** The code unit of a one-letter escape. *)
Definition simpleEscape (e : N) : option N :=
  if e =? 34 then Some 34
  else if e =? 92 then Some 92
  else if e =? 47 then Some 47
  else if e =? 98 then Some 8
  else if e =? 102 then Some 12
  else if e =? 110 then Some 10
  else if e =? 114 then Some 13
  else if e =? 116 then Some 9
  else None.

(** The rest of a string after its opening quote: the code units up to
    the closing quote, and what follows it. *)
Fixpoint parseChars (s : wstring) : option (wstring * wstring) :=
  match s with
  | [] => None
  | u :: t =>
      if u =? 34 then Some ([], t)
      else if u =? 92 then
        match t with
        | [] => None
        | e :: t1 =>
            if e =? 117 then
              match t1 with
              | a :: b :: c :: d :: t2 =>
                  match hex4 a b c d, parseChars t2 with
                  | Some x, Some (content, rest) => Some (x :: content, rest)
                  | _, _ => None
                  end
              | _ => None
              end
            else
              match simpleEscape e, parseChars t1 with
              | Some x, Some (content, rest) => Some (x :: content, rest)
              | _, _ => None
              end
        end
      else if u <? 32 then None
      else
        match parseChars t with
        | Some (content, rest) => Some (u :: content, rest)
        | None => None
        end
  end.

Definition isDigit (u : N) : bool := (48 <=? u) && (u <=? 57).

Definition digit (u : N) (d : Decimal.uint) : Decimal.uint :=
  match u - 48 with
  | 0 => Decimal.D0 d
  | 1 => Decimal.D1 d
  | 2 => Decimal.D2 d
  | 3 => Decimal.D3 d
  | 4 => Decimal.D4 d
  | 5 => Decimal.D5 d
  | 6 => Decimal.D6 d
  | 7 => Decimal.D7 d
  | 8 => Decimal.D8 d
  | _ => Decimal.D9 d
  end.

(** The digits at the start of [s], and what follows them. *)
Fixpoint readDigits (s : wstring) : Decimal.uint * wstring :=
  match s with
  | u :: t =>
      if isDigit u
      then let '(d, rest) := readDigits t in (digit u d, rest)
      else (Decimal.Nil, s)
  | [] => (Decimal.Nil, [])
  end.

Definition leadingZero (d : Decimal.uint) : bool :=
  match d with
  | Decimal.D0 Decimal.Nil => false
  | Decimal.D0 _ => true
  | _ => false
  end.

(** Numbers with a fraction or an exponent are outside this model and are
    not read. *)
Definition parseNumber (s : wstring) : option (Z * wstring) :=
  let '(negative, s1) :=
    match s with
    | u :: t => if u =? 45 then (true, t) else (false, s)
    | [] => (false, s)
    end in
  let '(d, rest) := readDigits s1 in
  match d with
  | Decimal.Nil => None
  | _ =>
      if leadingZero d then None
      else if holds (fun c => (c =? 46) || (c =? 101) || (c =? 69))
                (hd_error rest)
      then None
      else Some (Z.of_int (if negative then Decimal.Neg d else Decimal.Pos d),
                 rest)
  end.

(** [s] without the prefix [p], when it starts with it. *)
Fixpoint stripPrefix (p s : wstring) : option wstring :=
  match p, s with
  | [], _ => Some s
  | a :: p', b :: s' => if a =? b then stripPrefix p' s' else None
  | _ :: _, [] => None
  end.

Fixpoint sameUnits (a b : wstring) : bool :=
  match a, b with
  | [], [] => true
  | x :: a', y :: b' => (x =? y) && sameUnits a' b'
  | _, _ => false
  end.

(** Defining a property: a key that is already there keeps its place and
    takes the new value. *)
Fixpoint setMember (k : wstring) (v : value) (members : list (wstring * value))
  : list (wstring * value) :=
  match members with
  | [] => [(k, v)]
  | (k', v') :: rest =>
      if sameUnits k k' then (k', v) :: rest
      else (k', v') :: setMember k v rest
  end.

(** The recursive descent; [fuel] bounds the nesting of the calls. *)
Fixpoint parseValue (fuel : nat) (s : wstring) : option (value * wstring) :=
  match fuel with
  | O => None
  | S fuel' =>
      match skipWs s with
      | [] => None
      | u :: t =>
          if u =? 123 then
            match skipWs t with
            | [] => None
            | c :: r =>
                if c =? 125 then Some (Obj [], r)
                else parseMembers fuel' t []
            end
          else if u =? 91 then
            match skipWs t with
            | [] => None
            | c :: r =>
                if c =? 93 then Some (Arr [], r)
                else parseItems fuel' t []
            end
          else if u =? 34 then
            match parseChars t with
            | Some (content, rest) => Some (Str content, rest)
            | None => None
            end
          else if (u =? 45) || isDigit u then
            match parseNumber (u :: t) with
            | Some (z, rest) => Some (Num z, rest)
            | None => None
            end
          else
            match stripPrefix (units "true") (u :: t) with
            | Some rest => Some (Bool true, rest)
            | None =>
                match stripPrefix (units "false") (u :: t) with
                | Some rest => Some (Bool false, rest)
                | None =>
                    match stripPrefix (units "null") (u :: t) with
                    | Some rest => Some (Null, rest)
                    | None => None
                    end
                end
            end
      end
  end
with parseItems (fuel : nat) (s : wstring) (acc : list value)
  : option (value * wstring) :=
  match fuel with
  | O => None
  | S fuel' =>
      match parseValue fuel' s with
      | None => None
      | Some (v, r) =>
          match skipWs r with
          | [] => None
          | c :: r' =>
              if c =? 44 then parseItems fuel' r' (v :: acc)
              else if c =? 93 then Some (Arr (rev (v :: acc)), r')
              else None
          end
      end
  end
with parseMembers (fuel : nat) (s : wstring) (acc : list (wstring * value))
  : option (value * wstring) :=
  match fuel with
  | O => None
  | S fuel' =>
      match skipWs s with
      | [] => None
      | q :: t =>
          if q =? 34 then
            match parseChars t with
            | None => None
            | Some (k, r) =>
                match skipWs r with
                | [] => None
                | colon :: r1 =>
                    if colon =? 58 then
                      match parseValue fuel' r1 with
                      | None => None
                      | Some (v, r2) =>
                          match skipWs r2 with
                          | [] => None
                          | c :: r3 =>
                              if c =? 44
                              then parseMembers fuel' r3 (setMember k v acc)
                              else if c =? 125
                              then Some (Obj (setMember k v acc), r3)
                              else None
                          end
                      end
                    else None
                end
            end
          else None
      end
  end.

(** A bound on the fuel the descent takes on the text of [v]. *)
Fixpoint need (v : value) : nat :=
  match v with
  | Arr items =>
      S ((fix go (l : list value) : nat :=
            match l with
            | [] => O
            | x :: l' => S (need x + go l')
            end) items)
  | Obj members =>
      S ((fix go (l : list (wstring * value)) : nat :=
            match l with
            | [] => O
            | m :: l' => S (need (snd m) + go l')
            end) members)
  | _ => 1%nat
  end.

(** [JSON.parse(text)]; [None] is the SyntaxError. *)
Definition parse (text : wstring) : option value :=
  match parseValue (S (List.length text)) text with
  | Some (v, rest) =>
      match skipWs rest with
      | [] => Some v
      | _ :: _ => None
      end
  | None => None
  end.

(** *** The values the model is faithful for *)

Definition safeInteger (z : Z) : Prop :=
  (- (2 ^ 53) < z < 2 ^ 53)%Z.

Fixpoint wellFormed (v : value) : Prop :=
  match v with
  | Null | Bool _ => True
  | Num z => safeInteger z
  | Str s => Forall (fun u => u < 65536) s
  | Arr items =>
      (fix all (l : list value) : Prop :=
         match l with
         | [] => True
         | x :: l' => wellFormed x /\ all l'
         end) items
  | Obj members =>
      NoDup (map fst members)
      /\ (fix all (l : list (wstring * value)) : Prop :=
            match l with
            | [] => True
            | m :: l' =>
                Forall (fun u => u < 65536) (fst m) /\ wellFormed (snd m)
                /\ all l'
            end) members
  end.

(** The 4-bit values. *)
Definition nibbles : list N := map N.of_nat (seq 0 16).

(** What may follow a number: not a digit, a fraction or an exponent. *)
Definition endsNumber (rest : wstring) : Prop :=
  holds (fun c => isDigit c || (c =? 46) || (c =? 101) || (c =? 69))
    (hd_error rest) = false.

(** The fuel the items of an array need. *)
Definition needItems (items : list value) : nat :=
  (fix go (l : list value) : nat :=
     match l with
     | [] => O
     | x :: l' => S (need x + go l')
     end) items.

(** The fuel the members of an object need. *)
Definition needMembers (members : list (wstring * value)) : nat :=
  (fix go (l : list (wstring * value)) : nat :=
     match l with
     | [] => O
     | m :: l' => S (need (snd m) + go l')
     end) members.

(** [wellFormed] on the items of an array. *)
Definition wellFormedItems (items : list value) : Prop :=
  (fix all (l : list value) : Prop :=
     match l with
     | [] => True
     | x :: l' => wellFormed x /\ all l'
     end) items.

(** [wellFormed] on the members of an object. *)
Definition wellFormedMembers (members : list (wstring * value)) : Prop :=
  (fix all (l : list (wstring * value)) : Prop :=
     match l with
     | [] => True
     | m :: l' =>
         Forall (fun u => u < 65536) (fst m) /\ wellFormed (snd m) /\ all l'
     end) members.

(** The first code unit of the text of a value. *)
Definition opens (c : N) : Prop :=
  isWs c = false /\ (c =? 93) = false /\ (c =? 125) = false.

(** [v] is read back from its text, whatever follows it. *)
Definition reads (v : value) : Prop :=
  forall fuel rest,
    (need v <= fuel)%nat -> endsNumber rest ->
    parseValue fuel (stringify v ++ rest) = Some (v, rest).

(** The text of a member. *)
Definition memberText (m : wstring * value) : wstring :=
  quote (fst m) ++ 58 :: stringify (snd m).

End Json.

(** ** drive-utils: the upload-state codec *)

Module UploadState.
Import JsString Json.

Definition encodeUploadState (state : list (wstring * value)) : result string :=
  let json := stringify (Obj state) in
  match Base64.btoa json with
  | None => Err "InvalidCharacterError"
  | Some base64 =>
      Ok (dropTrailing "=" (replaceAll "/" "_" (replaceAll "+" "-" base64)))
  end.

Definition decodeUploadState (token : string) : result value :=
  let padded := replaceAll "_" "/" (replaceAll "-" "+" token) in
  let padLength :=
    if Nat.eqb (Nat.modulo (String.length padded) 4) 0 then 0%nat
    else (4 - Nat.modulo (String.length padded) 4)%nat in
  let base64 := (padded ++ repeatChar "=" padLength)%string in
  match Base64.atob base64 with
  | None => Err "InvalidCharacterError"
  | Some json =>
      match parse (units json) with
      | Some state => Ok state
      | None => Err "SyntaxError"
      end
  end.

(** The characters of a token that is safe in URLs and headers. *)
Definition urlSafeChar (c : ascii) : bool :=
  let n := N_of_ascii c in
  ((65 <=? n) && (n <=? 90) || (97 <=? n) && (n <=? 122)
   || (48 <=? n) && (n <=? 57) || (n =? 45) || (n =? 95))%N.

Definition urlSafe (token : string) : bool :=
  forallb urlSafeChar (list_ascii_of_string token).

(** The JSON text of a state fits [btoa]. *)
Definition latin1 (text : wstring) : bool :=
  forallb (fun u => (u <? 256)%N) text.

(** What [replace(/c/g, d)] does to one character. *)
Definition swap (c d : ascii) (x : ascii) : ascii :=
  if Ascii.eqb x c then d else x.

(** The characters of the token of a JSON text. *)
Definition tokenChars (json : wstring) : list ascii :=
  map (swap "/" "_") (map (swap "+" "-") (map Base64.encodeChar (Base64.sextets json))).

(** The state the Google Drive adapter builds in
    [initiateMultipartUpload]. *)
Definition sampleState : list (wstring * value) :=
  [(units "provider", Str (units "gdrive"));
   (units "uploadUrl",
    Str (units "https://www.googleapis.com/upload/drive/v3/files?upload_id=AB-c_9"));
   (units "chunkSize", Num 5242880);
   (units "fileSize", Num 0)].

End UploadState.


(** ** What the adapters exchange with their providers *)

Module Provider.
Local Open Scope Z_scope.

(** A response: its status, its content type header, its body text and
    what [JSON.parse] makes of that text, in the shape the caller reads
    ([None] when the text is not JSON). *)
Record Reply (D : Type) : Type := mkReply {
  status : Z;
  contentType : option string;
  text : string;
  json : option D
}.
Arguments mkReply {D} status contentType text json.
Arguments status {D} r.
Arguments contentType {D} r.
Arguments text {D} r.
Arguments json {D} r.

(** [response.ok] *)
Definition ok {D : Type} (r : Reply D) : bool :=
  (200 <=? status r) && (status r <=? 299).

(** What a token endpoint (the provider's or an operator's relay) sends. *)
Record TokenData : Type := mkTokenData {
  td_access_token : option string;
  td_refresh_token : option string;
  td_expires_in : option Z;
  td_error : option string;
  td_error_description : option string;
  td_text : option string
}.

(** The adapter's working copy of a backend's [config] record. *)
Record Config : Type := mkConfig {
  client_id : option string;
  client_secret : option string;
  refresh_token : option string;
  use_online_api : bool;
  api_address : option string;
  root_path : option string;
  custom_upload_part_size : option Z
}.

(** The adapter's session state ([saving]). *)
Record Saving : Type := mkSaving {
  access_token : option string;
  saved_refresh_token : option string;
  expires_at : option Z;
  vip_type : option Z
}.

(** The fields every stateful adapter instance holds. *)
Record Client : Type := mkClient {
  config : Config;
  saving : Saving;
  savingChanged : bool;
  configChanged : bool
}.

Definition StateUpdates : Type := option Config * option Saving.

(** [getStateUpdates()], the same in the four stateful adapters. *)
Definition getStateUpdates (c : Client) : option StateUpdates :=
  if negb (savingChanged c) && negb (configChanged c) then None
  else Some (if configChanged c then Some (config c) else None,
             if savingChanged c then Some (saving c) else None).

Definition setAccessToken (v : option string) (s : Saving) : Saving :=
  mkSaving v (saved_refresh_token s) (expires_at s) (vip_type s).
Definition setSavedRefreshToken (v : option string) (s : Saving) : Saving :=
  mkSaving (access_token s) v (expires_at s) (vip_type s).
Definition setExpiresAt (v : option Z) (s : Saving) : Saving :=
  mkSaving (access_token s) (saved_refresh_token s) v (vip_type s).
Definition setRefreshToken (v : option string) (c : Config) : Config :=
  mkConfig (client_id c) (client_secret c) v (use_online_api c)
    (api_address c) (root_path c) (custom_upload_part_size c).

Definition withSaving (f : Saving -> Saving) (c : Client) : Client :=
  mkClient (config c) (f (saving c)) (savingChanged c) (configChanged c).
Definition withConfig (f : Config -> Config) (c : Client) : Client :=
  mkClient (f (config c)) (saving c) (savingChanged c) (configChanged c).
Definition markSavingChanged (c : Client) : Client :=
  mkClient (config c) (saving c) true (configChanged c).
Definition markConfigChanged (c : Client) : Client :=
  mkClient (config c) (saving c) (savingChanged c) true.

(** JavaScript truthiness of an optional number. *)
Definition truthyNum (n : option Z) : bool :=
  match n with
  | Some z => negb (z =? 0)
  | None => false
  end.

(** *** The network as the adapter sees it

    [D] is the shape of the data the provider's API returns and [R] what
    the adapter sends.  Replies are consumed in the order the adapter
    fetches; a fetch that finds no reply rejects, as a fetch does when the
    network fails.  Every fetch is recorded in [calls], oldest first. *)
Section World.
Variables D R : Type.

Inductive Call : Type :=
| Refresh (online : bool)
| Fetch (request : R) (token : string).

Record World : Type := mkWorld {
  client : Client;
  now : Z;
  tokenReplies : list (Reply TokenData);
  replies : list (Reply D);
  calls : list Call
}.

Definition M (A : Type) : Type := Async World A.

Definition getClient : M Client := fun w => (Ok (client w), w).
Definition modifyClient (f : Client -> Client) : M unit :=
  fun w =>
    (Ok tt, mkWorld (f (client w)) (now w) (tokenReplies w) (replies w)
              (calls w)).
Definition dateNow : M Z := fun w => (Ok (now w), w).

Definition setReplies (l : list (Reply D)) (w : World) : World :=
  mkWorld (client w) (now w) (tokenReplies w) l (calls w).
Definition record (c : Call) (w : World) : World :=
  mkWorld (client w) (now w) (tokenReplies w) (replies w) (calls w ++ [c]).

(** A fetch to the token endpoint. *)
Definition fetchToken (online : bool) : M (Reply TokenData) :=
  fun w =>
    let w := record (Refresh online) w in
    match tokenReplies w with
    | [] => (Err "fetch failed", w)
    | r :: rest =>
        (Ok r, mkWorld (client w) (now w) rest (replies w) (calls w))
    end.

(** A fetch to the provider's API. *)
Definition fetchApi (request : R) (token : string) : M (Reply D) :=
  fun w =>
    let w := record (Fetch request token) w in
    match replies w with
    | [] => (Err "fetch failed", w)
    | r :: rest => (Ok r, setReplies rest w)
    end.

Definition isRefresh (c : Call) : bool :=
  match c with Refresh _ => true | Fetch _ _ => false end.
Definition isFetch (c : Call) : bool := negb (isRefresh c).

(** The number of token refreshes and of API fetches in a trace. *)
Definition refreshCount (l : list Call) : nat :=
  List.length (filter isRefresh l).
Definition fetchCount (l : list Call) : nat :=
  List.length (filter isFetch l).

(** Every fetch of a trace sends the request [rq]. *)
Definition allFetch (rq : R) (l : list Call) : Prop :=
  Forall (fun c => match c with
                   | Fetch q _ => q = rq
                   | Refresh _ => True
                   end) l.

End World.

Arguments Refresh {R} online.
Arguments Fetch {R} request token.
Arguments mkWorld {D R} client now tokenReplies replies calls.
Arguments client {D R} w.
Arguments now {D R} w.
Arguments tokenReplies {D R} w.
Arguments replies {D R} w.
Arguments calls {D R} w.
Arguments getClient {D R} w.
Arguments modifyClient {D R} f w.
Arguments dateNow {D R} w.
Arguments setReplies {D R} l w.
Arguments record {D R} c w.
Arguments fetchToken {D R} online w.
Arguments fetchApi {D R} request token w.
Arguments isRefresh {R} c.
Arguments isFetch {R} c.
Arguments refreshCount {R} l.
Arguments fetchCount {R} l.
Arguments allFetch {R} rq l.

End Provider.

(** ** Listing results *)

Module Drive.
Local Open Scope Z_scope.

Record DriveObject : Type := mkDriveObject {
  key : string;
  name : string;
  size : Z;
  lastModified : string;
  isDirectory : bool;
  etag : option string
}.

Record ListObjectsResult : Type := mkListObjectsResult {
  objects : list DriveObject;
  prefixes : list string;
  isTruncated : bool;
  nextContinuationToken : option string
}.

Section Sort.
(** [a.localeCompare(b)]: negative, zero or positive. *)
Variable localeCompare : string -> string -> Z.

(** The comparator every adapter passes to [objects.sort]. *)
Definition compareObjects (a b : DriveObject) : Z :=
  if negb (Bool.eqb (isDirectory a) (isDirectory b))
  then (if isDirectory a then -1 else 1)
  else localeCompare (name a) (name b).

(** [Array.prototype.sort] with a comparator, as a stable insertion
    sort: an element moves in front of the elements it compares
    strictly smaller than. *)
Fixpoint insertBy {A : Type} (cmp : A -> A -> Z) (x : A) (l : list A)
  : list A :=
  match l with
  | [] => [x]
  | y :: l' => if cmp x y <=? 0 then x :: l else y :: insertBy cmp x l'
  end.

Definition sortBy {A : Type} (cmp : A -> A -> Z) (l : list A) : list A :=
  fold_right (insertBy cmp) [] l.

(** The order a listing is required to be in: directories first, then
    by name. *)
Definition objectLe (a b : DriveObject) : Prop :=
  (isDirectory a = true /\ isDirectory b = false)
  \/ (isDirectory a = isDirectory b
      /\ localeCompare (name a) (name b) <= 0).

End Sort.

(** The key of a listed entry: directories end in a separator. *)
Definition entryKey (keyBase : string) (entryName : string) (dir : bool)
  : string :=
  if dir then (keyBase ++ entryName ++ "/")%string
  else (keyBase ++ entryName)%string.

(** The listing loop the adapters share: every entry is pushed to
    [objects], and the key of every directory to [prefixes] as well. *)
Definition collectStep {F : Type} (toObject : F -> DriveObject)
  (acc : list DriveObject * list string) (file : F)
  : list DriveObject * list string :=
  let o := toObject file in
  (fst acc ++ [o], if isDirectory o then snd acc ++ [key o] else snd acc).

Definition collect {F : Type} (toObject : F -> DriveObject)
  (files : list F) : list DriveObject * list string :=
  fold_left (collectStep toObject) files ([], []).

(** Every prefix is the key of a directory entry of the listing. *)
Definition prefixesAreDirectories (r : ListObjectsResult) : Prop :=
  forall k, In k (prefixes r) ->
    exists o, In o (objects r) /\ key o = k /\ isDirectory o = true.

(** The invariant of the listings the adapters build: prefixes name
    directory entries, entries are in listing order, and a listing that
    is not truncated carries no token other than the empty one. *)
Definition listingInvariant (localeCompare : string -> string -> Z)
  (r : ListObjectsResult) : Prop :=
  prefixesAreDirectories r
  /\ StronglySorted (objectLe localeCompare) (objects r)
  /\ (isTruncated r = false ->
      nextContinuationToken r = None \/ nextContinuationToken r = Some "").

End Drive.

(** ** Baidu Yun adapter *)

Module Baidu.
Import JsString DriveUtils Provider Drive.
Local Open Scope Z_scope.

Definition BAIDU_API_BASE : string := "https://pan.baidu.com/rest/2.0".
Definition BAIDU_PCS_BASE : string := "https://d.pcs.baidu.com".

Record BaiduFile : Type := mkBaiduFile {
  fs_id : Z;
  path : string;
  server_filename : string;
  file_size : Z;
  isdir : Z;
  server_mtime : Z;
  server_ctime : Z
}.

(** The fields the adapter reads from the JSON the provider returns. *)
Record Data : Type := mkData {
  errno : option Z;
  error_code : option Z;
  list_ : option (list BaiduFile);   (* the [list] field *)
  return_type : option Z;
  uploadid : option string
}.

Inductive FormValue : Type :=
| Text (s : string)
| JsonStrings (l : list string)   (* JSON.stringify of a string array *)
| File (chunk : list Byte.byte).

(** A request to the provider: the API path or upload URL, the HTTP
    method, the query parameters and the form fields. *)
Record Request : Type := mkRequest {
  pathname : string;
  method : string;
  params : list (string * string);
  form : list (string * FormValue)
}.

Definition BWorld : Type := World Data Request.
Definition BM (A : Type) : Type := M Data Request A.

Definition ensureTokenNeeded (c : Client) : bool :=
  negb (truthyOpt (access_token (saving c))).

(** What both refresh routines store on success. *)
Definition storeTokens (data : TokenData) (c : Client) : Client :=
  markConfigChanged
    (markSavingChanged
       (withConfig (setRefreshToken (td_refresh_token data))
          (withSaving
             (fun s => setSavedRefreshToken (td_refresh_token data)
                         (setAccessToken (td_access_token data) s)) c))).

Definition refreshTokenOnline : BM unit :=
  response <- fetchToken true ;;
  if negb (ok response) then throw "Baidu online refresh failed"
  else
    match json response with
    | None => throw "SyntaxError"
    | Some data =>
        if negb (truthyOpt (td_access_token data))
           || negb (truthyOpt (td_refresh_token data))
        then throw (orElse (td_text data)
                      "Baidu online refresh returned empty token")
        else modifyClient (storeTokens data)
    end.

Definition refreshTokenLocal : BM unit :=
  c <- getClient ;;
  if negb (truthyOpt (client_id (config c)))
     || negb (truthyOpt (client_secret (config c)))
  then throw "Missing client_id or client_secret"
  else
    response <- fetchToken false ;;
    match json response with
    | None => throw "SyntaxError"
    | Some data =>
        if negb (ok response) || truthyOpt (td_error data)
        then throw (orElse (td_error_description data)
                      (orElse (td_error data) "Baidu refresh failed"))
        else if negb (truthyOpt (td_access_token data))
                || negb (truthyOpt (td_refresh_token data))
        then throw "Baidu refresh returned empty token"
        else modifyClient (storeTokens data)
    end.

Definition refreshToken : BM unit :=
  c <- getClient ;;
  if use_online_api (config c) && truthyOpt (api_address (config c))
  then refreshTokenOnline
  else refreshTokenLocal.

Definition ensureToken : BM unit :=
  c <- getClient ;;
  if ensureTokenNeeded c then refreshToken else ret tt.

Definition resolvePath (c : Client) (p : string) : string :=
  let rootPath := orElse (root_path (config c)) "/" in
  let joined := joinRootPath rootPath p in
  if negb (startsWithSlash joined) then ("/" ++ joined)%string else joined.

(** The access token [request] puts in the query string. *)
Definition sentToken (c : Client) : string :=
  orElse (access_token (saving c)) "".

(** The provider signals an expired token by these error numbers. *)
Definition isAuthExpiry (e : Z) : bool := (e =? 111) || (e =? -6).

(** [request]: the recursion of the source is on the replies still to
    come, each attempt consuming one. *)
Fixpoint requestFrom (feed : list (Reply Data)) (rq : Request)
  (w : BWorld) : result Data * BWorld :=
  match ensureToken w with
  | (Err e, w1) => (Err e, w1)
  | (Ok _, w1) =>
      let w2 := record (Fetch rq (sentToken (client w1))) w1 in
      match feed with
      | [] => (Err "fetch failed", setReplies [] w2)
      | response :: feed' =>
          let w3 := setReplies feed' w2 in
          match json response with
          | None =>
              if negb (ok response) then (Err "Baidu API error", w3)
              else (Err "Baidu API parse failed", w3)
          | Some data =>
              match errno data with
              | Some e =>
                  if negb (e =? 0) then
                    if isAuthExpiry e then
                      match refreshToken w3 with
                      | (Err e', w4) => (Err e', w4)
                      | (Ok _, w4) => requestFrom feed' rq w4
                      end
                    else (Err "Baidu API errno", w3)
                  else (Ok data, w3)
              | None => (Ok data, w3)
              end
          end
      end
  end.

Definition request (rq : Request) : BM Data :=
  fun w => requestFrom (replies w) rq w.

(** The adapter refreshes through the operator's relay. *)
Definition online (c : Client) : bool :=
  use_online_api (config c) && truthyOpt (api_address (config c)).

(** The adapter can refresh and holds an access token. *)
Definition ready (c : Client) : bool :=
  (online c
   || (truthyOpt (client_id (config c))
       && truthyOpt (client_secret (config c))))
  && truthyOpt (access_token (saving c)).

(** A reply of the token endpoint that grants a token. *)
Definition grants (r : Reply TokenData) : bool :=
  match json r with
  | Some d =>
      ok r && negb (truthyOpt (td_error d))
      && truthyOpt (td_access_token d) && truthyOpt (td_refresh_token d)
  | None => false
  end.

(** The client after a refresh that [r] answers. *)
Definition refreshed (r : Reply TokenData) (c : Client) : Client :=
  match json r with
  | Some d => storeTokens d c
  | None => c
  end.

(** The provider reports that the access token has expired. *)
Definition signalsExpiry (r : Reply Data) : bool :=
  match json r with
  | Some d =>
      match errno d with
      | Some e => isAuthExpiry e
      | None => false
      end
  | None => false
  end.

(** The data of a reply that reports no error. *)
Definition payloadOf (r : Reply Data) : option Data :=
  match json r with
  | Some d =>
      match errno d with
      | Some e => if e =? 0 then Some d else None
      | None => Some d
      end
  | None => None
  end.

Definition listFiles (dir : string) : BM (list BaiduFile) :=
  result <-
    request (mkRequest "/xpan/file" "GET"
               [("method", "list"); ("dir", dir); ("web", "web");
                ("start", "0"); ("limit", "200")] []) ;;
  ret (match list_ result with Some l => l | None => [] end).

Section Listing.
Variable localeCompare : string -> string -> Z.
(** [new Date(ms).toISOString()] *)
Variable toISOString : Z -> string.

Definition toDriveObject (keyBase : string) (file : BaiduFile)
  : DriveObject :=
  let isDirectory := isdir file =? 1 in
  mkDriveObject (entryKey keyBase (server_filename file) isDirectory)
    (server_filename file) (file_size file)
    (toISOString (server_mtime file * 1000)) isDirectory None.

(** The loop of [listObjects] and the result it returns. *)
Definition buildListing (prefix : string) (files : list BaiduFile)
  : ListObjectsResult :=
  let keyBase :=
    if truthy prefix
    then (stripTrailingSlash (stripLeadingSlash prefix) ++ "/")%string
    else "" in
  let '(objects, prefixes) := collect (toDriveObject keyBase) files in
  mkListObjectsResult (sortBy (compareObjects localeCompare) objects)
    prefixes false None.

Definition listObjects (prefix : string) : BM ListObjectsResult :=
  c <- getClient ;;
  let path :=
    resolvePath c
      (if truthy prefix then ("/" ++ stripLeadingSlash prefix)%string
       else "/") in
  files <- listFiles path ;;
  ret (buildListing prefix files).

End Listing.

(** *** The multipart lifecycle *)

Definition initiateMultipartUpload (_key _contentType : string)
  (_options : option (option Z * option Z)) : result string :=
  Err "BaiduYun does not support multipart upload in this mode".

Definition uploadPart (_key _uploadId : string) (_partNumber : Z)
  (_body : list Byte.byte) (_contentLength : option Z) : result string :=
  Err "BaiduYun does not support multipart upload in this mode".

Definition completeMultipartUpload (_key _uploadId : string)
  (_parts : list (Z * string)) : result unit :=
  Ok tt.

Definition abortMultipartUpload (_key _uploadId : string) : result unit :=
  Ok tt.

(** *** Upload *)

Definition MiB : Z := 1024 * 1024.

Definition getSliceSize (c : Client) (fileSize : Z) : Z :=
  let defaultSlice := 4 * 1024 * 1024 in
  let vipSlice := 16 * 1024 * 1024 in
  let svipSlice := 32 * 1024 * 1024 in
  let vipType := match vip_type (saving c) with
                 | Some v => v
                 | None => 0
                 end in
  let custom := match custom_upload_part_size (config c) with
                | Some v => v
                | None => 0
                end in
  if 0 <? custom
  then Z.max defaultSlice (Z.min (custom * 1024 * 1024) svipSlice)
  else if vipType =? 2 then svipSlice
  else if vipType =? 1 then vipSlice
  else defaultSlice.

(** [data.slice(start, end)] *)
Definition slice (data : list Byte.byte) (start stop : Z) : list Byte.byte :=
  firstn (Z.to_nat (stop - start)) (skipn (Z.to_nat start) data).

(** The bytes of slice number [i] of a body of [fileSize] bytes. *)
Definition sliceAt (data : list Byte.byte) (sliceSize fileSize i : Z)
  : list Byte.byte :=
  slice data (i * sliceSize) (Z.min (i * sliceSize + sliceSize) fileSize).

(** A reply to a slice upload that the loop accepts. *)
Definition sliceReplyOk (r : Reply Data) : bool :=
  match json r with
  | None => false
  | Some d =>
      match errno d, error_code d with
      | Some 0, _ => true
      | _, Some 0 => true
      | _, _ => false
      end
  end.

(** The first loop of [putObject]: one digest per slice.  [fuel] bounds
    the number of iterations; the file size is always enough. *)
Fixpoint blockListFrom (fuel : nat) (data : list Byte.byte)
  (offset sliceSize fileSize : Z) : list string :=
  match fuel with
  | O => []
  | S fuel' =>
      if offset <? fileSize then
        MD5.md5Hex (slice data offset (Z.min (offset + sliceSize) fileSize))
        :: blockListFrom fuel' data (offset + sliceSize) sliceSize fileSize
      else []
  end.

Definition precreateRequest (path : string) (fileSize : Z)
  (blockList : list string) (contentMd5 sliceMd5 : string) : Request :=
  mkRequest "/xpan/file" "POST" [("method", "precreate")]
    [("path", Text path); ("size", Text (numberToString fileSize));
     ("isdir", Text "0"); ("autoinit", Text "1"); ("rtype", Text "3");
     ("block_list", JsonStrings blockList);
     ("content-md5", Text contentMd5); ("slice-md5", Text sliceMd5)].

Definition createRequest (path : string) (fileSize : Z) (uploadid : string)
  (blockList : list string) : Request :=
  mkRequest "/xpan/file" "POST" [("method", "create")]
    [("path", Text path); ("size", Text (numberToString fileSize));
     ("isdir", Text "0"); ("uploadid", Text uploadid);
     ("block_list", JsonStrings blockList); ("rtype", Text "3")].

Definition sliceRequest (path uploadid : string) (partseq : Z)
  (chunk : list Byte.byte) : Request :=
  mkRequest (BAIDU_PCS_BASE ++ "/rest/2.0/pcs/superfile2")%string "POST"
    [("method", "upload"); ("type", "tmpfile"); ("path", path);
     ("uploadid", uploadid);
     ("partseq", numberToString partseq)]
    [("file", File chunk)].

(** One iteration of the slice loop. *)
Definition uploadSlice (path uploadid : string) (data : list Byte.byte)
  (sliceSize fileSize partseq : Z) : BM unit :=
  let start := partseq * sliceSize in
  let stop := Z.min (start + sliceSize) fileSize in
  let chunk := slice data start stop in
  c <- getClient ;;
  response <-
    fetchApi (sliceRequest path uploadid partseq chunk)
      (orElse (access_token (saving c)) "") ;;
  match json response with
  | None => throw "SyntaxError"
  | Some result =>
      if negb (match errno result with Some 0 => true | _ => false end)
         && negb (match error_code result with Some 0 => true | _ => false end)
      then throw "Baidu upload slice failed"
      else ret tt
  end.

(** The slice loop, [remaining] slices from [partseq] on. *)
Fixpoint uploadSlices (remaining : nat) (path uploadid : string)
  (data : list Byte.byte) (sliceSize fileSize partseq : Z) : BM unit :=
  match remaining with
  | O => ret tt
  | S remaining' =>
      uploadSlice path uploadid data sliceSize fileSize partseq ;;;
      uploadSlices remaining' path uploadid data sliceSize fileSize
        (partseq + 1)
  end.

(** The slice uploads of a body cut into [k] slices, in the order of
    their [partseq]. *)
Definition sliceCalls (path uploadid : string) (data : list Byte.byte)
  (sliceSize fileSize : Z) (token : string) (first k : nat)
  : list (Call Request) :=
  map (fun i =>
         Fetch (sliceRequest path uploadid (Z.of_nat i)
                  (sliceAt data sliceSize fileSize (Z.of_nat i))) token)
    (seq first k).

Definition putObject (key : string) (data : list Byte.byte) : BM unit :=
  c <- getClient ;;
  let path := resolvePath c key in
  let fileSize := Z.of_nat (List.length data) in
  let sliceSize := getSliceSize c fileSize in
  let blockList :=
    blockListFrom (List.length data) data 0 sliceSize fileSize in
  let contentMd5 := MD5.md5Hex data in
  let sliceMd5 := MD5.md5Hex (slice data 0 (Z.min (256 * 1024) fileSize)) in
  precreate <-
    request (precreateRequest path fileSize blockList contentMd5 sliceMd5) ;;
  if match return_type precreate with Some 2 => true | _ => false end
  then ret tt
  else
    match uploadid precreate with
    | Some uploadid =>
        if negb (truthy uploadid) then throw "Baidu upload id missing"
        else
          uploadSlices (List.length blockList) path uploadid data sliceSize
            fileSize 0 ;;;
          (request (createRequest path fileSize uploadid blockList) ;;;
           ret tt)
    | None => throw "Baidu upload id missing"
    end.

(** *** A small upload scenario

    An account without VIP tier that holds an access token uploads five
    bytes; the provider asks for the data, accepts the single slice and
    commits. *)
Definition sampleConfig (custom : option Z) : Config :=
  mkConfig (Some "id") (Some "secret") (Some "r0") false None None custom.

Definition sampleClient (custom : option Z) (vip : option Z) : Client :=
  mkClient (sampleConfig custom) (mkSaving (Some "t0") None None vip)
    false false.

Definition sampleData : list Byte.byte :=
  [Byte.x01; Byte.x02; Byte.x03; Byte.x04; Byte.x05].

Definition replyOf (d : Data) : Reply Data :=
  mkReply 200 (Some "application/json") "<json>" (Some d).

Definition precreateReply (returnType : Z) : Reply Data :=
  replyOf (mkData (Some 0) None None (Some returnType) (Some "u1")).

Definition plainReply : Reply Data :=
  replyOf (mkData (Some 0) None None None None).

Definition sampleWorld (returnType : Z) : BWorld :=
  mkWorld (sampleClient None None) 0 []
    [precreateReply returnType; plainReply; plainReply] [].

(** *** A scenario: the token has expired once *)

Definition sampleGrant : Reply TokenData :=
  mkReply 200 (Some "application/json") "<json>"
    (Some (mkTokenData (Some "t1") (Some "r1") None None None None)).

Definition expiredReply : Reply Data :=
  replyOf (mkData (Some 111) None None None None).

Definition listRequest : Request :=
  mkRequest "/xpan/file" "GET" [("method", "list"); ("dir", "/")] [].

Definition retryWorld : BWorld :=
  mkWorld (sampleClient None None) 0 [sampleGrant]
    [expiredReply; plainReply] [].

End Baidu.

(** ** Google Drive adapter *)

Module GoogleDrive.
Import JsString DriveUtils Provider Drive.
Local Open Scope Z_scope.

(** The arguments of [request]. *)
Record Request : Type := mkRequest {
  url : string;
  method : string;
  payload : option string;
  headers : list (string * string)
}.

Section Adapter.
(** The shape in which callers read the provider's JSON. *)
Variable D : Type.

Definition GM (A : Type) : Type := M D Request A.

Definition isTokenExpired (c : Client) (now : Z) : bool :=
  if negb (truthyNum (expires_at (saving c))) then true
  else
    match expires_at (saving c) with
    | Some e => e - 5 * 60 * 1000 <=? now
    | None => true
    end.

Definition expiry (now : Z) (data : TokenData) : Z :=
  now + (if truthyNum (td_expires_in data)
         then match td_expires_in data with
              | Some e => e * 1000
              | None => 0
              end
         else 3600 * 1000).

(** The assignments at the end of [refreshToken]. *)
Definition storeTokens (now : Z) (data : TokenData) (c : Client) : Client :=
  let c := withSaving (setAccessToken (td_access_token data)) c in
  let c :=
    if truthyOpt (td_refresh_token data)
    then markConfigChanged
           (withConfig (setRefreshToken (td_refresh_token data))
              (withSaving (setSavedRefreshToken (td_refresh_token data)) c))
    else c in
  markSavingChanged (withSaving (setExpiresAt (Some (expiry now data))) c).

Definition refreshToken : GM unit :=
  c <- getClient ;;
  if negb (truthyOpt (client_id (config c)))
     || negb (truthyOpt (client_secret (config c)))
  then throw "Missing client_id or client_secret"
  else if negb (truthyOpt (refresh_token (config c)))
  then throw "Missing refresh_token"
  else
    response <- fetchToken false ;;
    match json response with
    | None => throw "SyntaxError"
    | Some data =>
        if negb (ok response) || truthyOpt (td_error data)
        then throw (orElse (td_error_description data)
                      (orElse (td_error data) "Google refresh failed"))
        else if negb (truthyOpt (td_access_token data))
        then throw "Google refresh returned empty token"
        else
          t <- dateNow ;;
          modifyClient (storeTokens t data)
    end.

Definition ensureToken : GM unit :=
  c <- getClient ;;
  t <- dateNow ;;
  if negb (truthyOpt (access_token (saving c))) || isTokenExpired c t
  then refreshToken
  else ret tt.

(** The bearer token [request] sends: the template literal renders a
    missing token as the text "undefined". *)
Definition bearer (c : Client) : string :=
  match access_token (saving c) with
  | Some t => t
  | None => "undefined"
  end.

(** [request]: the recursion of the source is on the replies still to
    come, each attempt consuming one. *)
Fixpoint requestFrom (feed : list (Reply D)) (rq : Request)
  (w : World D Request) : result (Reply D) * World D Request :=
  match ensureToken w with
  | (Err e, w1) => (Err e, w1)
  | (Ok _, w1) =>
      let w2 := record (Fetch rq (bearer (client w1))) w1 in
      match feed with
      | [] => (Err "fetch failed", setReplies [] w2)
      | response :: feed' =>
          let w3 := setReplies feed' w2 in
          if status response =? 401 then
            match refreshToken w3 with
            | (Err e, w4) => (Err e, w4)
            | (Ok _, w4) => requestFrom feed' rq w4
            end
          else (Ok response, w3)
      end
  end.

Definition request (rq : Request) : GM (Reply D) :=
  fun w => requestFrom (replies w) rq w.

End Adapter.

(** The adapter holds its credentials and an access token that is not
    about to expire. *)
Definition ready (c : Client) (now : Z) : bool :=
  truthyOpt (client_id (config c)) && truthyOpt (client_secret (config c))
  && truthyOpt (refresh_token (config c))
  && truthyOpt (access_token (saving c)) && negb (isTokenExpired c now).

(** A reply of the token endpoint that grants a token which is not about
    to expire. *)
Definition grants (now : Z) (r : Reply TokenData) : bool :=
  ok r
  && match json r with
     | Some d =>
         negb (truthyOpt (td_error d)) && truthyOpt (td_access_token d)
         && negb (expiry now d =? 0)
         && negb (expiry now d - 5 * 60 * 1000 <=? now)
     | None => false
     end.

(** The client after a refresh that [r] answers. *)
Definition refreshed (now : Z) (r : Reply TokenData) (c : Client) : Client :=
  match json r with
  | Some d => storeTokens now d c
  | None => c
  end.

Arguments refreshToken {D} w.
Arguments ensureToken {D} w.
Arguments requestFrom {D} feed rq w.
Arguments request {D} rq w.

(** *** Listing *)

Record GoogleFile : Type := mkGoogleFile {
  id : string;
  name : string;
  mimeType : option string;
  size : option string;
  modifiedTime : option string
}.

Record GoogleListResponse : Type := mkGoogleListResponse {
  files : option (list GoogleFile);
  nextPageToken : option string
}.

Section Listing.
Variable localeCompare : string -> string -> Z.
(** [parseInt(s, 10)] *)
Variable parseInt : string -> Z.

Definition toDriveObject (normalized : string) (file : GoogleFile)
  : DriveObject :=
  let isDirectory :=
    match mimeType file with
    | Some m => String.eqb m "application/vnd.google-apps.folder"
    | None => false
    end in
  let keyBase :=
    if truthy normalized
    then (stripTrailingSlash normalized ++ "/")%string
    else "" in
  mkDriveObject (entryKey keyBase (name file) isDirectory) (name file)
    (parseInt (orElse (size file) "0")) (orElse (modifiedTime file) "")
    isDirectory None.

(** What [listObjects] returns once [findFileIdByPath] has resolved the
    prefix to [folderId] and the provider has answered the listing
    request with [result] (which is not asked for when the folder is
    not found). *)
Definition buildListing (prefix : string) (folderId : option string)
  (result : GoogleListResponse) : ListObjectsResult :=
  let normalized := stripLeadingSlash prefix in
  if negb (truthyOpt folderId) then mkListObjectsResult [] [] false None
  else
    let '(objects, prefixes) :=
      collect (toDriveObject normalized)
        (match files result with Some l => l | None => [] end) in
    mkListObjectsResult (sortBy (compareObjects localeCompare) objects)
      prefixes (truthyOpt (nextPageToken result)) (nextPageToken result).

End Listing.

(** *** A scenario: the provider answers 401 twice, then 200 *)

Definition sampleClient : Client :=
  mkClient (mkConfig (Some "id") (Some "secret") (Some "r0") false None None None)
    (mkSaving (Some "t0") None (Some 7200000) None) false false.

Definition sampleGrant (token : string) : Reply TokenData :=
  mkReply 200 (Some "application/json") "<json>"
    (Some (mkTokenData (Some token) None (Some 3600) None None None)).

Definition sampleReply (status : Z) : Reply unit :=
  mkReply status None "" None.

Definition sampleRequest : Request :=
  mkRequest "https://www.googleapis.com/drive/v3/files" "GET" None [].

Definition sampleWorld (statuses : list Z) : World unit Request :=
  mkWorld sampleClient 1000 [sampleGrant "t1"; sampleGrant "t2"]
    (map sampleReply statuses) [].

End GoogleDrive.

(** ** OneDrive adapter *)

Module OneDrive.
Import JsString DriveUtils Provider Drive.
Local Open Scope Z_scope.

Record Request : Type := mkRequest {
  url : string;
  method : string;
  payload : option string;
  headers : list (string * string)
}.

(** What [request] resolves with: parsed JSON, or the body text. *)
Inductive Value (D : Type) : Type :=
| JsonValue (data : D)
| TextValue (text : string).
Arguments JsonValue {D} data.
Arguments TextValue {D} text.

Section Adapter.
Variable D : Type.

Definition OM (A : Type) : Type := M D Request A.

Definition isTokenExpired (c : Client) (now : Z) : bool :=
  if negb (truthyNum (expires_at (saving c))) then true
  else
    match expires_at (saving c) with
    | Some e => e - 5 * 60 * 1000 <=? now
    | None => true
    end.

Definition expiry (now : Z) (data : TokenData) : Z :=
  now + (if truthyNum (td_expires_in data)
         then match td_expires_in data with
              | Some e => e * 1000
              | None => 0
              end
         else 3600 * 1000).

(** The assignments at the end of [refreshTokenOnline]. *)
Definition storeTokensOnline (now : Z) (data : TokenData) (c : Client)
  : Client :=
  markConfigChanged
    (markSavingChanged
       (withConfig (setRefreshToken (td_refresh_token data))
          (withSaving
             (fun s =>
                setExpiresAt (Some (expiry now data))
                  (setSavedRefreshToken (td_refresh_token data)
                     (setAccessToken (td_access_token data) s)))
             c))).

(** The assignments at the end of [refreshTokenLocal]. *)
Definition storeTokensLocal (now : Z) (data : TokenData) (c : Client)
  : Client :=
  let c := withSaving (setAccessToken (td_access_token data)) c in
  let c :=
    if truthyOpt (td_refresh_token data)
    then markConfigChanged
           (withConfig (setRefreshToken (td_refresh_token data))
              (withSaving (setSavedRefreshToken (td_refresh_token data)) c))
    else c in
  markSavingChanged (withSaving (setExpiresAt (Some (expiry now data))) c).

Definition refreshTokenOnline : OM unit :=
  response <- fetchToken true ;;
  if negb (ok response) then throw "OneDrive online refresh failed"
  else
    match json response with
    | None => throw "SyntaxError"
    | Some data =>
        if negb (truthyOpt (td_refresh_token data))
           || negb (truthyOpt (td_access_token data))
        then throw (orElse (td_text data)
                      "OneDrive online refresh returned empty token")
        else
          t <- dateNow ;;
          modifyClient (storeTokensOnline t data)
    end.

Definition refreshTokenLocal : OM unit :=
  c <- getClient ;;
  if negb (truthyOpt (client_id (config c)))
     || negb (truthyOpt (client_secret (config c)))
  then throw "Missing client_id or client_secret"
  else
    response <- fetchToken false ;;
    match json response with
    | None => throw "OneDrive refresh parse failed"
    | Some data =>
        if truthyOpt (td_error data)
        then throw (orElse (td_error_description data)
                      (orElse (td_error data) ""))
        else if negb (truthyOpt (td_access_token data))
        then throw "OneDrive refresh returned empty token"
        else
          t <- dateNow ;;
          modifyClient (storeTokensLocal t data)
    end.

Definition refreshToken : OM unit :=
  c <- getClient ;;
  if use_online_api (config c) && truthyOpt (api_address (config c))
  then refreshTokenOnline
  else refreshTokenLocal.

Definition ensureToken : OM unit :=
  c <- getClient ;;
  t <- dateNow ;;
  if negb (truthyOpt (access_token (saving c))) || isTokenExpired c t
  then refreshToken
  else ret tt.

Definition bearer (c : Client) : string :=
  match access_token (saving c) with
  | Some t => t
  | None => "undefined"
  end.

Fixpoint requestFrom (feed : list (Reply D)) (rq : Request)
  (w : World D Request) : result (Value D) * World D Request :=
  match ensureToken w with
  | (Err e, w1) => (Err e, w1)
  | (Ok _, w1) =>
      let w2 := record (Fetch rq (bearer (client w1))) w1 in
      match feed with
      | [] => (Err "fetch failed", setReplies [] w2)
      | response :: feed' =>
          let w3 := setReplies feed' w2 in
          if negb (ok response) then
            if status response =? 401 then
              match refreshToken w3 with
              | (Err e, w4) => (Err e, w4)
              | (Ok _, w4) => requestFrom feed' rq w4
              end
            else (Err "OneDrive request failed", w3)
          else
            let contentType := orElse (contentType response) "" in
            if includes contentType "application/json" then
              match json response with
              | Some data => (Ok (JsonValue data), w3)
              | None => (Err "SyntaxError", w3)
              end
            else (Ok (TextValue (text response)), w3)
      end
  end.

Definition request (rq : Request) : OM (Value D) :=
  fun w => requestFrom (replies w) rq w.

(** What [request] resolves with on a successful response, when the
    body can be read as its content type announces. *)
Definition valueOf (response : Reply D) : option (Value D) :=
  if includes (orElse (contentType response) "") "application/json"
  then option_map JsonValue (json response)
  else Some (TextValue (text response)).

End Adapter.

(** The adapter refreshes through the operator's relay. *)
Definition online (c : Client) : bool :=
  use_online_api (config c) && truthyOpt (api_address (config c)).

(** The adapter can refresh and holds an access token that is not about
    to expire. *)
Definition ready (c : Client) (now : Z) : bool :=
  (online c
   || (truthyOpt (client_id (config c))
       && truthyOpt (client_secret (config c))))
  && truthyOpt (access_token (saving c)) && negb (isTokenExpired c now).

(** A reply of the token endpoint that grants a token which is not about
    to expire. *)
Definition grants (c : Client) (now : Z) (r : Reply TokenData) : bool :=
  match json r with
  | Some d =>
      (if online c then ok r && truthyOpt (td_refresh_token d)
       else negb (truthyOpt (td_error d)))
      && truthyOpt (td_access_token d)
      && negb (expiry now d =? 0)
      && negb (expiry now d - 5 * 60 * 1000 <=? now)
  | None => false
  end.

(** The client after a refresh that [r] answers. *)
Definition refreshed (now : Z) (r : Reply TokenData) (c : Client) : Client :=
  match json r with
  | Some d =>
      if online c then storeTokensOnline now d c
      else storeTokensLocal now d c
  | None => c
  end.

Arguments refreshToken {D} w.
Arguments ensureToken {D} w.
Arguments requestFrom {D} feed rq w.
Arguments request {D} rq w.
Arguments valueOf {D} response.

(** *** Listing *)

Record OneDriveItem : Type := mkOneDriveItem {
  id : string;
  name : string;
  size : option Z;
  folder : bool;                       (* the item has a [folder] facet *)
  lastModifiedDateTime : option string;
  fileSystemInfo : option (option string)
    (* [fileSystemInfo?.lastModifiedDateTime] *)
}.

Record OneDriveListResponse : Type := mkOneDriveListResponse {
  value : list OneDriveItem;
  nextLink : option string             (* ["@odata.nextLink"] *)
}.

Section Listing.
Variable localeCompare : string -> string -> Z.

Definition toDriveObject (normalized : string) (item : OneDriveItem)
  : DriveObject :=
  let isDirectory := folder item in
  let keyBase :=
    if truthy normalized
    then (stripTrailingSlash normalized ++ "/")%string
    else "" in
  mkDriveObject (entryKey keyBase (name item) isDirectory) (name item)
    (match size item with Some n => n | None => 0 end)
    (orElse (match fileSystemInfo item with
             | Some m => m
             | None => None
             end)
       (orElse (lastModifiedDateTime item) ""))
    isDirectory None.

(** What [listObjects] returns when the provider has answered the
    children request with [result]. *)
Definition buildListing (prefix : string) (result : OneDriveListResponse)
  : ListObjectsResult :=
  let normalized := stripLeadingSlash prefix in
  let '(objects, prefixes) :=
    collect (toDriveObject normalized) (value result) in
  mkListObjectsResult (sortBy (compareObjects localeCompare) objects)
    prefixes (truthyOpt (nextLink result)) (nextLink result).

End Listing.

(** *** A scenario: one 401, then a JSON answer *)

Definition sampleClient : Client :=
  mkClient (mkConfig (Some "id") (Some "secret") (Some "r0") false None None None)
    (mkSaving (Some "t0") None (Some 7200000) None) false false.

Definition sampleGrant (token : string) : Reply TokenData :=
  mkReply 200 (Some "application/json") "<json>"
    (Some (mkTokenData (Some token) None (Some 3600) None None None)).

Definition sampleExpired : Reply Z := mkReply 401 None "" None.

Definition sampleAnswer : Reply Z :=
  mkReply 200 (Some "application/json; charset=utf-8") "7" (Some 7).

Definition sampleRequest : Request :=
  mkRequest "https://graph.microsoft.com/v1.0/me/drive/root" "GET" None [].

Definition sampleWorld : World Z Request :=
  mkWorld sampleClient 1000 [sampleGrant "t1"] [sampleExpired; sampleAnswer] [].

End OneDrive.

(** ** Aliyun Drive adapter *)

Module Aliyun.
Import JsString DriveUtils Provider Drive.
Local Open Scope Z_scope.

Definition API_URL : string := "https://openapi.alipan.com".

Record Request : Type := mkRequest {
  endpoint : string;
  method : string;
  payload : option string
}.

Section Adapter.
Variable D : Type.
(** [ensureToken()], whatever it does on the client at hand. *)
Variable ensureToken : M D Request unit.

Definition bearer (c : Client) : string :=
  match access_token (saving c) with
  | Some t => t
  | None => "undefined"
  end.

(** [request]: the response is returned as it comes. *)
Definition request (rq : Request) : M D Request (Reply D) :=
  ensureToken ;;;
  c <- getClient ;;
  fetchApi rq (bearer c).

End Adapter.

Arguments request {D} ensureToken rq w.

(** *** Listing *)

Record AliyunFile : Type := mkAliyunFile {
  file_id : string;
  name : string;
  type : string;
  size : option Z;
  updated_at : option string
}.

Record AliyunListResponse : Type := mkAliyunListResponse {
  items : option (list AliyunFile);
  next_marker : option string
}.

Section Listing.
Variable localeCompare : string -> string -> Z.

Definition toDriveObject (keyBase : string) (item : AliyunFile)
  : DriveObject :=
  let isDirectory := String.eqb (type item) "folder" in
  mkDriveObject (entryKey keyBase (name item) isDirectory) (name item)
    (match size item with Some n => n | None => 0 end)
    (orElse (updated_at item) "") isDirectory None.

(** What [listObjects] returns once [findFileIdByPath] has resolved the
    prefix to [folderId] and the provider has answered the listing
    request with [response] (which is not asked for when the folder is
    not found). *)
Definition buildListing (prefix : string) (folderId : option string)
  (response : AliyunListResponse) : ListObjectsResult :=
  let normalized := stripLeadingSlash prefix in
  if negb (truthyOpt folderId) then mkListObjectsResult [] [] false None
  else
    let keyBase :=
      if truthy normalized
      then (stripTrailingSlash normalized ++ "/")%string
      else "" in
    let '(objects, prefixes) :=
      collect (toDriveObject keyBase)
        (match items response with Some l => l | None => [] end) in
    mkListObjectsResult (sortBy (compareObjects localeCompare) objects)
      prefixes (truthyOpt (next_marker response)) (next_marker response).

End Listing.

(** *** A scenario: the last page of a folder with two files and a
    subfolder; the provider sends an empty marker with the last page. *)
Definition sampleItems : list AliyunFile :=
  [mkAliyunFile "f1" "b.txt" "file" (Some 10) None;
   mkAliyunFile "f2" "sub" "folder" None None;
   mkAliyunFile "f3" "a.txt" "file" (Some 3) None].

Definition lastPage : AliyunListResponse :=
  mkAliyunListResponse (Some sampleItems) (Some "").

End Aliyun.

(** ** The WebDAV bridge *)

Module WebDav.
Import JsString Provider Drive.
Local Open Scope Z_scope.

Record Env : Type := mkEnv {
  WEBDAV_ENABLED : option string;
  WEBDAV_USERNAME : option string;
  WEBDAV_PASSWORD : option string;
  ADMIN_USERNAME : option string;
  ADMIN_PASSWORD : option string
}.

(** What the handlers read of a request and of the route parameters. *)
Record Request : Type := mkRequest {
  method : string;
  authorization : option string;       (* the Authorization header *)
  contentTypeHeader : option string;   (* the content-type header *)
  destination : option string;         (* the Destination header *)
  url : string;
  body : list Byte.byte
}.

Record Params : Type := mkParams {
  storageIdParam : option string;      (* [params.storageId] *)
  splat : option string                (* [params["*"]] *)
}.

Record Storage : Type := mkStorage {
  id : Z;
  name : string;
  type : string;
  storedConfig : Config;
  storedSaving : Saving
}.

(** What [getObject] resolves with: the headers the bridge reads and the
    byte stream. *)
Record ObjectResponse : Type := mkObjectResponse {
  objectContentType : option string;
  objectContentLength : option string;
  objectBody : list Byte.byte
}.

(** The body of a response.  The XML and HTML documents are kept as what
    they are rendered from. *)
Inductive Body : Type :=
| NoBody
| Plain (text : string)
| StoragesXml (pathname : string) (storages : list Storage)
| PropfindXml (objects : list DriveObject) (requestPath baseUrl : string)
| IndexHtml (path : string) (objects : list DriveObject)
| Stream (bytes : list Byte.byte).

Record Response : Type := mkResponse {
  status : Z;
  headers : list (string * string);
  responseBody : Body
}.

(** The operations of the storage contract that the bridge calls, as
    they appear in the trace. *)
Inductive Operation : Type :=
| ListObjects (prefix : string)
| GetObject (key : string)
| PutObject (key : string) (data : list Byte.byte) (contentType : string)
| DeleteObject (key : string)
| CreateFolder (path : string)
| CopyObject (sourceKey destKey : string)
| MoveObject (path destPath : string).

(** What the configuration store is asked to write. *)
Record UpdateInput : Type := mkUpdateInput {
  inputConfig : option Config;
  inputSaving : option Saving
}.

(** What a handler does to the configuration store and to the adapter,
    and what it logs.  A storage id is [None] when it is not a number. *)
Inductive Event : Type :=
| InitDatabase
| GetAllStorages
| GetStorageById (storageId : option Z)
| Invoked (op : Operation) (resolved : bool)
| ReadState
| UpdateStorage (storageId : option Z) (input : UpdateInput)
| Logged (message : string).

(** A request in progress: the adapter instance's fields and the trace of
    what the bridge did, oldest first. *)
Record Session : Type := mkSession {
  instance : Client;
  events : list Event
}.

Definition BM (A : Type) : Type := Async Session A.

Definition emit (e : Event) : BM unit :=
  fun s => (Ok tt, mkSession (instance s) (events s ++ [e])).
(** [try { m } catch (error) { console.error(label, error); h }] *)
Definition tryCatch {A : Type} (m : BM A) (label : string) (h : BM A)
  : BM A :=
  fun s =>
    match m s with
    | (Ok a, s') => (Ok a, s')
    | (Err _, s') => h (mkSession (instance s') (events s' ++ [Logged label]))
    end.

(** An adapter method: it may change the instance's fields and resolves
    or rejects. *)
Definition Method (A : Type) : Type := Client -> result A * Client.

(** The storage contract, as far as the bridge uses it.  [moveObject] and
    [getStateUpdates] are absent on clients that do not define them. *)
Record StorageClient : Type := mkStorageClient {
  listObjects : string -> Method ListObjectsResult;
  getObject : string -> Method ObjectResponse;
  putObject : string -> list Byte.byte -> string -> Method unit;
  deleteObject : string -> Method unit;
  createFolder : string -> Method unit;
  copyObject : string -> string -> Method unit;
  moveObject : option (string -> string -> Method unit);
  getStateUpdates : option (Client -> option StateUpdates)
}.

(** The six client classes. *)
Record Classes : Type := mkClasses {
  S3Client : Storage -> StorageClient;
  WebdevClient : Storage -> StorageClient;
  OneDriveClient : Storage -> StorageClient;
  GoogleDriveClient : Storage -> StorageClient;
  AliyunDriveClient : Storage -> StorageClient;
  BaiduYunClient : Storage -> StorageClient
}.

(** The storage library and the URL parser of the platform. *)
Record Services : Type := mkServices {
  initDatabase : result unit;
  getAllStorages : result (list Storage);
  getStorageById : option Z -> result (option Storage);
  (** the outcome of the [n]-th call of [updateStorage] *)
  updateStorage : nat -> option Z -> UpdateInput -> result unit;
  (** [new URL(s).pathname], [None] when [s] is not a URL *)
  urlPathname : string -> option string
}.

Definition isUpdate (e : Event) : bool :=
  match e with UpdateStorage _ _ => true | _ => false end.

Definition isInvoked (e : Event) : bool :=
  match e with Invoked _ _ => true | _ => false end.

(** An adapter operation rejected. *)
Definition isRejected (e : Event) : bool :=
  match e with Invoked _ false => true | _ => false end.

(** Every adapter operation of the trace is directly followed by a read
    of the adapter's state updates. *)
Fixpoint readAfterEachInvocation (l : list Event) : bool :=
  match l with
  | [] => true
  | Invoked _ _ :: rest =>
      match rest with
      | ReadState :: _ => readAfterEachInvocation rest
      | _ => false
      end
  | _ :: rest => readAfterEachInvocation rest
  end.

(** The credentials a request presents: the first two segments of the
    decoded Basic authorization. *)
Definition presented (request : Request)
  : option (option string * option string) :=
  match authorization request with
  | Some authHeader =>
      if truthy authHeader && String.prefix "Basic " authHeader
      then
        match Base64.atob (sliceFrom 6 authHeader) with
        | Some credentials =>
            Some (nth_error (split ":" credentials) 0,
                  nth_error (split ":" credentials) 1)
        | None => None
        end
      else None
  | None => None
  end.

Definition getContentType (filename : string) : string :=
  let ext := toLowerCase (List.last (split "." filename) "") in
  let mimeTypes :=
    [("html", "text/html"); ("htm", "text/html"); ("css", "text/css");
     ("js", "application/javascript"); ("json", "application/json");
     ("xml", "application/xml"); ("txt", "text/plain");
     ("md", "text/markdown"); ("png", "image/png"); ("jpg", "image/jpeg");
     ("jpeg", "image/jpeg"); ("gif", "image/gif"); ("svg", "image/svg+xml");
     ("webp", "image/webp"); ("ico", "image/x-icon");
     ("pdf", "application/pdf"); ("zip", "application/zip");
     ("tar", "application/x-tar"); ("gz", "application/gzip");
     ("mp3", "audio/mpeg"); ("mp4", "video/mp4"); ("webm", "video/webm");
     ("avi", "video/x-msvideo"); ("mov", "video/quicktime")] in
  match find (fun p => String.eqb (fst p) ext) mimeTypes with
  | Some (_, mime) => mime
  | None => "application/octet-stream"
  end.

(** *** Authentication *)

Definition sameString (a : option string) (b : string) : bool :=
  match a with
  | Some s => String.eqb s b
  | None => false
  end.

Definition validateWebdavAuth (request : Request) (env : Env) : bool :=
  match authorization request with
  | None => false
  | Some authHeader =>
      if negb (truthy authHeader) || negb (String.prefix "Basic " authHeader)
      then false
      else
        match Base64.atob (sliceFrom 6 authHeader) with
        | None => false
        | Some credentials =>
            let parts := split ":" credentials in
            let username := nth_error parts 0 in
            let password := nth_error parts 1 in
            let webdavUsername :=
              orElse (WEBDAV_USERNAME env)
                (orElse (ADMIN_USERNAME env) "admin") in
            let webdavPassword :=
              orElse (WEBDAV_PASSWORD env)
                (orElse (ADMIN_PASSWORD env) "changeme") in
            sameString username webdavUsername
            && sameString password webdavPassword
        end
  end.

Definition createUnauthorizedResponse : Response :=
  mkResponse 401
    [("WWW-Authenticate", "Basic realm=CList WebDAV");
     ("Content-Type", "text/plain")]
    (Plain "Unauthorized").

(** *** Client construction and state propagation *)

Definition createClient (classes : Classes) (storage : Storage)
  : StorageClient :=
  if String.eqb (type storage) "webdev" then WebdevClient classes storage
  else if String.eqb (type storage) "onedrive"
  then OneDriveClient classes storage
  else if String.eqb (type storage) "gdrive"
  then GoogleDriveClient classes storage
  else if String.eqb (type storage) "alicloud"
  then AliyunDriveClient classes storage
  else if String.eqb (type storage) "baiduyun"
  then BaiduYunClient classes storage
  else S3Client classes storage.

Section Handlers.
Variable services : Services.
Variable classes : Classes.

(** A call of the adapter method [m], recorded as [op]. *)
Definition invoke {A : Type} (op : Operation) (m : Method A) : BM A :=
  fun s =>
    let '(r, c) := m (instance s) in
    (r, mkSession c (events s ++ [Invoked op (isOk r)])).

Definition persistClientState (client : StorageClient)
  (storageId : option Z) : BM unit :=
  match getStateUpdates client with
  | None => ret tt
  | Some getStateUpdates =>
      fun s =>
        let s1 := mkSession (instance s) (events s ++ [ReadState]) in
        match getStateUpdates (instance s) with
        | None => (Ok tt, s1)
        | Some (config, saving) =>
            let input := mkUpdateInput config saving in
            match config, saving with
            | None, None => (Ok tt, s1)
            | _, _ =>
                let n := List.length (filter isUpdate (events s1)) in
                (updateStorage services n storageId input,
                 mkSession (instance s1)
                   (events s1 ++ [UpdateStorage storageId input]))
            end
        end
  end.

Definition withClientState {T : Type} (client : StorageClient)
  (storageId : option Z) (action : BM T) : BM T :=
  fun s =>
    let '(r, s1) := action s in
    let s2 :=
      match persistClientState client storageId s1 with
      | (Ok _, s') => s'
      | (Err _, s') =>
          mkSession (instance s')
            (events s' ++ [Logged "Failed to persist storage state:"])
      end in
    (r, s2).

(** *** The handlers *)

Definition query {A : Type} (e : Event) (answer : result A) : BM A :=
  fun s => (answer, mkSession (instance s) (events s ++ [e])).

(** [new GoogleDriveClient({ config, saving })] and the like: the
    instance starts from the stored records, with nothing changed. *)
Definition construct (storage : Storage) : BM unit :=
  fun s =>
    (Ok tt,
     mkSession
       (mkClient (storedConfig storage) (storedSaving storage) false false)
       (events s)).

Definition respond (status : Z) (text : string) : Response :=
  mkResponse status [] (Plain text).

Definition created (status : Z) : Response :=
  mkResponse status [] NoBody.

Definition optionsResponse : Response :=
  mkResponse 200
    [("DAV", "1, 2");
     ("Allow", "OPTIONS, GET, HEAD, PUT, DELETE, PROPFIND, MKCOL, COPY, MOVE");
     ("MS-Author-Via", "DAV")]
    NoBody.

Definition xmlHeaders : list (string * string) :=
  [("Content-Type", "application/xml; charset=utf-8")].

(** [`${storageId}`] *)
Definition idText (storageId : option Z) : string :=
  match storageId with
  | Some z => numberToString z
  | None => "NaN"
  end.

Definition isZero (storageId : option Z) : bool :=
  match storageId with
  | Some z => z =? 0
  | None => false
  end.

Definition objectHeaders (contentType : string)
  (contentLength : option string) : list (string * string) :=
  ("Content-Type", contentType)
  :: (if truthyOpt contentLength
      then [("Content-Length", orElse contentLength "")]
      else []).

Definition loader (request : Request) (params : Params) (env : Env)
  : BM Response :=
  let method := toUpperCase (method request) in
  if String.eqb method "OPTIONS" then ret optionsResponse
  else if negb (sameString (WEBDAV_ENABLED env) "true")
  then ret (respond 403 "WebDAV is disabled")
  else if negb (validateWebdavAuth request env)
  then ret createUnauthorizedResponse
  else
    query InitDatabase (initDatabase services) ;;;
    let storageId := parseInt (orElse (storageIdParam params) "0") in
    let path := orElse (splat params) "" in
    if isZero storageId then
      if String.eqb method "PROPFIND" then
        storages <- query GetAllStorages (getAllStorages services) ;;
        match urlPathname services (url request) with
        | None => throw "TypeError: Invalid URL"
        | Some pathname =>
            ret (mkResponse 207 xmlHeaders (StoragesXml pathname storages))
        end
      else ret (respond 405 "Method not allowed")
    else
      storage <-
        query (GetStorageById storageId) (getStorageById services storageId) ;;
      match storage with
      | None => ret (respond 404 "Storage not found")
      | Some storage =>
          let client := createClient classes storage in
          construct storage ;;;
          match urlPathname services (url request) with
          | None => throw "TypeError: Invalid URL"
          | Some _ =>
              let baseUrl := ("/dav/" ++ idText storageId)%string in
              if String.eqb method "PROPFIND" then
                tryCatch
                  (result <-
                     withClientState client storageId
                       (invoke (ListObjects path) (listObjects client path)) ;;
                   ret (mkResponse 207 xmlHeaders
                          (PropfindXml (objects result) path baseUrl)))
                  "PROPFIND error:"
                  (ret (respond 500 "Internal Server Error"))
              else if String.eqb method "GET" || String.eqb method "HEAD"
              then
                tryCatch
                  (if endsWithSlash path || String.eqb path ""
                   then
                     result <-
                       withClientState client storageId
                         (invoke (ListObjects path)
                            (listObjects client path)) ;;
                     ret (mkResponse 200
                            [("Content-Type", "text/html; charset=utf-8")]
                            (IndexHtml path (objects result)))
                   else
                     response <-
                       withClientState client storageId
                         (invoke (GetObject path) (getObject client path)) ;;
                     let contentType :=
                       orElse (objectContentType response)
                         (getContentType path) in
                     let contentLength := objectContentLength response in
                     if String.eqb method "HEAD"
                     then ret (mkResponse 200
                                 (objectHeaders contentType contentLength)
                                 NoBody)
                     else ret (mkResponse 200
                                 (objectHeaders contentType contentLength)
                                 (Stream (objectBody response))))
                  "GET error:"
                  (ret (respond 404 "Not Found"))
              else ret (respond 405 "Method not allowed")
          end
      end.

(** The destination key of COPY and MOVE. *)
Definition destinationPath (storageId : option Z) (header : string)
  : BM string :=
  match urlPathname services header with
  | None => throw "TypeError: Invalid URL"
  | Some pathname =>
      ret (replaceFirst ("/dav/" ++ idText storageId ++ "/")%string
             pathname)
  end.

Definition action (request : Request) (params : Params) (env : Env)
  : BM Response :=
  let method := toUpperCase (method request) in
  if negb (sameString (WEBDAV_ENABLED env) "true")
  then ret (respond 403 "WebDAV is disabled")
  else if negb (validateWebdavAuth request env)
  then ret createUnauthorizedResponse
  else
    query InitDatabase (initDatabase services) ;;;
    let storageId := parseInt (orElse (storageIdParam params) "0") in
    let path := orElse (splat params) "" in
    if isZero storageId then ret (respond 403 "Cannot modify root")
    else
      storage <-
        query (GetStorageById storageId) (getStorageById services storageId) ;;
      match storage with
      | None => ret (respond 404 "Storage not found")
      | Some storage =>
          let client := createClient classes storage in
          construct storage ;;;
          if String.eqb method "PUT" then
            tryCatch
              (let contentType :=
                 orElse (contentTypeHeader request)
                   "application/octet-stream" in
               withClientState client storageId
                 (invoke (PutObject path (body request) contentType)
                    (putObject client path (body request) contentType)) ;;;
               ret (created 201))
              "PUT error:" (ret (respond 500 "Failed to upload file"))
          else if String.eqb method "DELETE" then
            tryCatch
              (withClientState client storageId
                 (invoke (DeleteObject path) (deleteObject client path)) ;;;
               ret (created 204))
              "DELETE error:" (ret (respond 500 "Failed to delete"))
          else if String.eqb method "MKCOL" then
            tryCatch
              (withClientState client storageId
                 (invoke (CreateFolder path) (createFolder client path)) ;;;
               ret (created 201))
              "MKCOL error:"
              (ret (respond 500 "Failed to create directory"))
          else if String.eqb method "COPY" then
            tryCatch
              (if negb (truthyOpt (destination request))
               then ret (respond 400 "Destination header required")
               else
                 destPath <-
                   destinationPath storageId
                     (orElse (destination request) "") ;;
                 withClientState client storageId
                   (invoke (CopyObject path destPath)
                      (copyObject client path destPath)) ;;;
                 ret (created 201))
              "COPY error:" (ret (respond 500 "Failed to copy"))
          else if String.eqb method "MOVE" then
            tryCatch
              (if negb (truthyOpt (destination request))
               then ret (respond 400 "Destination header required")
               else
                 destPath <-
                   destinationPath storageId
                     (orElse (destination request) "") ;;
                 match moveObject client with
                 | Some moveObject =>
                     withClientState client storageId
                       (invoke (MoveObject path destPath)
                          (moveObject path destPath)) ;;;
                     ret (created 201)
                 | None =>
                     withClientState client storageId
                       (invoke (CopyObject path destPath)
                          (copyObject client path destPath)) ;;;
                     withClientState client storageId
                       (invoke (DeleteObject path)
                          (deleteObject client path)) ;;;
                     ret (created 201)
                 end)
              "MOVE error:" (ret (respond 500 "Failed to move"))
          else ret (respond 405 "Method not allowed")
      end.

End Handlers.

(** A request is handled from a session without events. *)
Definition start : Session :=
  mkSession
    (mkClient (mkConfig None None None false None None None)
       (mkSaving None None None None) false false)
    [].

(** *** A scenario: one Google Drive backend whose adapter rejects every
    operation, behind the default credentials *)

Definition failing {A : Type} : Method A :=
  fun c => (Err "Google Drive request failed", c).

Definition failingClient (_ : Storage) : StorageClient :=
  mkStorageClient (fun _ => failing) (fun _ => failing)
    (fun _ _ _ => failing) (fun _ => failing) (fun _ => failing)
    (fun _ _ => failing) (Some (fun _ _ => failing))
    (Some Provider.getStateUpdates).

Definition sampleClasses : Classes :=
  mkClasses failingClient failingClient failingClient failingClient
    failingClient failingClient.

Definition sampleStorage : Storage :=
  mkStorage 3 "drive" "gdrive"
    (mkConfig (Some "id") (Some "secret") (Some "r0") false None None None)
    (mkSaving None None None None).

Definition sampleServices : Services :=
  mkServices (Ok tt) (Ok [sampleStorage])
    (fun i => Ok (match i with
                  | Some 3 => Some sampleStorage
                  | _ => None
                  end))
    (fun _ _ _ => Ok tt)
    (fun _ => Some "/dav/3/docs/a.txt").

Definition sampleEnv (enabled : option string) : Env :=
  mkEnv enabled None None None None.

Definition sampleRequest (method : string) (authorization : option string)
  : Request :=
  mkRequest method authorization None None
    "https://clist.example/dav/3/docs/a.txt" [].

Definition sampleParams : Params :=
  mkParams (Some "3") (Some "docs/a.txt").

(** "admin:changeme" *)
Definition defaultAuthorization : option string :=
  Some "Basic YWRtaW46Y2hhbmdlbWU=".

End WebDav.
(** ** WebDAV bridge: XML text *)

Module Xml.
Import JsString.

(** [s.replace(/c/g, r)] for a replacement text [r]. *)
Fixpoint replaceEach (c : ascii) (r : string) (s : string) : string :=
  match s with
  | EmptyString => EmptyString
  | String x t =>
      if Ascii.eqb x c then (r ++ replaceEach c r t)%string
      else String x (replaceEach c r t)
  end.

(** The double quote. *)
Definition quoteMark : ascii := "034"%char.

Definition escapeXml (str : string) : string :=
  replaceEach "'" "&apos;"
    (replaceEach quoteMark "&quot;"
       (replaceEach ">" "&gt;"
          (replaceEach "<" "&lt;"
             (replaceEach "&" "&amp;" str)))).

(** The text that stands for one character in escaped XML. *)
Definition entity (c : ascii) : string :=
  if Ascii.eqb c "&" then "&amp;"
  else if Ascii.eqb c "<" then "&lt;"
  else if Ascii.eqb c ">" then "&gt;"
  else if Ascii.eqb c quoteMark then "&quot;"
  else if Ascii.eqb c "'" then "&apos;"
  else String c EmptyString.

(** Escaping in one pass, character by character. *)
Fixpoint escapeChars (s : string) : string :=
  match s with
  | EmptyString => EmptyString
  | String c t => (entity c ++ escapeChars t)%string
  end.

(** A character that does not delimit markup or an attribute value. *)
Definition markupFree (c : ascii) : bool :=
  negb (Ascii.eqb c "<") && negb (Ascii.eqb c ">")
  && negb (Ascii.eqb c quoteMark) && negb (Ascii.eqb c "'").

End Xml.

(** ** Digest text *)

Module Hex.

(** A lower-case hexadecimal digit. *)
Definition isLowerHex (c : ascii) : bool :=
  let n := N_of_ascii c in
  ((48 <=? n) && (n <=? 57) || (97 <=? n) && (n <=? 102))%N.

End Hex.

(** ** Audit log: library and route *)

Module Audit.
Import JsString Json.
Local Open Scope Z_scope.

(** The headers the audit library reads from a request; a header that
    is not sent reads as [None]. *)
Record Headers : Type := mkHeaders {
  cfConnectingIp : option string;   (* CF-Connecting-IP *)
  xForwardedFor : option string;    (* X-Forwarded-For *)
  xRealIp : option string;          (* X-Real-IP *)
  userAgentHeader : option string   (* User-Agent *)
}.

Definition pickClientIp (request : Headers) : option string :=
  let cfIp := cfConnectingIp request in
  if truthyOpt cfIp then cfIp
  else
    let xff := xForwardedFor request in
    if truthyOpt xff then
      let first := trim (hd "" (split "," (orElse xff ""))) in
      if truthy first then Some first else None
    else
      let realIp := xRealIp request in
      if truthyOpt realIp then realIp else None.

Definition getRequestMeta (request : Headers)
  : option string * option string :=
  (pickClientIp request, userAgentHeader request).

(** The [detail] of an audit entry: absent, a text or a record. *)
Inductive Detail : Type :=
| Undefined
| Null
| Text (s : wstring)
| Record_ (members : list (wstring * value)).

(** [s.length > 2000 ? s.slice(0, 2000) : s] *)
Definition clip (s : wstring) : wstring :=
  if Nat.ltb 2000 (List.length s) then firstn 2000 s else s.

(** [normalizeDetail].  A record of JSON values always serializes, so
    the [catch] branch is not reached. *)
Definition normalizeDetail (detail : Detail) : option wstring :=
  match detail with
  | Undefined | Null => None
  | Text s => Some (clip s)
  | Record_ members => Some (clip (stringify (Obj members)))
  end.

(** The text a detail is stored from. *)
Definition detailText (detail : Detail) : option wstring :=
  match detail with
  | Undefined | Null => None
  | Text s => Some s
  | Record_ members => Some (stringify (Obj members))
  end.

(** An integral number or NaN. *)
Inductive Number : Type :=
| NaN
| Int (z : Z).

Definition isNaN (n : Number) : bool :=
  match n with NaN => true | Int _ => false end.

(** [parseInt(s, 10)] as a number. *)
Definition parseNumber (s : string) : Number :=
  match parseInt s with
  | Some z => Int z
  | None => NaN
  end.

(** [Math.min(n, m)] for an integral [m]. *)
Definition mathMin (n : Number) (m : Z) : Number :=
  match n with
  | NaN => NaN
  | Int z => Int (Z.min z m)
  end.

(** The filter of [getAuditLogs]; a property that is not given is
    [None]. *)
Record Filter : Type := mkFilter {
  limit : option Number;
  offset : option Number;
  action : option string;
  storageId : option Number;
  userType : option string
}.

Inductive Binding : Type :=
| BindText (s : string)
| BindNumber (n : Number).

Definition selectText : string :=
  "SELECT id, action, storage_id as storageId, path, user_type as userType, ip, user_agent as userAgent, detail, created_at as createdAt
               FROM audit_logs WHERE 1=1".

(** The statement [getAuditLogs] prepares and the values it binds. *)
Definition auditQuery (f : Filter) : string * list Binding :=
  let limit := match limit f with Some n => n | None => Int 200 end in
  let offset := match offset f with Some n => n | None => Int 0 end in
  let query := selectText in
  let bindings : list Binding := [] in
  let '(query, bindings) :=
    if truthyOpt (action f)
    then ((query ++ " AND action = ?")%string,
          bindings ++ [BindText (orElse (action f) "")])
    else (query, bindings) in
  let '(query, bindings) :=
    match storageId f with
    | Some (Int z) =>
        ((query ++ " AND storage_id = ?")%string,
         bindings ++ [BindNumber (Int z)])
    | _ => (query, bindings)
    end in
  let '(query, bindings) :=
    if truthyOpt (userType f)
    then ((query ++ " AND user_type = ?")%string,
          bindings ++ [BindText (orElse (userType f) "")])
    else (query, bindings) in
  ((query ++ " ORDER BY id DESC LIMIT ? OFFSET ?")%string,
   bindings ++ [BindNumber limit; BindNumber offset]).

(** The number of placeholders of a statement. *)
Fixpoint placeholders (query : string) : nat :=
  match query with
  | EmptyString => O
  | String c t => if Ascii.eqb c "?" then S (placeholders t)
                  else placeholders t
  end.

Section Route.
(** A row of the audit table. *)
Variable Row : Type.

(** The database and the authentication library, as the route uses
    them. *)
Record Services : Type := mkServices {
  initDatabase : result unit;
  (** [isAdmin] of [requireAuth(request, db, "admin")] *)
  requireAuth : result bool;
  (** [db.prepare(query).bind(...bindings).all()]: its [results] *)
  all : string -> list Binding -> result (option (list Row))
}.

Inductive Event : Type :=
| InitDatabase
| RequireAuth
| Queried (query : string) (bindings : list Binding).

Inductive Response : Type :=
| Unauthorized                 (* status 403, { error: "Unauthorized" } *)
| Logs (logs : list Row).      (* status 200, { logs } *)

Definition RM (A : Type) : Type := Async (list Event) A.

Definition call {A : Type} (e : Event) (answer : result A) : RM A :=
  fun trace => (answer, trace ++ [e]).

Variable services : Services.

Definition getAuditLogs (f : Filter) : RM (list Row) :=
  let '(query, bindings) := auditQuery f in
  results <- call (Queried query bindings) (all services query bindings) ;;
  ret (match results with Some rows => rows | None => [] end).

(** The loader of the audit route; [searchParams] is
    [url.searchParams.get]. *)
Definition loader (searchParams : string -> option string) : RM Response :=
  call InitDatabase (initDatabase services) ;;;
  isAdmin <- call RequireAuth (requireAuth services) ;;
  if negb isAdmin then ret Unauthorized
  else
    let limit :=
      mathMin (parseNumber (orElse (searchParams "limit") "200")) 500 in
    let offset := parseNumber (orElse (searchParams "offset") "0") in
    let action :=
      if truthyOpt (searchParams "action") then searchParams "action"
      else None in
    let storageIdParam := searchParams "storageId" in
    let storageId :=
      if truthyOpt storageIdParam
      then Some (parseNumber (orElse storageIdParam ""))
      else None in
    let userType :=
      if truthyOpt (searchParams "userType") then searchParams "userType"
      else None in
    logs <-
      getAuditLogs
        (mkFilter (Some (if isNaN limit then Int 200 else limit))
           (Some (if isNaN offset then Int 0 else offset))
           action
           (match storageId with
            | Some n => if isNaN n then None else Some n
            | None => None
            end)
           userType) ;;
    ret (Logs logs).

End Route.

Arguments mkServices {Row} initDatabase requireAuth all.
Arguments initDatabase {Row} s.
Arguments requireAuth {Row} s.
Arguments all {Row} s query bindings.
Arguments Unauthorized {Row}.
Arguments Logs {Row} logs.
Arguments getAuditLogs {Row} services f _.
Arguments loader {Row} services searchParams _.

(** The values bound to LIMIT and OFFSET: the last two. *)
Definition limitAndOffset (bindings : list Binding)
  : option (Binding * Binding) :=
  match rev bindings with
  | o :: l :: _ => Some (l, o)
  | _ => None
  end.

(** A query of the trace whose LIMIT is not an integer of at most 500
    or whose OFFSET is not an integer. *)
Definition unbounded (e : Event) : bool :=
  match e with
  | Queried _ bindings =>
      match limitAndOffset bindings with
      | Some (BindNumber (Int l), BindNumber (Int _)) => negb (l <=? 500)
      | _ => true
      end
  | _ => false
  end.

Definition isQueried (e : Event) : bool :=
  match e with Queried _ _ => true | _ => false end.

(** A scenario: an administrator asks for ten thousand rows of one
    storage. *)
Definition sampleParams (key : string) : option string :=
  if String.eqb key "limit" then Some "10000"
  else if String.eqb key "storageId" then Some "3"
  else None.

Definition sampleServices : Services unit :=
  mkServices (Ok tt) (Ok true) (fun _ _ => Ok (Some [tt; tt])).

End Audit.

(** ** WebDAV bridge: variations of a request and of the services *)

Module Bridge.
Import JsString Provider Drive WebDav.

(** The same request with another method. *)
Definition withMethod (m : string) (request : Request) : Request :=
  mkRequest m (authorization request) (contentTypeHeader request)
    (destination request) (url request) (body request).

(** The same services with another [updateStorage]. *)
Definition withUpdateStorage
  (update : nat -> option Z -> UpdateInput -> result unit)
  (services : Services) : Services :=
  mkServices (initDatabase services) (getAllStorages services)
    (getStorageById services) update (urlPathname services).

Definition isDelete (e : Event) : bool :=
  match e with Invoked (DeleteObject _) _ => true | _ => false end.

(** A copy that the adapter carried out. *)
Definition isCopied (e : Event) : bool :=
  match e with Invoked (CopyObject _ _) true => true | _ => false end.

(** A client without [moveObject] whose operations resolve, over the
    store of [WebDav.sampleServices]. *)
Definition resolving {A : Type} (a : A) : Method A := fun c => (Ok a, c).

Definition copyingClient (_ : Storage) : StorageClient :=
  mkStorageClient
    (fun _ => resolving (mkListObjectsResult [] [] false None))
    (fun _ => resolving (mkObjectResponse None None []))
    (fun _ _ _ => resolving tt) (fun _ => resolving tt)
    (fun _ => resolving tt) (fun _ _ => resolving tt) None None.

Definition copyingClasses : Classes :=
  mkClasses copyingClient copyingClient copyingClient copyingClient
    copyingClient copyingClient.

Definition moveRequest : Request :=
  mkRequest "MOVE" defaultAuthorization None
    (Some "https://clist.example/dav/3/docs/b.txt")
    "https://clist.example/dav/3/docs/a.txt" [].

End Bridge.

(** ** Upload tokens: what [decodeUploadState] reads *)

Module Token.
Import JsString UploadState.

(** A character that is neither of the two base64 alphabets, nor the
    padding character, nor ASCII white space. *)
Definition foreign (c : ascii) : bool :=
  negb (urlSafeChar c) && negb (Ascii.eqb c "+") && negb (Ascii.eqb c "/")
  && negb (Ascii.eqb c "=") && negb (Base64.isAsciiWhitespace c).

End Token.

(** ** Aliyun Drive: resolving a path to a file id *)

Module AliyunFiles.
Import JsString DriveUtils Aliyun.

Section Resolve.
(** The state of the adapter and of the network. *)
Variable S : Type.
(** [listFiles(parentId)]: all the pages of a folder. *)
Variable listFiles : string -> Async S (list AliyunFile).
(** [config.root_folder_id] *)
Variable root_folder_id : option string.

Definition getRootId : string := orElse root_folder_id "root".

(** The loop of [findFileIdByPath] over the parts still to resolve. *)
Fixpoint resolveParts (parts : list string) (currentId : string)
  : Async S (option string) :=
  match parts with
  | [] => ret (Some currentId)
  | part :: rest =>
      list <- listFiles currentId ;;
      match find (fun f => String.eqb (name f) part) list with
      | None => ret None
      | Some found => resolveParts rest (file_id found)
      end
  end.

Definition findFileIdByPath (path : string) : Async S (option string) :=
  let normalized := stripLeadingSlash path in
  if negb (truthy normalized) then ret (Some getRootId)
  else resolveParts (filter truthy (split "/" normalized)) getRootId.

End Resolve.

Arguments getRootId root_folder_id : clear implicits.
Arguments resolveParts {S} listFiles parts currentId _.
Arguments findFileIdByPath {S} listFiles root_folder_id path _.

(** The parts of a path that are not empty. *)
Definition segments (path : string) : list string :=
  filter truthy (split "/" path).

(** A scenario: a drive with the folder "docs" and the file "a.txt" in
    it; the state counts the listings. *)
Definition sampleList (parentId : string) : Async nat (list AliyunFile) :=
  fun n =>
    (Ok (if String.eqb parentId "root"
         then [mkAliyunFile "f1" "docs" "folder" None None]
         else if String.eqb parentId "f1"
         then [mkAliyunFile "f2" "a.txt" "file" (Some 3%Z) None]
         else []),
     S n).

End AliyunFiles.

(** ** Google Drive and OneDrive: resumable uploads

    [uploadPart] and the loop of [putObject] that feeds it are the same
    in the two adapters, up to the status that stands for "more parts
    expected" and the text of the error. *)

Module Resumable.
Import JsString Provider.
Local Open Scope Z_scope.

(** What [uploadPart] reads from a token. *)
Record UploadSession : Type := mkUploadSession {
  uploadUrl : string;
  chunkSize : Z;
  fileSize : Z
}.

(** The PUT request of a part. *)
Record PartRequest : Type := mkPartRequest {
  target : string;
  contentLength : string;    (* Content-Length *)
  contentRange : string;     (* Content-Range *)
  content : list Byte.byte
}.

Record PartReply : Type := mkPartReply {
  status : Z;
  etagHeader : option string   (* ETag *)
}.

(** The upload endpoint: the replies still to come and the requests
    sent, oldest first. *)
Record Net : Type := mkNet {
  replies : list PartReply;
  sent : list PartRequest
}.

Definition UM (A : Type) : Type := Async Net A.

Definition fetchPart (rq : PartRequest) : UM PartReply :=
  fun w =>
    match replies w with
    | [] => (Err "fetch failed", mkNet [] (sent w ++ [rq]))
    | r :: rest => (Ok r, mkNet rest (sent w ++ [rq]))
    end.

(** [response.ok] *)
Definition replyOk (r : PartReply) : bool :=
  (200 <=? status r) && (status r <=? 299).

(** The index of an [ArrayBuffer.prototype.slice] bound. *)
Definition clampIndex (len i : Z) : Z :=
  if i <? 0 then Z.max (len + i) 0 else Z.min i len.

(** [data.slice(begin, end)] on an ArrayBuffer. *)
Definition sliceBuffer (data : list Byte.byte) (first final : Z)
  : list Byte.byte :=
  let len := Z.of_nat (List.length data) in
  let first := clampIndex len first in
  let final := clampIndex len final in
  firstn (Z.to_nat (Z.max (final - first) 0)) (skipn (Z.to_nat first) data).

(** [s.replace(/c/g, "")] *)
Fixpoint removeChar (c : ascii) (s : string) : string :=
  match s with
  | EmptyString => EmptyString
  | String x t => if Ascii.eqb x c then removeChar c t
                  else String x (removeChar c t)
  end.

Section Upload.
(** The status, besides the 2xx ones, that the provider answers a part
    with: 308 (Google Drive) or 202 (OneDrive). *)
Variable accepted : Z.
(** The error of a part that is refused. *)
Variable failure : string.
(** [decodeUploadState(uploadId)], with the fields [uploadUrl],
    [chunkSize] and [fileSize] of the state read as a text and two
    integral numbers. *)
Variable readState : string -> result UploadSession.

Definition uploadPart (uploadId : string) (partNumber : Z)
  (body : list Byte.byte) (contentLength : option Z) : UM string :=
  match readState uploadId with
  | Err e => throw e
  | Ok state =>
      let length :=
        if truthyNum contentLength
        then match contentLength with Some n => n | None => 0 end
        else Z.of_nat (List.length body) in
      let start := (partNumber - 1) * chunkSize state in
      let stop := start + length - 1 in
      response <-
        fetchPart
          (mkPartRequest (uploadUrl state) (numberToString length)
             ("bytes " ++ numberToString start ++ "-" ++ numberToString stop
              ++ "/" ++ numberToString (fileSize state))%string
             body) ;;
      if negb (replyOk response) && negb (status response =? accepted)
      then throw failure
      else
        ret (orElse
               (match etagHeader response with
                | Some e => Some (removeChar "034" e)
                | None => None
                end)
               (numberToString partNumber))
  end.

(** The loop of [putObject].  [fuel] bounds the iterations: with a
    positive chunk size the loop ends within [totalSize] of them; with
    another chunk size the loop of the source does not end, which is
    the error here. *)
Fixpoint uploadParts (fuel : nat) (uploadId : string)
  (data : list Byte.byte) (chunkSize totalSize offset partNumber : Z)
  : UM unit :=
  match fuel with
  | O => if offset <? totalSize then throw "the loop does not end"
         else ret tt
  | S fuel' =>
      if offset <? totalSize then
        let stop := Z.min (offset + chunkSize) totalSize in
        let chunk := sliceBuffer data offset stop in
        uploadPart uploadId partNumber chunk
          (Some (Z.of_nat (List.length chunk))) ;;;
        uploadParts fuel' uploadId data chunkSize totalSize stop
          (partNumber + 1)
      else ret tt
  end.

(** [putObject] on a body above the single-request limit, once
    [initiateMultipartUpload] has returned [uploadId]. *)
Definition putObjectParts (uploadId : string) (data : list Byte.byte)
  : UM unit :=
  match readState uploadId with
  | Err e => throw e
  | Ok state =>
      uploadParts (List.length data) uploadId data (chunkSize state)
        (Z.of_nat (List.length data)) 0 1
  end.

(** A reply that lets the upload go on. *)
Definition goesOn (r : PartReply) : bool :=
  replyOk r || (status r =? accepted).

End Upload.

(** The request [putObject] sends for part [i], counted from 0, of
    [data] in the session [state]. *)
Definition partRequestAt (state : UploadSession) (data : list Byte.byte)
  (i : nat) : PartRequest :=
  let total := Z.of_nat (List.length data) in
  let start := Z.of_nat i * chunkSize state in
  let stop := Z.min (start + chunkSize state) total in
  mkPartRequest (uploadUrl state) (numberToString (stop - start))
    ("bytes " ++ numberToString start ++ "-" ++ numberToString (stop - 1)
     ++ "/" ++ numberToString (fileSize state))%string
    (sliceBuffer data start stop).

(** The number of parts of [total] bytes in chunks of [chunk]. *)
Definition partCount (chunk total : Z) : nat :=
  Z.to_nat ((total + chunk - 1) / chunk).

(** A scenario: seven bytes in chunks of three. *)
Definition sampleSession : UploadSession :=
  mkUploadSession "https://upload.example/session/1" 3 7.

Definition sampleReadState (uploadId : string) : result UploadSession :=
  if String.eqb uploadId "t1" then Ok sampleSession
  else Err "SyntaxError".

Definition sampleBody : list Byte.byte :=
  [Byte.x01; Byte.x02; Byte.x03; Byte.x04; Byte.x05; Byte.x06; Byte.x07].

Definition sampleNet : Net :=
  mkNet [mkPartReply 308 None; mkPartReply 308 None;
         mkPartReply 200 (Some "etag")] [].

End Resumable.

(** ** Storage statistics *)

Module Stats.
Import JsString Drive.
Local Open Scope Z_scope.

(** The count and the size of the files of one type. *)
Record TypeStats : Type := mkTypeStats {
  count : Z;
  typeSize : Z      (* [size] *)
}.

(** [typeDistribution] holds its own properties in the order in which
    they were created. *)
Record StorageStats : Type := mkStorageStats {
  totalSize : Z;
  fileCount : Z;
  folderCount : Z;
  typeDistribution : list (string * TypeStats)
}.

Definition hasOwn (ext : string) (dist : list (string * TypeStats)) : bool :=
  existsb (fun p => String.eqb (fst p) ext) dist.

Section Collect.
(** [getFileExtension(name).toLowerCase()] of the file library. *)
Variable lowerExtension : string -> string.
(** The names under which a record without own properties finds a
    truthy value on its prototype. *)
Variable inherited : string -> bool.
(** The state of the adapter and of the network. *)
Variable W : Type.
(** [client.listObjects(prefix, "/", 1000, continuationToken)] *)
Variable listObjects :
  string -> option string -> Async W ListObjectsResult.

(** The three statements on [stats.typeDistribution[ext]]: a record is
    created unless a truthy value is found, own or inherited, and the
    value found is counted up.  Counting up an inherited value leaves
    the distribution as it is. *)
Definition countType (ext : string) (size : Z)
  (dist : list (string * TypeStats)) : list (string * TypeStats) :=
  if hasOwn ext dist then
    map (fun p =>
           if String.eqb (fst p) ext
           then (fst p, mkTypeStats (count (snd p) + 1)
                          (typeSize (snd p) + size))
           else p) dist
  else if inherited ext then dist
  else dist ++ [(ext, mkTypeStats (0 + 1) (0 + size))].

(** The body of the loop over the objects of a page. *)
Definition countObject (stats : StorageStats) (obj : DriveObject)
  : StorageStats :=
  if negb (isDirectory obj) then
    let ext :=
      if truthy (lowerExtension (name obj)) then lowerExtension (name obj)
      else "no-extension" in
    mkStorageStats (totalSize stats + size obj) (fileCount stats + 1)
      (folderCount stats) (countType ext (size obj) (typeDistribution stats))
  else stats.

(** The two loops over a page: its objects are counted, its prefixes
    are counted and queued. *)
Definition countPage (result : ListObjectsResult)
  (acc : StorageStats * list string) : StorageStats * list string :=
  let stats := fold_left countObject (objects result) (fst acc) in
  (mkStorageStats (totalSize stats) (fileCount stats)
     (folderCount stats + Z.of_nat (List.length (prefixes result)))
     (typeDistribution stats),
   snd acc ++ prefixes result).

(** The loop over the further pages of a prefix.  [fuel] bounds the
    number of listings. *)
Fixpoint morePages (fuel : nat) (currentPrefix : string)
  (continuationToken : option string) (acc : StorageStats * list string)
  : Async W (StorageStats * list string) :=
  if truthyOpt continuationToken then
    match fuel with
    | O => throw "out of fuel"
    | S fuel' =>
        nextResult <- listObjects currentPrefix continuationToken ;;
        morePages fuel' currentPrefix
          (if isTruncated nextResult then nextContinuationToken nextResult
           else None)
          (countPage nextResult acc)
    end
  else ret acc.

(** The loop over the queue.  An error of a listing is logged and
    thrown again. *)
Fixpoint visit (fuel : nat) (queue visited : list string)
  (stats : StorageStats) : Async W StorageStats :=
  match queue with
  | [] => ret stats
  | currentPrefix :: queue =>
      match fuel with
      | O => throw "out of fuel"
      | S fuel' =>
          if existsb (String.eqb currentPrefix) visited
          then visit fuel' queue visited stats
          else
            result <- listObjects currentPrefix None ;;
            acc <-
              (let acc := countPage result (stats, queue) in
               if isTruncated result
                  && truthyOpt (nextContinuationToken result)
               then morePages fuel' currentPrefix
                      (nextContinuationToken result) acc
               else ret acc) ;;
            visit fuel' (snd acc) (currentPrefix :: visited) (fst acc)
      end
  end.

Definition collectStats (fuel : nat) (prefix : string)
  : Async W StorageStats :=
  visit fuel [prefix] [] (mkStorageStats 0 0 0 []).

End Collect.

Arguments morePages lowerExtension inherited {W} listObjects fuel
  currentPrefix continuationToken acc _.
Arguments visit lowerExtension inherited {W} listObjects fuel queue visited
  stats _.
Arguments collectStats lowerExtension inherited {W} listObjects fuel prefix _.

(** The files and the bytes a distribution accounts for. *)
Definition countedFiles (dist : list (string * TypeStats)) : Z :=
  fold_right (fun p n => count (snd p) + n) 0 dist.

Definition countedBytes (dist : list (string * TypeStats)) : Z :=
  fold_right (fun p n => typeSize (snd p) + n) 0 dist.

(** The distribution has one record per type, each for at least one
    file, and accounts for no more files than were counted. *)
Definition wellKept (stats : StorageStats) : Prop :=
  NoDup (map fst (typeDistribution stats))
  /\ Forall (fun p => 1 <= count (snd p)) (typeDistribution stats)
  /\ countedFiles (typeDistribution stats) <= fileCount stats.

(** The distribution accounts for every file and every byte. *)
Definition balanced (stats : StorageStats) : Prop :=
  countedFiles (typeDistribution stats) = fileCount stats
  /\ countedBytes (typeDistribution stats) = totalSize stats.

(** What every step of the collection keeps. *)
Definition kept (inherited : string -> bool) (stats : StorageStats) : Prop :=
  wellKept stats /\ ((forall e, inherited e = false) -> balanced stats).

(** Counting a file of the type [ext] up in a record of the
    distribution. *)
Definition countUp (ext : string) (size : Z) (p : string * TypeStats)
  : string * TypeStats :=
  if String.eqb (fst p) ext
  then (fst p, mkTypeStats (count (snd p) + 1) (typeSize (snd p) + size))
  else p.

(** *** A scenario: a folder with two text files and a subfolder that
    holds an archive, listed in pages of two entries *)

Definition sampleExtension (fileName : string) : string :=
  List.last (split "." fileName) "".

Definition file (key : string) (fileName : string) (bytes : Z)
  : DriveObject :=
  mkDriveObject key fileName bytes "" false None.

Definition folder (key : string) (folderName : string) : DriveObject :=
  mkDriveObject key folderName 0 "" true None.

Definition sampleListObjects (prefix : string) (token : option string)
  : Async nat ListObjectsResult :=
  fun calls =>
    (Ok (if String.eqb prefix "" then
           match token with
           | None =>
               mkListObjectsResult
                 [folder "sub/" "sub"; file "a.txt" "a.txt" 10]
                 ["sub/"] true (Some "page2")
           | Some _ =>
               mkListObjectsResult [file "b.txt" "b.txt" 5] [] false None
           end
         else if String.eqb prefix "sub/" then
           mkListObjectsResult [file "sub/c.zip" "c.zip" 100] [] false None
         else mkListObjectsResult [] [] false None),
     S calls).

End Stats.

(** ** Upload states of one-byte text *)

Module ByteState.
Import Json.
Local Open Scope N_scope.

(** Every key and every text of the value is made of code units below
    256, as URLs and header values are. *)
Fixpoint latin1Value (v : value) : Prop :=
  match v with
  | Null | Bool _ | Num _ => True
  | Str s => Forall (fun u => u < 256) s
  | Arr items =>
      (fix all (l : list value) : Prop :=
         match l with
         | [] => True
         | x :: l' => latin1Value x /\ all l'
         end) items
  | Obj members =>
      (fix all (l : list (wstring * value)) : Prop :=
         match l with
         | [] => True
         | m :: l' =>
             Forall (fun u => u < 256) (fst m) /\ latin1Value (snd m)
             /\ all l'
         end) members
  end.

(** The state of a Google Drive upload session whose URL holds a
    character above 127. *)
Definition sampleState : list (wstring * value) :=
  [(units "provider", Str (units "gdrive"));
   (units "uploadUrl", Str (units "https://upload.example/r" ++ [233; 115]));
   (units "chunkSize", Num 5242880);
   (units "fileSize", Num 7340032)].

End ByteState.

(** ** Baidu: the entries of file-manager requests *)

Module BaiduEntries.
Import JsString DriveUtils Provider Baidu.
Local Open Scope Z_scope.

(** [s.lastIndexOf(c)], -1 when [c] does not occur. *)
Fixpoint lastIndexOf (c : ascii) (s : string) : Z :=
  match s with
  | EmptyString => -1
  | String x t =>
      let r := lastIndexOf c t in
      if 0 <=? r then r + 1
      else if Ascii.eqb x c then 0
      else -1
  end.

(** [s.substring(0, n)] *)
Fixpoint substring0 (n : Z) (s : string) : string :=
  match s with
  | EmptyString => EmptyString
  | String x t => if n <=? 0 then EmptyString
                  else String x (substring0 (n - 1) t)
  end.

(** [s.split("/").pop() || ""] *)
Definition lastSegment (s : string) : string :=
  orElse (Some (List.last (split "/" s) "")) "".

(** An entry of [filelist]: [path], [dest] and [newname]. *)
Record Entry : Type := mkEntry {
  entryPath : string;
  dest : string;
  newname : string
}.

(** The entry [renameObject] sends. *)
Definition renameEntry (c : Client) (path newName : string) : Entry :=
  let sourcePath := resolvePath c path in
  let destDir :=
    substring0 (lastIndexOf "/" sourcePath) sourcePath in
  mkEntry sourcePath destDir newName.

(** The entry [moveObject] sends. *)
Definition moveEntry (c : Client) (path destPath : string) : Entry :=
  let sourcePath := resolvePath c path in
  let destDir := resolvePath c destPath in
  let fileName := lastSegment sourcePath in
  mkEntry sourcePath destDir fileName.

End BaiduEntries.

(** * Properties *)

(** ** Path helpers *)

Module DriveUtilsFacts.
Import JsString DriveUtils.

Lemma sliceInit_length (s : string) :
  String.length (sliceInit s) = Nat.pred (String.length s).
Proof.
  induction s as [|c t IH]; [reflexivity|].
  destruct t as [|d u]; [reflexivity|].
  change (sliceInit (String c (String d u)))
    with (String c (sliceInit (String d u))).
  cbn [String.length]. rewrite IH. reflexivity.
Qed.

Lemma stripLeadingSlash_length (p : string) :
  String.length p <= S (String.length (stripLeadingSlash p)).
Proof.
  unfold stripLeadingSlash.
  destruct p as [|c t]; cbn; [lia|].
  destruct (Ascii.eqb c "/"); cbn; lia.
Qed.

Lemma stripTrailingSlash_length (p : string) :
  String.length p <= S (String.length (stripTrailingSlash p)).
Proof.
  unfold stripTrailingSlash.
  destruct (Nat.leb (String.length p) 1); [lia|].
  destruct (endsWithSlash p); [|lia].
  rewrite sliceInit_length. lia.
Qed.

Lemma stripLeadingSlash_idem_iff (p : string) :
  stripLeadingSlash (stripLeadingSlash p) = stripLeadingSlash p
  <-> startsWithTwoSlashes p = false.
Proof.
  unfold stripLeadingSlash, startsWithTwoSlashes.
  destruct p as [|c t]; cbn; [tauto|].
  destruct (Ascii.eqb c "/") eqn:Hc; cbn.
  - destruct t as [|d u]; cbn; [tauto|].
    destruct (Ascii.eqb d "/") eqn:Hd; [|tauto].
    split; [|discriminate].
    intro H. apply (f_equal String.length) in H. cbn in H. lia.
  - rewrite Hc. tauto.
Qed.

Lemma stripTrailingSlash_idem_iff (p : string) :
  stripTrailingSlash (stripTrailingSlash p) = stripTrailingSlash p
  <-> (Nat.leb 3 (String.length p) && endsWithTwoSlashes p = false).
Proof.
  unfold stripTrailingSlash at 2 3.
  destruct (Nat.leb (String.length p) 1) eqn:Hlen.
  - unfold stripTrailingSlash. rewrite Hlen.
    apply Nat.leb_le in Hlen.
    destruct (Nat.leb 3 (String.length p)) eqn:H3;
      [apply Nat.leb_le in H3; lia | cbn; tauto].
  - pose proof Hlen as Hlt. apply Nat.leb_gt in Hlt.
    unfold endsWithTwoSlashes.
    destruct (endsWithSlash p) eqn:Hend.
    + unfold stripTrailingSlash.
      destruct (Nat.leb (String.length (sliceInit p)) 1) eqn:Hl2.
      * apply Nat.leb_le in Hl2. rewrite sliceInit_length in Hl2.
        destruct (Nat.leb 3 (String.length p)) eqn:H3;
          [apply Nat.leb_le in H3; lia | cbn; tauto].
      * apply Nat.leb_gt in Hl2. rewrite sliceInit_length in Hl2.
        assert (H3 : Nat.leb 3 (String.length p) = true)
          by (apply Nat.leb_le; lia).
        rewrite H3. cbn.
        destruct (endsWithSlash (sliceInit p)); [|tauto].
        split; [|discriminate].
        intro H. apply (f_equal String.length) in H.
        rewrite !sliceInit_length in H. lia.
    + unfold stripTrailingSlash. rewrite Hlen, Hend.
      rewrite andb_false_r. tauto.
Qed.

(** C5, as stated, fails: stripping is not idempotent on doubled
    separators, and [stripLeadingSlash] changes the length-1 path "/". *)
Lemma C5_strip_counterexample :
  stripLeadingSlash (stripLeadingSlash "//a") <> stripLeadingSlash "//a"
  /\ stripTrailingSlash (stripTrailingSlash "a//") <> stripTrailingSlash "a//"
  /\ String.length "/" = 1 /\ stripLeadingSlash "/" <> "/".
Proof. repeat split; cbv; discriminate. Qed.

(** C5 (amended): both helpers are total functions that drop at most one
    separator; [stripLeadingSlash] is idempotent exactly on the paths that
    do not begin with two separators and [stripTrailingSlash] exactly on
    those that are shorter than three characters or do not end with two;
    [stripTrailingSlash] leaves the empty path and every length-1 path
    unchanged, [stripLeadingSlash] leaves the empty path and every length-1
    path other than "/" unchanged and maps "/" to the empty path. *)
Theorem C5_strip_slash_laws :
  forall p : string,
    (String.length p <= S (String.length (stripLeadingSlash p))
     /\ String.length p <= S (String.length (stripTrailingSlash p)))
    /\ (stripLeadingSlash (stripLeadingSlash p) = stripLeadingSlash p
        <-> startsWithTwoSlashes p = false)
    /\ (stripTrailingSlash (stripTrailingSlash p) = stripTrailingSlash p
        <-> (Nat.leb 3 (String.length p) && endsWithTwoSlashes p = false))
    /\ (String.length p <= 1 -> stripTrailingSlash p = p)
    /\ (String.length p <= 1 -> p <> "/" -> stripLeadingSlash p = p)
    /\ stripLeadingSlash "/" = "".
Proof.
  intro p. split; [split|].
  - apply stripLeadingSlash_length.
  - apply stripTrailingSlash_length.
  - split; [apply stripLeadingSlash_idem_iff|].
    split; [apply stripTrailingSlash_idem_iff|].
    split; [|split; [|reflexivity]].
    + intro H. unfold stripTrailingSlash.
      apply Nat.leb_le in H. rewrite H. reflexivity.
    + intros H Hne. unfold stripLeadingSlash.
      destruct p as [|c [|d u]]; cbn in *; [reflexivity| |lia].
      destruct (Ascii.eqb c "/") eqn:Hc; [|reflexivity].
      apply Ascii.eqb_eq in Hc. subst c. contradiction.
Qed.

Lemma C5_strip_slash_laws_witness :
  stripTrailingSlash "/" = "/" /\ stripLeadingSlash "a" = "a".
Proof.
  split.
  - apply (proj1 (proj2 (proj2 (proj2 (C5_strip_slash_laws "/"))))).
    cbn. lia.
  - apply (proj1 (proj2 (proj2 (proj2 (proj2 (C5_strip_slash_laws "a")))))).
    + cbn. lia.
    + discriminate.
Defined.

End DriveUtilsFacts.

(** ** Digest primitive *)

Module MD5Facts.
Import MD5.

(** The reference values of RFC 1321 for the empty input and for "abc". *)
Example md5Hex_empty : md5Hex [] = "d41d8cd98f00b204e9800998ecf8427e".
Proof. vm_compute. reflexivity. Qed.

Example md5Hex_abc :
  md5Hex [Byte.x61; Byte.x62; Byte.x63] = "900150983cd24fb0d6963f7d28e17f72".
Proof. vm_compute. reflexivity. Qed.

End MD5Facts.

(** ** Baidu Yun: multipart lifecycle and upload *)

Module BaiduFacts.
Import JsString DriveUtils Provider Drive Baidu.
Local Open Scope Z_scope.

(** C3, as stated, fails: completing or aborting an upload resolves
    without doing anything. *)
Lemma C3_multipart_counterexample :
  completeMultipartUpload "a.bin" "upload-1" [(1, "etag")] = Ok tt
  /\ abortMultipartUpload "a.bin" "upload-1" = Ok tt.
Proof. split; reflexivity. Qed.

(** C3 (amended): on the Baidu Yun adapter [initiateMultipartUpload] and
    [uploadPart] fail with an unsupported-operation error for every input,
    while [completeMultipartUpload] and [abortMultipartUpload] resolve as
    no-ops for every input. *)
Theorem C3_multipart_lifecycle :
  (forall key contentType options,
      exists e, initiateMultipartUpload key contentType options = Err e)
  /\ (forall key uploadId partNumber body contentLength,
      exists e,
        uploadPart key uploadId partNumber body contentLength = Err e)
  /\ (forall key uploadId parts,
      completeMultipartUpload key uploadId parts = Ok tt)
  /\ (forall key uploadId, abortMultipartUpload key uploadId = Ok tt).
Proof.
  repeat split; intros; try reflexivity; eexists; reflexivity.
Qed.

(** *** Slice size *)

Lemma getSliceSize_bounds (c : Client) (n : Z) :
  4 * MiB <= getSliceSize c n <= 32 * MiB.
Proof.
  unfold getSliceSize, MiB.
  destruct (custom_upload_part_size (config c)) as [v|];
    destruct (vip_type (saving c)) as [t|]; cbn -[Z.mul Z.max Z.min];
    repeat match goal with
           | |- context [if ?b then _ else _] => destruct b
           end; lia.
Qed.

Lemma getSliceSize_pos (c : Client) (n : Z) : 0 < getSliceSize c n.
Proof. pose proof (getSliceSize_bounds c n). unfold MiB in *. lia. Qed.

(** *** The digest list *)

Lemma ceil_div_gt (i s n : Z) :
  0 < s -> (i * s < n <-> i < (n + s - 1) / s).
Proof.
  intro Hs.
  pose proof (Z.div_mod (n + s - 1) s ltac:(lia)) as Hdiv.
  pose proof (Z.mod_pos_bound (n + s - 1) s Hs) as Hmod.
  split; intro H; nia.
Qed.

Lemma blockListFrom_spec (data : list Byte.byte) (s n : Z) :
  0 < s ->
  forall (fuel : nat) (i : nat),
    (Z.to_nat ((n + s - 1) / s) <= i + fuel)%nat ->
    blockListFrom fuel data (Z.of_nat i * s) s n
    = map (fun j => MD5.md5Hex (sliceAt data s n (Z.of_nat j)))
        (seq i (Z.to_nat ((n + s - 1) / s) - i)).
Proof.
  intros Hs fuel.
  induction fuel as [|fuel IH]; intros i Hfuel.
  - replace (Z.to_nat ((n + s - 1) / s) - i)%nat with 0%nat by lia.
    reflexivity.
  - cbn [blockListFrom].
    pose proof (ceil_div_gt (Z.of_nat i) s n Hs) as Hiff.
    destruct (Z.of_nat i * s <? n) eqn:Hlt.
    + apply Z.ltb_lt in Hlt. apply Hiff in Hlt.
      replace (Z.to_nat ((n + s - 1) / s) - i)%nat
        with (S (Z.to_nat ((n + s - 1) / s) - S i)) by lia.
      cbn [seq map]. f_equal.
      replace (Z.of_nat i * s + s) with (Z.of_nat (S i) * s) by lia.
      apply IH. lia.
    + apply Z.ltb_ge in Hlt.
      assert (Hk : ~ Z.of_nat i < (n + s - 1) / s) by (rewrite <- Hiff; lia).
      replace (Z.to_nat ((n + s - 1) / s) - i)%nat with 0%nat by lia.
      reflexivity.
Qed.

Lemma ceil_slices_le (n s : Z) :
  0 <= n -> 0 < s -> (n + s - 1) / s <= n.
Proof.
  intros Hn Hs.
  pose proof (ceil_div_gt n s n Hs) as Hiff.
  destruct (Z.le_gt_cases ((n + s - 1) / s) n) as [H|H]; [exact H|].
  apply Hiff in H. nia.
Qed.

Lemma blockList_spec (data : list Byte.byte) (s : Z) :
  0 < s ->
  blockListFrom (List.length data) data 0 s (Z.of_nat (List.length data))
  = map (fun j =>
           MD5.md5Hex
             (sliceAt data s (Z.of_nat (List.length data)) (Z.of_nat j)))
      (seq 0 (Z.to_nat ((Z.of_nat (List.length data) + s - 1) / s))).
Proof.
  intros Hs. set (n := Z.of_nat (List.length data)).
  pose proof (blockListFrom_spec data s n Hs (List.length data) 0) as H.
  cbn [Z.of_nat Z.mul] in H. rewrite Nat.sub_0_r in H. apply H.
  pose proof (ceil_slices_le n s ltac:(lia) Hs). lia.
Qed.

(** *** The slice loop *)

Lemma uploadSlices_ok (path uid : string) (data : list Byte.byte) (s n : Z) :
  forall (remaining p : nat) (w : BWorld),
    (remaining <= List.length (replies w))%nat ->
    forallb sliceReplyOk (firstn remaining (replies w)) = true ->
    uploadSlices remaining path uid data s n (Z.of_nat p) w
    = (Ok tt,
       mkWorld (client w) (now w) (tokenReplies w)
         (skipn remaining (replies w))
         (calls w
          ++ sliceCalls path uid data s n
               (orElse (access_token (saving (client w))) "") p remaining)).
Proof.
  induction remaining as [|remaining IH]; intros p w Hlen Hok.
  - destruct w. cbn. unfold sliceCalls. cbn. rewrite app_nil_r. reflexivity.
  - destruct w as [c t tr rs cs]. cbn [replies] in Hlen, Hok.
    destruct rs as [|r rs]; [cbn in Hlen; lia|].
    cbn [firstn forallb] in Hok. apply andb_prop in Hok as [Hr Hrest].
    cbn [uploadSlices]. unfold bind at 1.
    assert (Hstep :
      uploadSlice path uid data s n (Z.of_nat p) (mkWorld c t tr (r :: rs) cs)
      = (Ok tt,
         mkWorld c t tr rs
           (cs ++ [Fetch (sliceRequest path uid (Z.of_nat p)
                            (sliceAt data s n (Z.of_nat p)))
                     (orElse (access_token (saving c)) "")]))).
    { unfold uploadSlice, bind, getClient, fetchApi, record, setReplies.
      cbn [client now tokenReplies replies calls].
      unfold sliceReplyOk in Hr. unfold sliceAt.
      destruct (json r) as [d|]; [|discriminate].
      destruct (errno d) as [[| |]|]; destruct (error_code d) as [[| |]|];
        try discriminate; reflexivity. }
    rewrite Hstep.
    replace (Z.of_nat p + 1) with (Z.of_nat (S p)) by lia.
    rewrite IH; cbn [replies client now tokenReplies calls skipn].
    + unfold sliceCalls. cbn [seq map]. rewrite <- app_assoc. reflexivity.
    + cbn in Hlen. lia.
    + exact Hrest.
Qed.

Lemma slice_from_zero (data : list Byte.byte) (m : Z) :
  slice data 0 m = firstn (Z.to_nat m) data.
Proof. unfold slice. rewrite Z.sub_0_r. reflexivity. Qed.



End BaiduFacts.

(** ** Retry on an expired token *)

Module RetryFacts.
Import JsString Provider.
Local Open Scope Z_scope.

Lemma refreshCount_app {R : Type} (a b : list (Call R)) :
  refreshCount (a ++ b) = (refreshCount a + refreshCount b)%nat.
Proof. unfold refreshCount. rewrite filter_app, length_app. reflexivity. Qed.

Lemma fetchCount_app {R : Type} (a b : list (Call R)) :
  fetchCount (a ++ b) = (fetchCount a + fetchCount b)%nat.
Proof. unfold fetchCount. rewrite filter_app, length_app. reflexivity. Qed.

Lemma forallb_pointwise {A : Type} (f g : A -> bool) (l : list A) :
  (forall a, f a = g a) -> forallb f l = forallb g l.
Proof.
  intro H. induction l as [|a l IH]; [reflexivity|].
  cbn. rewrite H, IH. reflexivity.
Qed.

Lemma truthyOpt_orElse (o : option string) (d : string) :
  truthyOpt o = true -> exists s, o = Some s /\ orElse o d = s /\ truthy s = true.
Proof.
  destruct o as [s|]; cbn; [|discriminate].
  intro H. exists s. unfold orElse. rewrite H. auto.
Qed.

(** Rewrites the goal with the boolean facts at hand. *)
Ltac rew_bools :=
  repeat match goal with
         | H : negb ?b = true |- _ => apply negb_true_iff in H
         | H : ?b = true |- context [?b] => rewrite H
         | H : ?b = false |- context [?b] => rewrite H
         | H : ?x = Some _ |- context [?x] => rewrite H
         | H : ?x = _ :: _ |- context [?x] => rewrite H
         end.

Ltac split_ands H :=
  repeat match type of H with
         | (_ && _) = true =>
             let H' := fresh "Hb" in apply andb_prop in H as [H H']
         end.

Section Google.
Import GoogleDrive.
Variable D : Type.
Let W : Type := World D Request.

Lemma google_ensure_ready (w : W) :
  ready (client w) (now w) = true -> ensureToken w = (Ok tt, w).
Proof.
  unfold ready, ensureToken, bind, getClient, dateNow. intro H.
  split_ands H. rew_bools. reflexivity.
Qed.

Lemma google_refresh_grants (w : W) (r : Reply TokenData)
  (rest : list (Reply TokenData)) :
  ready (client w) (now w) = true ->
  tokenReplies w = r :: rest ->
  grants (now w) r = true ->
  refreshToken w
  = (Ok tt,
     mkWorld (refreshed (now w) r (client w)) (now w) rest (replies w)
       (calls w ++ [Refresh false])).
Proof.
  unfold ready, grants, refreshed. intros Hready Htok Hgr.
  split_ands Hready.
  apply andb_prop in Hgr as [Hok Hgr].
  destruct (json r) as [d|] eqn:Hjson; [|discriminate].
  split_ands Hgr.
  unfold refreshToken, bind, getClient, fetchToken, record, dateNow,
    modifyClient.
  cbn [client now tokenReplies replies calls].
  repeat (rew_bools; cbn [negb orb andb]).
  reflexivity.
Qed.

Lemma google_ready_refreshed (c : Client) (now : Z) (r : Reply TokenData) :
  ready c now = true -> grants now r = true ->
  ready (refreshed now r c) now = true.
Proof.
  unfold ready, grants, refreshed. intros Hready Hgr.
  split_ands Hready.
  apply andb_prop in Hgr as [Hok Hgr].
  destruct (json r) as [d|]; [|discriminate].
  split_ands Hgr.
  unfold storeTokens, isTokenExpired.
  destruct (truthyOpt (td_refresh_token d)) eqn:Hrt;
    cbn -[expiry Z.mul Z.sub Z.leb Z.eqb];
    repeat (rew_bools; cbn -[expiry Z.mul Z.sub Z.leb Z.eqb]);
    reflexivity.
Qed.

Lemma google_request_retries (rq : Request) :
  forall (expired : list (Reply D)) (w : W) (r : Reply D)
         (rest : list (Reply D)) (tokens trest : list (Reply TokenData)),
    ready (client w) (now w) = true ->
    replies w = expired ++ r :: rest ->
    Forall (fun x => status x = 401) expired ->
    status r <> 401 ->
    tokenReplies w = tokens ++ trest ->
    List.length tokens = List.length expired ->
    forallb (grants (now w)) tokens = true ->
    exists w' added,
      request rq w = (Ok r, w')
      /\ replies w' = rest /\ tokenReplies w' = trest
      /\ calls w' = calls w ++ added
      /\ refreshCount added = List.length expired
      /\ fetchCount added = S (List.length expired)
      /\ allFetch rq added.
Proof.
  unfold request.
  induction expired as [|x expired IH];
    intros w r rest tokens trest Hready Hrep H401 Hr Htok Hlen Hgr.
  - rewrite Hrep. cbn [app requestFrom].
    rewrite (google_ensure_ready w Hready).
    apply Z.eqb_neq in Hr. rewrite Hr.
    eexists. exists [Fetch rq (bearer (client w))].
    split; [reflexivity|].
    destruct tokens; [|discriminate].
    cbn. repeat split; auto.
    repeat constructor.
  - rewrite Hrep. cbn [app requestFrom].
    rewrite (google_ensure_ready w Hready).
    inversion H401 as [|? ? Hx H401']; subst.
    apply Z.eqb_eq in Hx. rewrite Hx.
    destruct tokens as [|t tokens]; [discriminate|].
    cbn [forallb] in Hgr. apply andb_prop in Hgr as [Hgt Hgr].
    set (w3 := setReplies (expired ++ r :: rest)
                 (record (Fetch rq (bearer (client w))) w)).
    rewrite (google_refresh_grants w3 t (tokens ++ trest));
      [|exact Hready | exact Htok | exact Hgt].
    set (w4 := mkWorld _ _ _ _ _).
    assert (Hready4 : ready (client w4) (now w4) = true)
      by (apply google_ready_refreshed; assumption).
    assert (Hlen4 : List.length tokens = List.length expired)
      by (cbn [List.length] in Hlen; lia).
    destruct (IH w4 r rest tokens trest Hready4 eq_refl H401' Hr eq_refl
                Hlen4 Hgr)
      as (w' & added & Hreq & H1 & H2 & H3 & H4 & H5 & H6).
    exists w', (Fetch rq (bearer (client w)) :: Refresh false :: added).
    {
      split; [exact Hreq|].
      repeat split; auto.
      * rewrite H3. subst w4 w3. cbn. rewrite <- !app_assoc. reflexivity.
      * change (Fetch rq (bearer (client w)) :: Refresh false :: added)
          with ([Fetch rq (bearer (client w)); Refresh false] ++ added).
        rewrite refreshCount_app, H4. reflexivity.
      * change (Fetch rq (bearer (client w)) :: Refresh false :: added)
          with ([Fetch rq (bearer (client w)); Refresh false] ++ added).
        rewrite fetchCount_app, H5. reflexivity.
      * constructor; [reflexivity|]. constructor; [exact I|]. exact H6. }
Qed.

End Google.

Section OneDriveRetry.
Import OneDrive.
Variable D : Type.
Let W : Type := World D Request.

Lemma onedrive_ensure_ready (w : W) :
  ready (client w) (now w) = true -> ensureToken w = (Ok tt, w).
Proof.
  unfold ready, ensureToken, bind, getClient, dateNow. intro H.
  split_ands H. rew_bools. reflexivity.
Qed.

Lemma onedrive_refresh_grants (w : W) (r : Reply TokenData)
  (rest : list (Reply TokenData)) :
  ready (client w) (now w) = true ->
  tokenReplies w = r :: rest ->
  grants (client w) (now w) r = true ->
  refreshToken w
  = (Ok tt,
     mkWorld (refreshed (now w) r (client w)) (now w) rest (replies w)
       (calls w ++ [Refresh (online (client w))])).
Proof.
  unfold ready, grants, refreshed. intros Hready Htok Hgr.
  split_ands Hready.
  destruct (json r) as [d|] eqn:Hjson; [|discriminate].
  split_ands Hgr.
  unfold refreshToken, bind, getClient. fold (online (client w)).
  destruct (online (client w)) eqn:Honline.
  - split_ands Hgr.
    unfold refreshTokenOnline, bind, fetchToken, record, dateNow,
      modifyClient.
    cbn [client now tokenReplies replies calls].
    repeat (rew_bools; cbn [negb orb andb]).
    reflexivity.
  - cbn [orb] in Hready. split_ands Hready.
    unfold refreshTokenLocal, bind, getClient, fetchToken, record, dateNow,
      modifyClient.
    cbn [client now tokenReplies replies calls].
    repeat (rew_bools; cbn [negb orb andb]).
    reflexivity.
Qed.

Lemma onedrive_ready_refreshed (c : Client) (now : Z)
  (r : Reply TokenData) :
  ready c now = true -> grants c now r = true ->
  ready (refreshed now r c) now = true.
Proof.
  unfold ready, grants, refreshed. intros Hready Hgr.
  split_ands Hready.
  destruct (json r) as [d|]; [|discriminate].
  split_ands Hgr.
  destruct (online c) eqn:Honline.
  - split_ands Hgr.
    unfold storeTokensOnline, isTokenExpired, online in *.
    cbn -[expiry Z.mul Z.sub Z.leb Z.eqb].
    repeat (rew_bools; cbn -[expiry Z.mul Z.sub Z.leb Z.eqb]).
    reflexivity.
  - cbn [orb] in Hready.
    unfold storeTokensLocal, isTokenExpired, online in *.
    destruct (truthyOpt (td_refresh_token d)) eqn:Hrt;
      cbn -[expiry Z.mul Z.sub Z.leb Z.eqb];
      repeat (rew_bools; cbn -[expiry Z.mul Z.sub Z.leb Z.eqb]);
      reflexivity.
Qed.

Lemma onedrive_online_refreshed (c : Client) (now : Z)
  (r : Reply TokenData) :
  online (refreshed now r c) = online c.
Proof.
  unfold refreshed. destruct (json r) as [d|]; [|reflexivity].
  destruct (online c) eqn:Ho.
  - unfold online in *. cbn. exact Ho.
  - unfold storeTokensLocal, online in *.
    destruct (truthyOpt (td_refresh_token d)); cbn; exact Ho.
Qed.

Lemma onedrive_grants_ext (c c' : Client) (now : Z) (r : Reply TokenData) :
  online c = online c' -> grants c now r = grants c' now r.
Proof. unfold grants. intros ->. reflexivity. Qed.

Lemma onedrive_request_retries (rq : Request) :
  forall (expired : list (Reply D)) (w : W) (r : Reply D) (v : Value D)
         (rest : list (Reply D)) (tokens trest : list (Reply TokenData)),
    ready (client w) (now w) = true ->
    replies w = expired ++ r :: rest ->
    Forall (fun x => status x = 401) expired ->
    ok r = true ->
    valueOf r = Some v ->
    tokenReplies w = tokens ++ trest ->
    List.length tokens = List.length expired ->
    forallb (grants (client w) (now w)) tokens = true ->
    exists w' added,
      request rq w = (Ok v, w')
      /\ replies w' = rest /\ tokenReplies w' = trest
      /\ calls w' = calls w ++ added
      /\ refreshCount added = List.length expired
      /\ fetchCount added = S (List.length expired)
      /\ allFetch rq added.
Proof.
  unfold request.
  induction expired as [|x expired IH];
    intros w r v rest tokens trest Hready Hrep H401 Hr Hv Htok Hlen Hgr.
  - rewrite Hrep. cbn [app requestFrom].
    rewrite (onedrive_ensure_ready w Hready).
    rewrite Hr. cbn [negb].
    unfold valueOf in Hv.
    eexists. exists [Fetch rq (bearer (client w))].
    split.
    + destruct (includes (orElse (contentType r) "") "application/json").
      * destruct (json r) as [d|]; [|discriminate].
        cbn in Hv. injection Hv as <-. reflexivity.
      * injection Hv as <-. reflexivity.
    + destruct tokens; [|discriminate].
      cbn. repeat split; auto. repeat constructor.
  - rewrite Hrep. cbn [app requestFrom].
    rewrite (onedrive_ensure_ready w Hready).
    inversion H401 as [|? ? Hx H401']; subst.
    assert (Hnok : ok x = false) by (unfold ok; rewrite Hx; reflexivity).
    rewrite Hnok. cbn [negb].
    apply Z.eqb_eq in Hx. rewrite Hx.
    destruct tokens as [|t tokens]; [discriminate|].
    cbn [forallb] in Hgr. apply andb_prop in Hgr as [Hgt Hgr'].
    set (w3 := setReplies (expired ++ r :: rest)
                 (record (Fetch rq (bearer (client w))) w)).
    rewrite (onedrive_refresh_grants w3 t (tokens ++ trest));
      [|exact Hready | exact Htok | exact Hgt].
    set (w4 := mkWorld _ _ _ _ _).
    assert (Hready4 : ready (client w4) (now w4) = true)
      by (apply onedrive_ready_refreshed; assumption).
    assert (Hlen4 : List.length tokens = List.length expired)
      by (cbn [List.length] in Hlen; lia).
    assert (Hgr4 : forallb (grants (client w4) (now w4)) tokens = true).
    { rewrite <- Hgr'. apply forallb_pointwise. intro a.
      apply onedrive_grants_ext.
      subst w4 w3. cbn [client]. apply onedrive_online_refreshed. }
    destruct (IH w4 r v rest tokens trest Hready4 eq_refl H401' Hr Hv
                eq_refl Hlen4 Hgr4)
      as (w' & added & Hreq & H1 & H2 & H3 & H4 & H5 & H6).
    exists w',
      (Fetch rq (bearer (client w)) :: Refresh (online (client w)) :: added).
    split; [exact Hreq|].
    repeat split; auto.
    + rewrite H3. subst w4 w3. cbn. rewrite <- !app_assoc. reflexivity.
    + change (Fetch rq (bearer (client w))
              :: Refresh (online (client w)) :: added)
        with ([Fetch rq (bearer (client w)); Refresh (online (client w))]
              ++ added).
      rewrite refreshCount_app, H4. reflexivity.
    + change (Fetch rq (bearer (client w))
              :: Refresh (online (client w)) :: added)
        with ([Fetch rq (bearer (client w)); Refresh (online (client w))]
              ++ added).
      rewrite fetchCount_app, H5. reflexivity.
    + constructor; [reflexivity|]. constructor; [exact I|]. exact H6.
Qed.

End OneDriveRetry.

Section BaiduRetry.
Import Baidu.
Let W : Type := BWorld.

Lemma baidu_ensure_ready (w : W) :
  ready (client w) = true -> ensureToken w = (Ok tt, w).
Proof.
  unfold ready, ensureToken, ensureTokenNeeded, bind, getClient. intro H.
  split_ands H. rew_bools. reflexivity.
Qed.

Lemma baidu_refresh_grants (w : W) (r : Reply TokenData)
  (rest : list (Reply TokenData)) :
  ready (client w) = true ->
  tokenReplies w = r :: rest ->
  grants r = true ->
  refreshToken w
  = (Ok tt,
     mkWorld (refreshed r (client w)) (now w) rest (replies w)
       (calls w ++ [Refresh (online (client w))])).
Proof.
  unfold ready, grants, refreshed. intros Hready Htok Hgr.
  split_ands Hready.
  destruct (json r) as [d|] eqn:Hjson; [|discriminate].
  split_ands Hgr.
  unfold refreshToken, bind, getClient. fold (online (client w)).
  destruct (online (client w)) eqn:Honline.
  - unfold refreshTokenOnline, bind, fetchToken, record, modifyClient.
    cbn [client now tokenReplies replies calls].
    repeat (rew_bools; cbn [negb orb andb]).
    reflexivity.
  - cbn [orb] in Hready. split_ands Hready.
    unfold refreshTokenLocal, bind, getClient, fetchToken, record,
      modifyClient.
    cbn [client now tokenReplies replies calls].
    repeat (rew_bools; cbn [negb orb andb]).
    reflexivity.
Qed.

Lemma baidu_ready_refreshed (c : Client) (r : Reply TokenData) :
  ready c = true -> grants r = true -> ready (refreshed r c) = true.
Proof.
  unfold ready, grants, refreshed. intros Hready Hgr.
  split_ands Hready.
  destruct (json r) as [d|]; [|discriminate].
  split_ands Hgr.
  unfold storeTokens, online in *. cbn.
  repeat (rew_bools; cbn [negb orb andb]).
  reflexivity.
Qed.

Lemma baidu_request_retries (rq : Request) :
  forall (expired : list (Reply Data)) (w : W) (r : Reply Data) (d : Data)
         (rest : list (Reply Data)) (tokens trest : list (Reply TokenData)),
    ready (client w) = true ->
    replies w = expired ++ r :: rest ->
    forallb signalsExpiry expired = true ->
    payloadOf r = Some d ->
    tokenReplies w = tokens ++ trest ->
    List.length tokens = List.length expired ->
    forallb grants tokens = true ->
    exists w' added,
      request rq w = (Ok d, w')
      /\ replies w' = rest /\ tokenReplies w' = trest
      /\ calls w' = calls w ++ added
      /\ refreshCount added = List.length expired
      /\ fetchCount added = S (List.length expired)
      /\ allFetch rq added.
Proof.
  unfold request.
  induction expired as [|x expired IH];
    intros w r d rest tokens trest Hready Hrep Hexp Hr Htok Hlen Hgr.
  - rewrite Hrep. cbn [app requestFrom].
    rewrite (baidu_ensure_ready w Hready).
    unfold payloadOf in Hr.
    eexists. exists [Fetch rq (sentToken (client w))].
    split.
    + destruct (json r) as [d'|]; [|discriminate].
      destruct (errno d') as [e|].
      * destruct (e =? 0) eqn:He; [|discriminate].
        injection Hr as <-. cbn [negb]. reflexivity.
      * injection Hr as <-. reflexivity.
    + destruct tokens; [|discriminate].
      cbn. repeat split; auto. repeat constructor.
  - rewrite Hrep. cbn [app requestFrom].
    rewrite (baidu_ensure_ready w Hready).
    cbn [forallb] in Hexp. apply andb_prop in Hexp as [Hx Hexp'].
    unfold signalsExpiry in Hx.
    destruct (json x) as [dx|]; [|discriminate].
    destruct (errno dx) as [e|]; [|discriminate].
    assert (He0 : (e =? 0) = false).
    { unfold isAuthExpiry in Hx. apply Z.eqb_neq. intros ->.
      discriminate. }
    rewrite He0, Hx. cbn [negb].
    destruct tokens as [|t tokens]; [discriminate|].
    cbn [forallb] in Hgr. apply andb_prop in Hgr as [Hgt Hgr'].
    set (w3 := setReplies (expired ++ r :: rest) (record _ w)).
    rewrite (baidu_refresh_grants w3 t (tokens ++ trest));
      [|exact Hready | exact Htok | exact Hgt].
    set (w4 := mkWorld _ _ _ _ _).
    assert (Hready4 : ready (client w4) = true)
      by (apply baidu_ready_refreshed; assumption).
    assert (Hlen4 : List.length tokens = List.length expired)
      by (cbn [List.length] in Hlen; lia).
    destruct (IH w4 r d rest tokens trest Hready4 eq_refl Hexp' Hr
                eq_refl Hlen4 Hgr')
      as (w' & added & Hreq & H1 & H2 & H3 & H4 & H5 & H6).
    exists w',
      (Fetch rq (sentToken (client w))
       :: Refresh (online (client w)) :: added).
    split; [exact Hreq|].
    repeat split; auto.
    + rewrite H3. subst w4 w3. cbn. rewrite <- !app_assoc. reflexivity.
    + change (Fetch rq (sentToken (client w))
              :: Refresh (online (client w)) :: added)
        with ([Fetch rq (sentToken (client w));
               Refresh (online (client w))] ++ added).
      rewrite refreshCount_app, H4. reflexivity.
    + change (Fetch rq (sentToken (client w))
              :: Refresh (online (client w)) :: added)
        with ([Fetch rq (sentToken (client w));
               Refresh (online (client w))] ++ added).
      rewrite fetchCount_app, H5. reflexivity.
    + constructor; [reflexivity|]. constructor; [exact I|]. exact H6.
Qed.

End BaiduRetry.




End RetryFacts.

(** ** Listings *)

Module ListingFacts.
Import JsString DriveUtils Drive.
Local Open Scope Z_scope.

Section Sorting.
Variable A : Type.
Variable cmp : A -> A -> Z.
Hypothesis cmp_total : forall a b, cmp a b <= 0 \/ cmp b a <= 0.
Hypothesis cmp_trans :
  forall a b c, cmp a b <= 0 -> cmp b c <= 0 -> cmp a c <= 0.

Let le (a b : A) : Prop := cmp a b <= 0.

Lemma insertBy_perm (x : A) (l : list A) :
  Permutation (x :: l) (insertBy cmp x l).
Proof.
  induction l as [|y l IH]; cbn; [apply Permutation_refl|].
  destruct (cmp x y <=? 0); [apply Permutation_refl|].
  eapply perm_trans; [apply perm_swap|]. apply perm_skip. exact IH.
Qed.

Lemma sortBy_perm (l : list A) : Permutation l (sortBy cmp l).
Proof.
  induction l as [|x l IH]; cbn; [apply perm_nil|].
  eapply perm_trans; [apply perm_skip; exact IH|]. apply insertBy_perm.
Qed.

Lemma insertBy_sorted (x : A) (l : list A) :
  StronglySorted le l -> StronglySorted le (insertBy cmp x l).
Proof.
  induction 1 as [|y l Hs IH Hall]; cbn.
  - repeat constructor.
  - destruct (cmp x y <=? 0) eqn:Hxy.
    + apply Z.leb_le in Hxy.
      constructor; [constructor; assumption|].
      constructor; [exact Hxy|].
      eapply Forall_impl; [|exact Hall].
      intros z Hz. eapply cmp_trans; eassumption.
    + apply Z.leb_gt in Hxy.
      constructor; [exact IH|].
      eapply Permutation_Forall; [apply insertBy_perm|].
      constructor; [|exact Hall].
      destruct (cmp_total x y) as [H|H]; [lia|exact H].
Qed.

Lemma sortBy_sorted (l : list A) : StronglySorted le (sortBy cmp l).
Proof.
  induction l as [|x l IH]; cbn; [constructor|].
  apply insertBy_sorted. exact IH.
Qed.

End Sorting.

Lemma StronglySorted_impl {A : Type} (P Q : A -> A -> Prop) (l : list A) :
  (forall a b, P a b -> Q a b) -> StronglySorted P l -> StronglySorted Q l.
Proof.
  intros HPQ. induction 1 as [|x l Hs IH Hall]; constructor.
  - exact IH.
  - eapply Forall_impl; [|exact Hall]. intros b. apply HPQ.
Qed.

Section Listings.
Variable localeCompare : string -> string -> Z.
Hypothesis localeCompare_total :
  forall a b, localeCompare a b <= 0 \/ localeCompare b a <= 0.
Hypothesis localeCompare_trans :
  forall a b c, localeCompare a b <= 0 -> localeCompare b c <= 0 ->
                localeCompare a c <= 0.

Lemma compareObjects_le (a b : DriveObject) :
  compareObjects localeCompare a b <= 0 <-> objectLe localeCompare a b.
Proof.
  unfold compareObjects, objectLe.
  destruct (isDirectory a), (isDirectory b); cbn; split; intro H;
    try lia; try tauto;
    try (destruct H as [[? ?]|[? ?]]; (discriminate || lia || assumption)).
Qed.

Lemma compareObjects_total (a b : DriveObject) :
  compareObjects localeCompare a b <= 0
  \/ compareObjects localeCompare b a <= 0.
Proof.
  unfold compareObjects.
  destruct (isDirectory a), (isDirectory b); cbn;
    try apply localeCompare_total; lia.
Qed.

Lemma compareObjects_trans (a b c : DriveObject) :
  compareObjects localeCompare a b <= 0 ->
  compareObjects localeCompare b c <= 0 ->
  compareObjects localeCompare a c <= 0.
Proof.
  unfold compareObjects.
  destruct (isDirectory a), (isDirectory b), (isDirectory c); cbn;
    try apply localeCompare_trans; lia.
Qed.

Lemma collect_from {F : Type} (f : F -> DriveObject) (files : list F) :
  forall os ps,
    fold_left (collectStep f) files (os, ps)
    = (os ++ map f files,
       ps ++ map key (filter isDirectory (map f files))).
Proof.
  induction files as [|x files IH]; intros os ps; cbn [fold_left map filter].
  - rewrite !app_nil_r. reflexivity.
  - unfold collectStep at 2. cbn [fst snd].
    rewrite IH. destruct (isDirectory (f x)); cbn [map];
      rewrite <- !app_assoc; reflexivity.
Qed.

Lemma collect_spec {F : Type} (f : F -> DriveObject) (files : list F) :
  collect f files
  = (map f files, map key (filter isDirectory (map f files))).
Proof. unfold collect. rewrite collect_from. reflexivity. Qed.

(** The result every adapter assembles from the entries it collected. *)
Lemma assembled_invariant {F : Type} (f : F -> DriveObject)
  (files : list F) (token : option string) :
  listingInvariant localeCompare
    (let '(objects, prefixes) := collect f files in
     mkListObjectsResult (sortBy (compareObjects localeCompare) objects)
       prefixes (truthyOpt token) token).
Proof.
  rewrite collect_spec. unfold listingInvariant. cbn.
  split; [|split].
  - intros k Hk. apply in_map_iff in Hk as (o & Hkey & Ho).
    apply filter_In in Ho as [Ho Hdir].
    exists o. split; [|auto].
    eapply Permutation_in; [apply sortBy_perm|exact Ho].
  - eapply StronglySorted_impl;
      [intros a b; apply compareObjects_le|].
    apply sortBy_sorted.
    + apply compareObjects_total.
    + apply compareObjects_trans.
  - destruct token as [[|c t]|]; cbn; auto. discriminate.
Qed.

End Listings.

(** *** The code-unit collation is a total preorder *)

Lemma ascii_compare_eq (a b : ascii) : Ascii.compare a b = Eq -> a = b.
Proof.
  unfold Ascii.compare. intro H. apply N.compare_eq in H.
  rewrite <- (ascii_N_embedding a), <- (ascii_N_embedding b), H.
  reflexivity.
Qed.

Lemma string_compare_trans (a : string) :
  forall b c,
    String.compare a b <> Gt -> String.compare b c <> Gt ->
    String.compare a c <> Gt.
Proof.
  induction a as [|x a IH]; intros [|y b] [|z c]; cbn;
    try congruence.
  unfold Ascii.compare.
  destruct (N.compare_spec (N_of_ascii x) (N_of_ascii y)) as [Hxy|Hxy|Hxy];
    destruct (N.compare_spec (N_of_ascii y) (N_of_ascii z)) as [Hyz|Hyz|Hyz];
    destruct (N.compare_spec (N_of_ascii x) (N_of_ascii z)) as [Hxz|Hxz|Hxz];
    try congruence; try lia.
  apply IH.
Qed.

Lemma codeUnitCompare_total (a b : string) :
  codeUnitCompare a b <= 0 \/ codeUnitCompare b a <= 0.
Proof.
  unfold codeUnitCompare. rewrite (String.compare_antisym a b).
  destruct (String.compare b a); cbn; lia.
Qed.

Lemma codeUnitCompare_trans (a b c : string) :
  codeUnitCompare a b <= 0 -> codeUnitCompare b c <= 0 ->
  codeUnitCompare a c <= 0.
Proof.
  unfold codeUnitCompare. intros Hab Hbc.
  pose proof (string_compare_trans a b c) as H.
  destruct (String.compare a b), (String.compare b c),
    (String.compare a c); try lia; exfalso; apply H; congruence.
Qed.

(** C6, as stated, fails: the last page of an Aliyun listing, which the
    provider sends with an empty marker, is not truncated and yet carries
    a continuation token, the empty one. *)
Lemma C6_listing_counterexample :
  let r := Aliyun.buildListing codeUnitCompare "docs" (Some "folder-1")
             Aliyun.lastPage in
  isTruncated r = false /\ nextContinuationToken r <> None.
Proof. cbv. split; [reflexivity|discriminate]. Qed.

(** C6 (amended): whenever [localeCompare] is a total preorder, every
    result that the Baidu, Google Drive, OneDrive or Aliyun adapter's
    [listObjects] builds from a provider listing response has each key of
    [prefixes] as the key of a directory entry of [objects], has [objects]
    sorted directories first and by name within each group, and, when
    [isTruncated] is false, has a [nextContinuationToken] that is absent
    or empty. *)
Theorem C6_listing_invariant :
  forall localeCompare : string -> string -> Z,
    (forall a b, localeCompare a b <= 0 \/ localeCompare b a <= 0) ->
    (forall a b c, localeCompare a b <= 0 -> localeCompare b c <= 0 ->
                   localeCompare a c <= 0) ->
    (forall toISOString prefix files,
        listingInvariant localeCompare
          (Baidu.buildListing localeCompare toISOString prefix files))
    /\ (forall parseInt prefix folderId result,
        listingInvariant localeCompare
          (GoogleDrive.buildListing localeCompare parseInt prefix folderId
             result))
    /\ (forall prefix result,
        listingInvariant localeCompare
          (OneDrive.buildListing localeCompare prefix result))
    /\ (forall prefix folderId response,
        listingInvariant localeCompare
          (Aliyun.buildListing localeCompare prefix folderId response)).
Proof.
  intros lc Htotal Htrans.
  assert (Hempty : listingInvariant lc (mkListObjectsResult [] [] false None)).
  { unfold listingInvariant, prefixesAreDirectories. cbn.
    split; [intros k []|]. split; [constructor|auto]. }
  split; [|split; [|split]].
  - intros toISO prefix files. unfold Baidu.buildListing.
    apply (assembled_invariant lc Htotal Htrans _ files None).
  - intros parseInt prefix folderId result. unfold GoogleDrive.buildListing.
    destruct (negb (truthyOpt folderId)); [exact Hempty|].
    apply (assembled_invariant lc Htotal Htrans).
  - intros prefix result. unfold OneDrive.buildListing.
    apply (assembled_invariant lc Htotal Htrans).
  - intros prefix folderId response. unfold Aliyun.buildListing.
    destruct (negb (truthyOpt folderId)); [exact Hempty|].
    apply (assembled_invariant lc Htotal Htrans).
Qed.

Lemma C6_listing_invariant_witness :
  listingInvariant codeUnitCompare
    (Aliyun.buildListing codeUnitCompare "docs" (Some "folder-1")
       Aliyun.lastPage)
  /\ map name
       (objects
          (Aliyun.buildListing codeUnitCompare "docs" (Some "folder-1")
             Aliyun.lastPage))
     = ["sub"; "a.txt"; "b.txt"].
Proof.
  split; [|reflexivity].
  apply (C6_listing_invariant codeUnitCompare codeUnitCompare_total
           codeUnitCompare_trans).
Defined.

End ListingFacts.

(** ** Base64 *)

Module Base64Facts.
Import Base64.

Example atob_admin : atob "YWRtaW46Y2hhbmdlbWU=" = Some "admin:changeme".
Proof. vm_compute. reflexivity. Qed.

Example btoa_braces : btoa [123; 125]%N = Some "e30=".
Proof. vm_compute. reflexivity. Qed.

Example atob_unpadded : atob "e30" = Some "{}".
Proof. vm_compute. reflexivity. Qed.

Local Open Scope N_scope.

Ltac ndiv := zify; Z.to_euclidean_division_equations; lia.

Lemma list_ind3 {A : Type} (P : list A -> Prop) :
  P [] -> (forall a, P [a]) -> (forall a b, P [a; b]) ->
  (forall a b c l, P l -> P (a :: b :: c :: l)) ->
  forall l, P l.
Proof.
  intros H0 H1 H2 H3.
  fix IH 1. intros [|a [|b [|c l]]];
    [exact H0 | apply H1 | apply H2 | apply H3; apply IH].
Qed.

Lemma sixBits_complete (v : N) : v < 64 -> In v sixBits.
Proof.
  intro H. unfold sixBits. apply in_map_iff.
  exists (N.to_nat v). split; [apply N2Nat.id|].
  apply in_seq. lia.
Qed.

Lemma decodeChar_encodeChar (v : N) :
  v < 64 -> decodeChar (encodeChar v) = Some v.
Proof.
  intro H. apply sixBits_complete in H.
  assert (Hall : forallb (fun v => match decodeChar (encodeChar v) with
                                   | Some w => w =? v
                                   | None => false
                                   end) sixBits = true)
    by (vm_compute; reflexivity).
  rewrite forallb_forall in Hall. specialize (Hall v H).
  destruct (decodeChar (encodeChar v)) as [w|]; [|discriminate].
  apply N.eqb_eq in Hall. subst. reflexivity.
Qed.

Lemma encodeChar_plain (v : N) : v < 64 -> plain (encodeChar v) = true.
Proof.
  intro H. apply sixBits_complete in H.
  assert (Hall : forallb (fun v => plain (encodeChar v)) sixBits = true)
    by (vm_compute; reflexivity).
  rewrite forallb_forall in Hall. exact (Hall v H).
Qed.

Lemma sextets_bound (bytes : list N) :
  Forall (fun b => b < 256) bytes -> Forall (fun v => v < 64) (sextets bytes).
Proof.
  induction bytes as [| a | a b | a b c l IH] using list_ind3; intro H.
  - constructor.
  - inversion H; subst. cbn [sextets].
    repeat (apply Forall_cons; [ndiv|]). apply Forall_nil.
  - inversion H as [|? ? Ha H']; subst. inversion H'; subst. cbn [sextets].
    repeat (apply Forall_cons; [ndiv|]). apply Forall_nil.
  - inversion H as [|? ? Ha H1]; subst. inversion H1 as [|? ? Hb H2]; subst.
    inversion H2 as [|? ? Hc H3]; subst.
    change (sextets (a :: b :: c :: l))
      with (a / 4 :: (a mod 4) * 16 + b / 16 :: (b mod 16) * 4 + c / 64
            :: c mod 64 :: sextets l).
    repeat (apply Forall_cons; [ndiv|]). apply IH. exact H3.
Qed.

Lemma octets_sextets (bytes : list N) :
  Forall (fun b => b < 256) bytes -> octets (sextets bytes) = bytes.
Proof.
  induction bytes as [| a | a b | a b c l IH] using list_ind3; intro H.
  - reflexivity.
  - inversion H; subst. cbn [sextets octets]. f_equal. ndiv.
  - inversion H as [|? ? Ha H']; subst. inversion H'; subst.
    cbn [sextets octets]. f_equal; [ndiv|]. f_equal. ndiv.
  - inversion H as [|? ? Ha H1]; subst. inversion H1 as [|? ? Hb H2]; subst.
    inversion H2 as [|? ? Hc H3]; subst.
    change (sextets (a :: b :: c :: l))
      with (a / 4 :: (a mod 4) * 16 + b / 16 :: (b mod 16) * 4 + c / 64
            :: c mod 64 :: sextets l).
    cbn [octets]. rewrite (IH H3).
    f_equal; [ndiv|]. f_equal; [ndiv|]. f_equal. ndiv.
Qed.

Lemma decodeChars_encode (vs : list N) :
  Forall (fun v => v < 64) vs -> decodeChars (map encodeChar vs) = Some vs.
Proof.
  induction 1 as [|v vs Hv _ IH]; [reflexivity|].
  cbn. rewrite (decodeChar_encodeChar v Hv), IH. reflexivity.
Qed.

Lemma plain_all (vs : list N) :
  Forall (fun v => v < 64) vs -> forallb plain (map encodeChar vs) = true.
Proof.
  induction 1 as [|v vs Hv _ IH]; [reflexivity|].
  cbn [map forallb]. rewrite (encodeChar_plain v Hv), IH. reflexivity.
Qed.

Lemma filter_plain (l : list ascii) (k : nat) :
  forallb plain l = true ->
  filter (fun c => negb (isAsciiWhitespace c)) (l ++ repeat "="%char k)
  = l ++ repeat "="%char k.
Proof.
  intro H. rewrite filter_app. f_equal.
  - induction l as [|c l IH]; [reflexivity|].
    cbn [forallb] in H. apply andb_prop in H as [Hc Hl].
    cbn [filter]. unfold plain in Hc.
    rewrite !andb_true_iff in Hc. destruct Hc as (((Hw & _) & _) & _).
    rewrite Hw. rewrite (IH Hl). reflexivity.
  - induction k as [|k IH]; [reflexivity|]. cbn. rewrite IH. reflexivity.
Qed.

Lemma last_plain (l : list ascii) (c : ascii) (r : list ascii) :
  forallb plain l = true -> rev l = c :: r -> Ascii.eqb c "=" = false.
Proof.
  intros H Hrev.
  assert (Hin : In c l) by (apply in_rev; rewrite Hrev; left; reflexivity).
  rewrite forallb_forall in H. specialize (H c Hin). unfold plain in H.
  rewrite !andb_true_iff in H. destruct H as (((_ & He) & _) & _).
  apply negb_true_iff in He. exact He.
Qed.

Lemma dropPadding_plain (l : list ascii) (k : nat) :
  forallb plain l = true -> (k <= 2)%nat ->
  dropPadding (l ++ repeat "="%char k) = l.
Proof.
  intros H Hk. unfold dropPadding. rewrite rev_app_distr, rev_repeat.
  destruct k as [|[|[|k]]]; [| | |lia]; cbn [repeat app].
  - rewrite app_nil_r.
    destruct (rev l) as [|c r] eqn:Hrev; [reflexivity|].
    pose proof (last_plain l c r H Hrev) as Hc.
    destruct c as [[] [] [] [] [] [] [] []]; try reflexivity; discriminate.
  - destruct (rev l) as [|c r] eqn:Hrev.
    + apply (f_equal (@rev ascii)) in Hrev. rewrite rev_involutive in Hrev.
      subst. reflexivity.
    + pose proof (last_plain l c r H Hrev) as Hc.
      rewrite <- Hrev, rev_involutive.
      destruct c as [[] [] [] [] [] [] [] []]; try reflexivity; discriminate.
  - apply rev_involutive.
Qed.

Lemma padding_repeat (n : nat) :
  padding n = JsString.repeatChar "=" (padCount n).
Proof.
  unfold padding, padCount.
  destruct (Nat.modulo n 3) as [|[|[|m]]]; reflexivity.
Qed.

Lemma mod_add_4 (n : nat) : Nat.modulo (4 + n) 4 = Nat.modulo n 4.
Proof. replace (4 + n)%nat with (n + 1 * 4)%nat by lia. apply Nat.Div0.mod_add. Qed.

Lemma mod_add_3 (n : nat) : Nat.modulo (3 + n) 3 = Nat.modulo n 3.
Proof. replace (3 + n)%nat with (n + 1 * 3)%nat by lia. apply Nat.Div0.mod_add. Qed.

Lemma sextets_length (bytes : list N) :
  (Nat.modulo (List.length (sextets bytes) + padCount (List.length bytes)) 4 = 0
   /\ Nat.modulo (List.length (sextets bytes)) 4 <> 1
   /\ padCount (List.length bytes)
      = (if Nat.eqb (Nat.modulo (List.length (sextets bytes)) 4) 0 then 0
         else 4 - Nat.modulo (List.length (sextets bytes)) 4)
   /\ padCount (List.length bytes) <= 2)%nat.
Proof.
  induction bytes as [| a | a b | a b c l IH] using list_ind3;
    try (cbn; repeat split; lia).
  change (sextets (a :: b :: c :: l))
    with (a / 4 :: (a mod 4) * 16 + b / 16 :: (b mod 16) * 4 + c / 64
          :: c mod 64 :: sextets l).
  change (List.length (a :: b :: c :: l)) with (3 + List.length l)%nat.
  change (List.length
            (a / 4 :: (a mod 4) * 16 + b / 16 :: (b mod 16) * 4 + c / 64
             :: c mod 64 :: sextets l))
    with (4 + List.length (sextets l))%nat.
  assert (Hp : padCount (3 + List.length l) = padCount (List.length l))
    by (unfold padCount; rewrite mod_add_3; reflexivity).
  rewrite Hp, <- Nat.add_assoc, !mod_add_4. exact IH.
Qed.

Lemma chars_append (a b : string) :
  list_ascii_of_string (a ++ b) = list_ascii_of_string a ++ list_ascii_of_string b.
Proof. induction a as [|c a IH]; cbn; [reflexivity|]. rewrite IH. reflexivity. Qed.

Lemma chars_repeat (c : ascii) (k : nat) :
  list_ascii_of_string (JsString.repeatChar c k) = repeat c k.
Proof. induction k as [|k IH]; cbn; [reflexivity|]. rewrite IH. reflexivity. Qed.

(** Decoding the unpadded text of [bytes], padded, gives [bytes] back. *)
Lemma atobBytes_padded (bytes : list N) :
  Forall (fun b => b < 256) bytes ->
  atobBytes (string_of_list_ascii (map encodeChar (sextets bytes))
             ++ JsString.repeatChar "=" (padCount (List.length bytes)))
  = Some bytes.
Proof.
  intro H.
  pose proof (sextets_bound bytes H) as Hv.
  pose proof (plain_all _ Hv) as Hp.
  destruct (sextets_length bytes) as (Hm0 & Hm1 & _ & Hk).
  unfold atobBytes.
  rewrite chars_append, list_ascii_of_string_of_list_ascii, chars_repeat.
  rewrite (filter_plain _ _ Hp).
  rewrite length_app, repeat_length, length_map, Hm0. cbn [Nat.eqb].
  rewrite (dropPadding_plain _ _ Hp Hk).
  rewrite length_map.
  destruct (Nat.eqb (Nat.modulo (List.length (sextets bytes)) 4) 1) eqn:E;
    [apply Nat.eqb_eq in E; contradiction|].
  rewrite (decodeChars_encode _ Hv). cbn [option_map].
  rewrite (octets_sextets bytes H). reflexivity.
Qed.

End Base64Facts.

(** ** JSON text *)

Module JsonFacts.
Import Json.
Local Open Scope N_scope.

Ltac ndiv := zify; Z.to_euclidean_division_equations; lia.

(** *** Strings *)

Lemma hexValue_hexDigit (n : N) : n < 16 -> hexValue (hexDigit n) = Some n.
Proof.
  intro H.
  assert (Hin : In n nibbles).
  { unfold nibbles. apply in_map_iff. exists (N.to_nat n).
    split; [apply N2Nat.id|]. apply in_seq. lia. }
  assert (Hall : forallb (fun n => match hexValue (hexDigit n) with
                                   | Some m => m =? n
                                   | None => false
                                   end) nibbles = true)
    by (vm_compute; reflexivity).
  rewrite forallb_forall in Hall. specialize (Hall n Hin).
  destruct (hexValue (hexDigit n)) as [m|]; [|discriminate].
  apply N.eqb_eq in Hall. subst. reflexivity.
Qed.

Lemma hex4_escape (u : N) :
  u < 65536 ->
  hex4 (hexDigit (u / 4096)) (hexDigit ((u / 256) mod 16))
    (hexDigit ((u / 16) mod 16)) (hexDigit (u mod 16)) = Some u.
Proof.
  intro H. unfold hex4.
  rewrite !hexValue_hexDigit by ndiv.
  f_equal. ndiv.
Qed.

Lemma parseChars_escape (u : N) (t content rest : wstring) :
  u < 65536 ->
  parseChars t = Some (content, rest) ->
  parseChars (unicodeEscape u ++ t) = Some (u :: content, rest).
Proof.
  intros Hu Ht. unfold unicodeEscape. cbn [app parseChars].
  change (92 =? 34) with false. change (92 =? 92) with true.
  change (117 =? 117) with true. cbv iota.
  rewrite (hex4_escape u Hu), Ht. reflexivity.
Qed.

Lemma parseChars_unit (prev next : option N) (u : N)
  (t content rest : wstring) :
  u < 65536 ->
  parseChars t = Some (content, rest) ->
  parseChars (quoteUnit prev u next ++ t) = Some (u :: content, rest).
Proof.
  intros Hu Ht. unfold quoteUnit.
  repeat match goal with
         | |- context [if ?x =? ?k then _ else _] =>
             destruct (N.eqb_spec x k) as [->|?];
             [cbn [app parseChars]; cbn; rewrite Ht; reflexivity|]
         end.
  destruct (u <? 32) eqn:H32; [apply parseChars_escape; assumption|].
  destruct (isHigh u && negb (holds isLow next));
    [apply parseChars_escape; assumption|].
  destruct (isLow u && negb (holds isHigh prev));
    [apply parseChars_escape; assumption|].
  cbn [app parseChars].
  destruct (N.eqb_spec u 34) as [?|_]; [contradiction|].
  destruct (N.eqb_spec u 92) as [?|_]; [contradiction|].
  rewrite H32, Ht. reflexivity.
Qed.

Lemma parseChars_quoteUnits (s : wstring) :
  Forall (fun u => u < 65536) s ->
  forall prev rest,
    parseChars (quoteUnits prev s ++ 34 :: rest) = Some (s, rest).
Proof.
  induction 1 as [|u s Hu _ IH]; intros prev rest.
  - reflexivity.
  - cbn [quoteUnits]. rewrite <- List.app_assoc.
    apply parseChars_unit; [exact Hu|apply IH].
Qed.

Lemma parseChars_quote (s rest : wstring) :
  Forall (fun u => u < 65536) s ->
  exists t, quote s ++ rest = 34 :: t /\ parseChars t = Some (s, rest).
Proof.
  intro H. exists (quoteUnits None s ++ 34 :: rest). split.
  - unfold quote. cbn [app]. rewrite <- List.app_assoc. reflexivity.
  - apply parseChars_quoteUnits. exact H.
Qed.

(** *** Numbers *)

Lemma readDigits_digitsText (d : Decimal.uint) (rest : wstring) :
  endsNumber rest -> readDigits (digitsText d ++ rest) = (d, rest).
Proof.
  intro Hrest.
  induction d as [|d IH|d IH|d IH|d IH|d IH|d IH|d IH|d IH|d IH|d IH];
    cbn [digitsText app readDigits];
    try (change (isDigit 48) with true; change (isDigit 49) with true;
         change (isDigit 50) with true; change (isDigit 51) with true;
         change (isDigit 52) with true; change (isDigit 53) with true;
         change (isDigit 54) with true; change (isDigit 55) with true;
         change (isDigit 56) with true; change (isDigit 57) with true;
         cbv iota; rewrite IH; reflexivity).
  destruct rest as [|c rest]; [reflexivity|].
  unfold endsNumber in Hrest. cbn in Hrest.
  cbn [readDigits].
  destruct (isDigit c); [discriminate|reflexivity].
Qed.

Lemma nzhead_not_zero (d x : Decimal.uint) :
  Decimal.nzhead d <> Decimal.D0 x.
Proof. induction d; cbn; try discriminate; assumption. Qed.

Lemma unorm_leadingZero (d : Decimal.uint) :
  Decimal.unorm d = d -> leadingZero d = false.
Proof.
  destruct d as [|d| | | | | | | | |]; try reflexivity.
  intro H. unfold Decimal.unorm in H.
  destruct (Decimal.nzhead (Decimal.D0 d)) eqn:E; try discriminate.
  - injection H as <-. reflexivity.
  - exfalso. exact (nzhead_not_zero _ _ E).
Qed.

Lemma to_uint_normal (p : positive) :
  Pos.to_uint p <> Decimal.Nil /\ leadingZero (Pos.to_uint p) = false.
Proof.
  split; [apply DecimalPos.Unsigned.to_uint_nonnil|].
  apply unorm_leadingZero.
  rewrite <- DecimalPos.Unsigned.to_of, DecimalPos.Unsigned.of_to.
  reflexivity.
Qed.

Lemma parseNumber_digits (negative : bool) (d : Decimal.uint)
  (rest : wstring) :
  d <> Decimal.Nil -> leadingZero d = false -> endsNumber rest ->
  parseNumber ((if negative then [45] else []) ++ digitsText d ++ rest)
  = Some (Z.of_int (if negative then Decimal.Neg d else Decimal.Pos d), rest).
Proof.
  intros Hnil Hlead Hrest.
  assert (Hends : holds (fun c => (c =? 46) || (c =? 101) || (c =? 69))
                    (hd_error rest) = false).
  { unfold endsNumber in Hrest. destruct rest as [|c rest]; [reflexivity|].
    cbn in *. destruct (isDigit c); [discriminate|exact Hrest]. }
  unfold parseNumber. destruct negative; cbn [app].
  - change (45 =? 45) with true. cbv iota.
    rewrite (readDigits_digitsText d rest Hrest).
    destruct d; try contradiction; rewrite Hlead, Hends; reflexivity.
  - assert (Hhead : exists c t, digitsText d ++ rest = c :: t
                                /\ (c =? 45) = false).
    { destruct d; try contradiction; cbn; eexists; eexists;
        (split; [reflexivity|reflexivity]). }
    destruct Hhead as (c & t & Heq & Hc).
    rewrite Heq, Hc, <- Heq.
    rewrite (readDigits_digitsText d rest Hrest).
    destruct d; try contradiction; rewrite Hlead, Hends; reflexivity.
Qed.

Lemma parseNumber_numberText (z : Z) (rest : wstring) :
  endsNumber rest -> parseNumber (numberText z ++ rest) = Some (z, rest).
Proof.
  intro Hrest. unfold numberText.
  rewrite <- (DecimalZ.of_to z) at 2.
  destruct z as [|p|p]; cbn [Z.to_int].
  - apply (parseNumber_digits false Decimal.zero rest);
      [discriminate | reflexivity | exact Hrest].
  - destruct (to_uint_normal p) as [Hn Hl].
    apply (parseNumber_digits false (Pos.to_uint p) rest); assumption.
  - destruct (to_uint_normal p) as [Hn Hl].
    apply (parseNumber_digits true (Pos.to_uint p) rest); assumption.
Qed.

(** *** Values *)

Lemma value_induction (P : value -> Prop) :
  P Null -> (forall b, P (Bool b)) -> (forall z, P (Num z)) ->
  (forall s, P (Str s)) ->
  (forall items, Forall P items -> P (Arr items)) ->
  (forall members, Forall (fun m => P (snd m)) members -> P (Obj members)) ->
  forall v, P v.
Proof.
  intros HNull HBool HNum HStr HArr HObj.
  fix IH 1. intros [ | b | z | s | items | members].
  - exact HNull.
  - apply HBool.
  - apply HNum.
  - apply HStr.
  - apply HArr. induction items as [|x l IHl]; constructor;
      [apply IH | exact IHl].
  - apply HObj. induction members as [|m l IHl]; constructor;
      [apply IH | exact IHl].
Qed.

Lemma numberText_head (z : Z) :
  exists c t, numberText z = c :: t /\ ((c =? 45) || isDigit c) = true.
Proof.
  unfold numberText.
  destruct (Z.to_int z) as [d|d] eqn:E.
  - assert (Hd : d <> Decimal.Nil).
    { destruct z; cbn in E; try discriminate; injection E as <-;
        try discriminate; apply DecimalPos.Unsigned.to_uint_nonnil. }
    destruct d; try contradiction; cbn; eexists; eexists;
      (split; [reflexivity|reflexivity]).
  - exists 45, (digitsText d). split; reflexivity.
Qed.

Lemma stringify_head (v : value) :
  exists c t, stringify v = c :: t /\ opens c.
Proof.
  destruct v as [ | [|] | z | s | items | members]; cbn [stringify];
    try (eexists; eexists; split; [reflexivity|repeat split; reflexivity]).
  destruct (numberText_head z) as (c & t & -> & Hc).
  exists c, t. split; [reflexivity|].
  unfold opens, isWs, isDigit in *.
  repeat match goal with
         | |- context [?a =? ?b] => destruct (N.eqb_spec a b); try subst
         end; cbn in *; try discriminate; repeat split; try reflexivity.
Qed.

Lemma skipWs_opens (c : N) (t : wstring) :
  isWs c = false -> skipWs (c :: t) = c :: t.
Proof. intro H. cbn. rewrite H. reflexivity. Qed.

Lemma joinComma_cons (p q : wstring) (l : list wstring) :
  joinComma (p :: q :: l) = p ++ 44 :: joinComma (q :: l).
Proof. reflexivity. Qed.

Lemma parseItems_step (f : nat) (s : wstring) (acc : list value) :
  parseItems (S f) s acc
  = match parseValue f s with
    | None => None
    | Some (v, r) =>
        match skipWs r with
        | [] => None
        | c :: r' =>
            if c =? 44 then parseItems f r' (v :: acc)
            else if c =? 93 then Some (Arr (rev (v :: acc)), r')
            else None
        end
    end.
Proof. reflexivity. Qed.

Lemma parseItems_spec (items : list value) :
  Forall reads items -> items <> [] ->
  forall acc fuel rest,
    (needItems items <= fuel)%nat ->
    parseItems fuel (joinComma (map stringify items) ++ 93 :: rest) acc
    = Some (Arr (rev acc ++ items), rest).
Proof.
  induction 1 as [|x l Hx Hl IH]; [contradiction|].
  intros _ acc fuel rest Hfuel.
  change (needItems (x :: l)) with (S (need x + needItems l)) in Hfuel.
  destruct fuel as [|f]; [lia|].
  rewrite parseItems_step.
  destruct l as [|y l'].
  - cbn [map joinComma].
    rewrite (Hx f (93 :: rest)); [|lia|reflexivity].
    cbn [skipWs]. change (isWs 93) with false. cbv iota.
    change (93 =? 44) with false. change (93 =? 93) with true. cbv iota.
    cbn [rev]. reflexivity.
  - cbn [map]. rewrite joinComma_cons, <- List.app_assoc.
    cbn [app].
    rewrite (Hx f (44 :: joinComma (stringify y :: map stringify l')
                      ++ 93 :: rest)); [|lia|reflexivity].
    cbn [skipWs]. change (isWs 44) with false. cbv iota.
    change (44 =? 44) with true. cbv iota.
    pose proof (IH ltac:(discriminate) (x :: acc) f rest ltac:(lia)) as HIH.
    cbn [map] in HIH. rewrite HIH.
    cbn [rev]. rewrite <- List.app_assoc. reflexivity.
Qed.

Lemma sameUnits_eq (a b : wstring) : sameUnits a b = true -> a = b.
Proof.
  revert b. induction a as [|x a IH]; intros [|y b] H; cbn in H;
    try discriminate; [reflexivity|].
  apply andb_prop in H as [Hxy Hab]. apply N.eqb_eq in Hxy.
  rewrite Hxy, (IH b Hab). reflexivity.
Qed.

Lemma setMember_fresh (k : wstring) (v : value)
  (acc : list (wstring * value)) :
  ~ In k (map fst acc) -> setMember k v acc = acc ++ [(k, v)].
Proof.
  induction acc as [|[k' v'] acc IH]; intro Hk; [reflexivity|].
  cbn [setMember]. cbn [map fst In] in Hk.
  destruct (sameUnits k k') eqn:E.
  - apply sameUnits_eq in E. subst. exfalso. apply Hk. left. reflexivity.
  - rewrite IH by (intro; apply Hk; right; assumption). reflexivity.
Qed.

Lemma parseMembers_step (f : nat) (s : wstring)
  (acc : list (wstring * value)) :
  parseMembers (S f) s acc
  = match skipWs s with
    | [] => None
    | q :: t =>
        if q =? 34 then
          match parseChars t with
          | None => None
          | Some (k, r) =>
              match skipWs r with
              | [] => None
              | colon :: r1 =>
                  if colon =? 58 then
                    match parseValue f r1 with
                    | None => None
                    | Some (v, r2) =>
                        match skipWs r2 with
                        | [] => None
                        | c :: r3 =>
                            if c =? 44
                            then parseMembers f r3 (setMember k v acc)
                            else if c =? 125
                            then Some (Obj (setMember k v acc), r3)
                            else None
                        end
                    end
                  else None
              end
          end
        else None
    end.
Proof. reflexivity. Qed.

Lemma memberText_parse (m : wstring * value) (tail : wstring) :
  Forall (fun u => u < 65536) (fst m) ->
  exists t,
    memberText m ++ tail = 34 :: t
    /\ parseChars t = Some (fst m, 58 :: stringify (snd m) ++ tail).
Proof.
  intro Hk. unfold memberText. rewrite <- List.app_assoc. cbn [app].
  apply parseChars_quote. exact Hk.
Qed.

Lemma parseMembers_spec (members : list (wstring * value)) :
  Forall (fun m => reads (snd m)) members ->
  Forall (fun m => Forall (fun u => u < 65536) (fst m)) members ->
  members <> [] ->
  forall acc fuel rest,
    NoDup (map fst (acc ++ members)) ->
    (needMembers members <= fuel)%nat ->
    parseMembers fuel (joinComma (map memberText members) ++ 125 :: rest) acc
    = Some (Obj (acc ++ members), rest).
Proof.
  induction 1 as [|m l Hm Hl IH]; [contradiction|].
  intros Hkeys _ acc fuel rest Hdup Hfuel.
  inversion Hkeys as [|? ? Hk Hkeys']; subst.
  change (needMembers (m :: l)) with (S (need (snd m) + needMembers l))
    in Hfuel.
  destruct fuel as [|f]; [lia|].
  assert (Hfresh : ~ In (fst m) (map fst acc)).
  { rewrite map_app in Hdup. cbn [map] in Hdup.
    apply NoDup_remove_2 in Hdup. intro Hin. apply Hdup.
    apply in_or_app. left. exact Hin. }
  assert (Hdup' : NoDup (map fst ((acc ++ [m]) ++ l)))
    by (rewrite <- List.app_assoc; exact Hdup).
  rewrite parseMembers_step.
  destruct l as [|m' l'].
  - cbn [map joinComma].
    destruct (memberText_parse m (125 :: rest) Hk) as (t & -> & Ht).
    cbn [skipWs]. change (isWs 34) with false. cbv iota.
    change (34 =? 34) with true. cbv iota. rewrite Ht.
    cbn [skipWs]. change (isWs 58) with false. cbv iota.
    change (58 =? 58) with true. cbv iota.
    rewrite (Hm f (125 :: rest)); [|lia|reflexivity].
    cbn [skipWs]. change (isWs 125) with false. cbv iota.
    change (125 =? 44) with false. change (125 =? 125) with true. cbv iota.
    destruct m as [k v]. cbn [fst snd] in *.
    rewrite (setMember_fresh k v acc Hfresh). reflexivity.
  - cbn [map]. rewrite joinComma_cons, <- List.app_assoc. cbn [app].
    destruct (memberText_parse m
                (44 :: joinComma (memberText m' :: map memberText l')
                 ++ 125 :: rest) Hk) as (t & -> & Ht).
    cbn [skipWs]. change (isWs 34) with false. cbv iota.
    change (34 =? 34) with true. cbv iota. rewrite Ht.
    cbn [skipWs]. change (isWs 58) with false. cbv iota.
    change (58 =? 58) with true. cbv iota.
    rewrite (Hm f (44 :: joinComma (memberText m' :: map memberText l')
                      ++ 125 :: rest)); [|lia|reflexivity].
    cbn [skipWs]. change (isWs 44) with false. cbv iota.
    change (44 =? 44) with true. cbv iota.
    destruct m as [k v]. cbn [fst snd] in *.
    rewrite (setMember_fresh k v acc Hfresh).
    pose proof (IH Hkeys' ltac:(discriminate) (acc ++ [(k, v)]) f rest Hdup'
                  ltac:(lia)) as HIH.
    cbn [map] in HIH. rewrite HIH.
    rewrite <- List.app_assoc. reflexivity.
Qed.

Lemma parseValue_step (f : nat) (s : wstring) :
  parseValue (S f) s
  = match skipWs s with
    | [] => None
    | u :: t =>
        if u =? 123 then
          match skipWs t with
          | [] => None
          | c :: r =>
              if c =? 125 then Some (Obj [], r) else parseMembers f t []
          end
        else if u =? 91 then
          match skipWs t with
          | [] => None
          | c :: r => if c =? 93 then Some (Arr [], r) else parseItems f t []
          end
        else if u =? 34 then
          match parseChars t with
          | Some (content, rest) => Some (Str content, rest)
          | None => None
          end
        else if (u =? 45) || isDigit u then
          match parseNumber (u :: t) with
          | Some (z, rest) => Some (Num z, rest)
          | None => None
          end
        else
          match stripPrefix (units "true") (u :: t) with
          | Some rest => Some (Bool true, rest)
          | None =>
              match stripPrefix (units "false") (u :: t) with
              | Some rest => Some (Bool false, rest)
              | None =>
                  match stripPrefix (units "null") (u :: t) with
                  | Some rest => Some (Null, rest)
                  | None => None
                  end
              end
          end
    end.
Proof. reflexivity. Qed.

Lemma wellFormedItems_Forall (items : list value) :
  wellFormedItems items -> Forall wellFormed items.
Proof.
  induction items as [|x l IH]; intro H; constructor.
  - exact (proj1 H).
  - apply IH. exact (proj2 H).
Qed.

Lemma wellFormedMembers_Forall (members : list (wstring * value)) :
  wellFormedMembers members ->
  Forall (fun m => Forall (fun u => u < 65536) (fst m)) members
  /\ Forall (fun m => wellFormed (snd m)) members.
Proof.
  induction members as [|m l IH]; intro H; [split; constructor|].
  destruct H as (Hk & Hv & Hl). destruct (IH Hl) as [IH1 IH2].
  split; constructor; assumption.
Qed.

Lemma Forall_modus {A : Type} (P Q : A -> Prop) (l : list A) :
  Forall (fun a => P a -> Q a) l -> Forall P l -> Forall Q l.
Proof.
  induction 1 as [|a l Ha _ IH]; intro H; constructor;
    inversion H; subst; auto.
Qed.

Lemma skipWs_joined (parts : list wstring) (c : N) (t tail : wstring) :
  isWs c = false -> (exists more, joinComma parts = (c :: t) ++ more) ->
  skipWs (joinComma parts ++ tail) = joinComma parts ++ tail.
Proof.
  intros Hc (more & ->). cbn [app skipWs]. rewrite Hc. reflexivity.
Qed.

Lemma joinComma_head (p : wstring) (l : list wstring) (c : N) (t : wstring) :
  p = c :: t -> exists more, joinComma (p :: l) = (c :: t) ++ more.
Proof.
  intros ->. destruct l as [|q l].
  - exists []. cbn. rewrite List.app_nil_r. reflexivity.
  - exists (44 :: joinComma (q :: l)). reflexivity.
Qed.

Theorem parseValue_stringify (v : value) : wellFormed v -> reads v.
Proof.
  induction v as [ | b | z | s | items IH | members IH] using value_induction;
    intros Hwf fuel rest Hfuel Hrest;
    (destruct fuel as [|f]; [cbn in Hfuel; lia|]);
    rewrite parseValue_step.
  - reflexivity.
  - destruct b; reflexivity.
  - cbn [stringify].
    destruct (numberText_head z) as (c & t & Heq & Hc).
    assert (Hopens : isWs c = false /\ (c =? 123) = false
                     /\ (c =? 91) = false /\ (c =? 34) = false).
    { unfold isWs, isDigit in *.
      repeat match goal with
             | |- context [?a =? ?b] => destruct (N.eqb_spec a b); try subst
             end; cbn in *; try discriminate; repeat split; try reflexivity;
        exfalso;
        repeat match goal with
               | H : context [?a <=? ?b] |- _ =>
                   destruct (N.leb_spec a b); cbn in H
               end; try discriminate; lia. }
    destruct Hopens as (Hw & H1 & H2 & H3).
    rewrite Heq. cbn [app skipWs]. rewrite Hw, H1, H2, H3, Hc.
    change (c :: t ++ rest) with ((c :: t) ++ rest). rewrite <- Heq.
    rewrite (parseNumber_numberText z rest Hrest). reflexivity.
  - cbn [stringify].
    destruct (parseChars_quote s rest Hwf) as (t & -> & Ht).
    cbn [skipWs]. change (isWs 34) with false. cbv iota.
    change (34 =? 123) with false. change (34 =? 91) with false.
    change (34 =? 34) with true. cbv iota. rewrite Ht. reflexivity.
  - cbn [stringify]. cbn [app].
    change (need (Arr items)) with (S (needItems items)) in Hfuel.
    cbn [skipWs]. change (isWs 91) with false. cbv iota.
    change (91 =? 123) with false. change (91 =? 91) with true. cbv iota.
    rewrite <- List.app_assoc. cbn [app].
    destruct items as [|x l].
    + cbn [map joinComma app skipWs]. change (isWs 93) with false.
      cbv iota. change (93 =? 93) with true. reflexivity.
    + assert (Hreads : Forall reads (x :: l)).
      { apply (Forall_modus wellFormed reads); [exact IH|].
        apply wellFormedItems_Forall. exact Hwf. }
      destruct (stringify_head x) as (c & t & Hx & Hw & H93 & _).
      cbn [map].
      destruct (joinComma_head (stringify x) (map stringify l) c t Hx)
        as (more & Hj).
      rewrite (skipWs_joined _ c t _ Hw (ex_intro _ more Hj)).
      rewrite Hj at 1. cbn [app]. rewrite H93.
      pose proof (parseItems_spec (x :: l) Hreads ltac:(discriminate) [] f
                    rest ltac:(lia)) as Hitems.
      cbn [map rev app] in Hitems. exact Hitems.
  - cbn [stringify]. cbn [app].
    change (need (Obj members)) with (S (needMembers members)) in Hfuel.
    cbn [skipWs]. change (isWs 123) with false. cbv iota.
    change (123 =? 123) with true. cbv iota.
    rewrite <- List.app_assoc. cbn [app].
    destruct members as [|m l].
    + cbn [map joinComma app skipWs]. change (isWs 125) with false.
      cbv iota. change (125 =? 125) with true. reflexivity.
    + destruct Hwf as [Hdup Hwf].
      destruct (wellFormedMembers_Forall (m :: l) Hwf) as [Hkeys Hvals].
      assert (Hreads : Forall (fun m => reads (snd m)) (m :: l)).
      { apply (Forall_modus (fun m => wellFormed (snd m))
                 (fun m => reads (snd m))); assumption. }
      change (map (fun m0 => quote (fst m0) ++ 58 :: stringify (snd m0))
                (m :: l))
        with (map memberText (m :: l)).
      cbn [map].
      assert (Hm : memberText m = 34 :: quoteUnits None (fst m) ++ [34]
                                  ++ 58 :: stringify (snd m)).
      { unfold memberText, quote. cbn [app].
        rewrite <- List.app_assoc. reflexivity. }
      destruct (joinComma_head (memberText m) (map memberText l) 34 _ Hm)
        as (more & Hj).
      rewrite (skipWs_joined _ 34 _ _ eq_refl (ex_intro _ more Hj)).
      rewrite Hj at 1. cbn [app]. change (34 =? 125) with false. cbv iota.
      pose proof (parseMembers_spec (m :: l) Hreads Hkeys ltac:(discriminate)
                    [] f rest Hdup ltac:(lia)) as Hmembers.
      cbn [map app] in Hmembers. exact Hmembers.
Qed.

Lemma joinComma_length (parts : list wstring) :
  (Datatypes.length (joinComma parts) + 1
   >= list_sum (map (fun p => S (Datatypes.length p)) parts))%nat.
Proof.
  induction parts as [|p [|q l] IH];
    unfold list_sum in *; cbn [joinComma map fold_right Datatypes.length] in *.
  - lia.
  - lia.
  - rewrite length_app. cbn [Datatypes.length]. lia.
Qed.

Lemma need_le_length (v : value) :
  (need v <= Datatypes.length (stringify v))%nat.
Proof.
  induction v as [ | b | z | s | items IH | members IH] using value_induction.
  - cbn. lia.
  - destruct b; cbn; lia.
  - cbn [need stringify]. destruct (numberText_head z) as (c & t & -> & _).
    cbn. lia.
  - cbn [need stringify]. unfold quote. cbn. lia.
  - change (need (Arr items)) with (S (needItems items)).
    cbn [stringify]. cbn [Datatypes.length]. rewrite length_app.
    cbn [Datatypes.length].
    assert (Hsum : (needItems items
                    <= list_sum (map (fun p => S (Datatypes.length p))
                                   (map stringify items)))%nat).
    { induction IH as [|x l Hx _ IHl]; [cbn; lia|].
      change (needItems (x :: l)) with (S (need x + needItems l)).
      unfold list_sum in *; cbn [map fold_right]. lia. }
    pose proof (joinComma_length (map stringify items)) as Hj.
    lia.
  - change (need (Obj members)) with (S (needMembers members)).
    cbn [stringify]. cbn [Datatypes.length]. rewrite length_app.
    cbn [Datatypes.length].
    assert (Hsum : (needMembers members
                    <= list_sum
                         (map (fun p => S (Datatypes.length p))
                            (map (fun m => quote (fst m)
                                           ++ 58%N :: stringify (snd m))
                               members)))%nat).
    { induction IH as [|x l Hx _ IHl]; [cbn; lia|].
      change (needMembers (x :: l)) with (S (need (snd x) + needMembers l)).
      unfold list_sum in *; cbn [map fold_right]. rewrite length_app. cbn [Datatypes.length]. lia. }
    pose proof (joinComma_length
                  (map (fun m => quote (fst m) ++ 58 :: stringify (snd m))
                     members)) as Hj.
    lia.
Qed.

(** [JSON.parse] undoes [JSON.stringify]. *)
Theorem parse_stringify (v : value) :
  wellFormed v -> parse (stringify v) = Some v.
Proof.
  intro Hwf. unfold parse.
  pose proof (parseValue_stringify v Hwf
                (S (Datatypes.length (stringify v))) []) as H.
  rewrite List.app_nil_r in H. rewrite H; [reflexivity| |reflexivity].
  pose proof (need_le_length v). lia.
Qed.

End JsonFacts.

(** ** The upload-state codec *)

Module UploadStateFacts.
Import JsString Json Base64 UploadState.
Local Open Scope N_scope.

Lemma replaceAll_append (c d : ascii) (a b : string) :
  replaceAll c d (a ++ b) = (replaceAll c d a ++ replaceAll c d b)%string.
Proof. induction a as [|x a IH]; cbn; [reflexivity|]. rewrite IH. reflexivity. Qed.

Lemma replaceAll_text (c d : ascii) (l : list ascii) :
  replaceAll c d (string_of_list_ascii l)
  = string_of_list_ascii (map (swap c d) l).
Proof. induction l as [|x l IH]; cbn; [reflexivity|]. rewrite IH. reflexivity. Qed.

Lemma replaceAll_repeat (c d e : ascii) (k : nat) :
  Ascii.eqb e c = false -> replaceAll c d (repeatChar e k) = repeatChar e k.
Proof.
  intro H. induction k as [|k IH]; cbn; [reflexivity|].
  rewrite H, IH. reflexivity.
Qed.

Lemma dropTrailing_repeat (c : ascii) (k : nat) :
  dropTrailing c (repeatChar c k) = EmptyString.
Proof.
  induction k as [|k IH]; cbn; [reflexivity|].
  rewrite IH, Ascii.eqb_refl. reflexivity.
Qed.

Lemma dropTrailing_padded (c : ascii) (l : list ascii) (k : nat) :
  forallb (fun x => negb (Ascii.eqb x c)) l = true ->
  dropTrailing c (string_of_list_ascii l ++ repeatChar c k)
  = string_of_list_ascii l.
Proof.
  induction l as [|x l IH]; intro H.
  - apply dropTrailing_repeat.
  - cbn [forallb] in H. apply andb_prop in H. destruct H as [Hx Hl].
    cbn [string_of_list_ascii String.append dropTrailing].
    rewrite (IH Hl). apply negb_true_iff in Hx. rewrite Hx.
    destruct (string_of_list_ascii l); reflexivity.
Qed.

Lemma length_text (l : list ascii) :
  String.length (string_of_list_ascii l) = List.length l.
Proof. induction l as [|x l IH]; cbn; [reflexivity|]. rewrite IH. reflexivity. Qed.

Lemma latin1_Forall (text : wstring) :
  latin1 text = true -> Forall (fun b => b < 256) text.
Proof.
  intro H. apply Forall_forall. intros u Hu.
  unfold latin1 in H. rewrite forallb_forall in H.
  apply N.ltb_lt. exact (H u Hu).
Qed.

Lemma units_bytes (bytes : list N) :
  Forall (fun b => b < 256) bytes ->
  units (string_of_list_ascii (map ascii_of_N bytes)) = bytes.
Proof.
  intro H. unfold units. rewrite list_ascii_of_string_of_list_ascii.
  induction H as [|b l Hb _ IH]; [reflexivity|].
  cbn [map]. rewrite IH, N_ascii_embedding by exact Hb. reflexivity.
Qed.

(** What the two substitutions do to the characters of the alphabet. *)
Lemma swap_alphabet (v : N) :
  v < 64 ->
  let c := encodeChar v in
  let u := swap "/" "_" (swap "+" "-" c) in
  urlSafeChar u = true /\ Ascii.eqb u "=" = false
  /\ swap "_" "/" (swap "-" "+" u) = c.
Proof.
  intro H. apply Base64Facts.sixBits_complete in H.
  assert (Hall : forallb
                   (fun v =>
                      let c := encodeChar v in
                      let u := swap "/" "_" (swap "+" "-" c) in
                      urlSafeChar u && negb (Ascii.eqb u "=")
                      && Ascii.eqb (swap "_" "/" (swap "-" "+" u)) c)
                   sixBits = true)
    by (vm_compute; reflexivity).
  rewrite forallb_forall in Hall. specialize (Hall v H). cbv zeta in *.
  rewrite !andb_true_iff in Hall. destruct Hall as ((H1 & H2) & H3).
  apply negb_true_iff in H2. apply Ascii.eqb_eq in H3. auto.
Qed.

Lemma tokenChars_safe (json : wstring) :
  Forall (fun b => b < 256) json ->
  forallb urlSafeChar (tokenChars json) = true
  /\ forallb (fun x => negb (Ascii.eqb x "=")) (tokenChars json) = true
  /\ map (swap "_" "/") (map (swap "-" "+") (tokenChars json))
     = map encodeChar (sextets json).
Proof.
  intro H. apply Base64Facts.sextets_bound in H. unfold tokenChars.
  induction H as [|v vs Hv _ (IH1 & IH2 & IH3)]; [repeat split|].
  destruct (swap_alphabet v Hv) as (H1 & H2 & H3).
  cbn [map forallb]. rewrite H1, H2, H3, IH1, IH2, IH3. repeat split.
Qed.

Lemma encode_token (state : list (wstring * value)) :
  latin1 (stringify (Obj state)) = true ->
  encodeUploadState state
  = Ok (string_of_list_ascii (tokenChars (stringify (Obj state)))).
Proof.
  intro H. unfold encodeUploadState, btoa.
  change (forallb (fun u => u <? 256) (stringify (Obj state)))
    with (latin1 (stringify (Obj state))).
  rewrite H. unfold encodeBytes.
  rewrite Base64Facts.padding_repeat.
  rewrite !replaceAll_append, !replaceAll_text.
  rewrite !replaceAll_repeat by reflexivity.
  fold (tokenChars (stringify (Obj state))).
  rewrite dropTrailing_padded; [reflexivity|].
  apply tokenChars_safe, latin1_Forall, H.
Qed.

Lemma encode_fails (state : list (wstring * value)) :
  latin1 (stringify (Obj state)) = false ->
  encodeUploadState state = Err "InvalidCharacterError".
Proof.
  intro H. unfold encodeUploadState, btoa.
  change (forallb (fun u => u <? 256) (stringify (Obj state)))
    with (latin1 (stringify (Obj state))).
  rewrite H. reflexivity.
Qed.

(** Every token is made of letters, digits, [-] and [_]. *)
Lemma encode_urlSafe (state : list (wstring * value)) (token : string) :
  encodeUploadState state = Ok token -> urlSafe token = true.
Proof.
  destruct (latin1 (stringify (Obj state))) eqn:H.
  - rewrite (encode_token state H). intros [= <-].
    unfold urlSafe. rewrite list_ascii_of_string_of_list_ascii.
    apply tokenChars_safe, latin1_Forall, H.
  - rewrite (encode_fails state H). discriminate.
Qed.

Lemma decode_token (v : value) :
  wellFormed v -> latin1 (stringify v) = true ->
  decodeUploadState (string_of_list_ascii (tokenChars (stringify v))) = Ok v.
Proof.
  intros Hwf H. pose proof (latin1_Forall _ H) as Hbytes.
  destruct (tokenChars_safe _ Hbytes) as (_ & _ & Hback).
  unfold decodeUploadState.
  rewrite !replaceAll_text, Hback, length_text, length_map.
  destruct (Base64Facts.sextets_length (stringify v)) as (_ & _ & <- & _).
  unfold atob. rewrite (Base64Facts.atobBytes_padded _ Hbytes).
  cbn [option_map]. rewrite (units_bytes _ Hbytes).
  rewrite (JsonFacts.parse_stringify v Hwf). reflexivity.
Qed.

(** A URL-safe token has no padding, no [+] and no [/]. *)
Lemma urlSafe_excludes (token : string) (c : ascii) :
  urlSafe token = true -> In c (list_ascii_of_string token) ->
  c <> "="%char /\ c <> "+"%char /\ c <> "/"%char.
Proof.
  intros H Hin. unfold urlSafe in H. rewrite forallb_forall in H.
  specialize (H c Hin).
  repeat split; intros ->; vm_compute in H; discriminate.
Qed.

Lemma sampleState_wellFormed : wellFormed (Obj sampleState).
Proof.
  split.
  - repeat constructor; cbn; intuition discriminate.
  - cbn. repeat split; try reflexivity;
      repeat (constructor; [reflexivity|]); constructor.
Qed.




End UploadStateFacts.

(** ** The WebDAV bridge *)

Module WebDavFacts.
Import JsString Provider Drive WebDav.
Local Open Scope Z_scope.

(** *** OPTIONS *)

(** C10: a request whose method is OPTIONS is answered by the loader with
    status 200 and the DAV and Allow headers, whatever the environment
    says about WebDAV being enabled and whatever credentials the request
    carries, and without any access to the configuration store or to an
    adapter. *)
Theorem C10_options_first :
  forall (services : Services) (classes : Classes) (request : Request)
         (params : Params) (env : Env) (s : Session),
    toUpperCase (method request) = "OPTIONS" ->
    exists response,
      loader services classes request params env s = (Ok response, s)
      /\ status response = 200
      /\ In ("DAV", "1, 2") (headers response)
      /\ In ("Allow",
             "OPTIONS, GET, HEAD, PUT, DELETE, PROPFIND, MKCOL, COPY, MOVE")
           (headers response).
Proof.
  intros services classes request params env s Hm.
  exists optionsResponse. unfold loader. rewrite Hm.
  cbn. repeat split; auto.
Qed.

Lemma C10_options_first_witness :
  exists response,
    loader sampleServices sampleClasses (sampleRequest "options" None)
      sampleParams (sampleEnv None) start
    = (Ok response, start)
    /\ status response = 200.
Proof.
  destruct (C10_options_first sampleServices sampleClasses
              (sampleRequest "options" None) sampleParams (sampleEnv None)
              start eq_refl)
    as (response & Hrun & Hstatus & _).
  exists response. split; assumption.
Defined.

(** *** Authentication *)

Lemma sameString_iff (o : option string) (s : string) :
  sameString o s = true <-> o = Some s.
Proof.
  destruct o as [x|]; cbn.
  - rewrite String.eqb_eq. split; [intros ->; reflexivity|congruence].
  - split; discriminate.
Qed.

Lemma orElse_set (o : option string) (d v : string) :
  o = Some v -> v <> "" -> orElse o d = v.
Proof. intros -> Hv. destruct v; [congruence|reflexivity]. Qed.

Lemma orElse_unset (o : option string) (d : string) :
  truthyOpt o = false -> orElse o d = d.
Proof.
  destruct o as [v|]; cbn; [|reflexivity]. unfold orElse. intros ->.
  reflexivity.
Qed.



(** *** Case analysis over a handler run *)

Ltac case_step :=
  match goal with
  | H : (_, _) = (_, _) |- _ => injection H as ? ?; subst
  | H : context [match ?x with _ => _ end] |- _ =>
      first [ is_var x; destruct x | destruct x eqn:? ]
  | H : context [if ?b then _ else _] |- _ => destruct b eqn:?
  | |- context [match ?x with _ => _ end] =>
      first [ is_var x; destruct x | destruct x eqn:? ]
  end.

Ltac handler_cases H :=
  unfold loader, action, destinationPath, bind, ret, throw, tryCatch,
    withClientState, invoke, persistClientState, query, construct in H;
  unfold ret, throw in H;
  cbn [instance events] in H;
  repeat (case_step; cbn [instance events fst snd] in * ).

Lemma method_get_or_head (m : string) :
  (m =? "GET")%string || (m =? "HEAD")%string = true ->
  m = "GET" \/ m = "HEAD".
Proof.
  intro H. apply orb_prop in H as [H|H]; apply String.eqb_eq in H; auto.
Qed.

Ltac close_status :=
  first
    [ discriminate
    | left; split; [apply String.eqb_eq; assumption | reflexivity]
    | right; split; [apply method_get_or_head; assumption | reflexivity]
    | eexists; reflexivity ].

(** *** Adapter failures *)

Lemma loader_rejected services classes request params env :
  forall r s,
    loader services classes request params env start = (r, s) ->
    existsb isRejected (events s) = true ->
    (toUpperCase (method request) = "PROPFIND"
     /\ r = Ok (respond 500 "Internal Server Error"))
    \/ ((toUpperCase (method request) = "GET"
         \/ toUpperCase (method request) = "HEAD")
        /\ r = Ok (respond 404 "Not Found")).
Proof.
  intros r s H Hrej. unfold start in H.
  handler_cases H; try discriminate; cbn in Hrej; close_status.
Qed.

Lemma action_rejected services classes request params env :
  forall r s,
    action services classes request params env start = (r, s) ->
    existsb isRejected (events s) = true ->
    exists text, r = Ok (respond 500 text).
Proof.
  intros r s H Hrej. unfold start in H.
  handler_cases H; try discriminate; cbn in Hrej; close_status.
Qed.

Lemma loader_own_statuses services classes request params env :
  forall response s,
    loader services classes request params env start = (Ok response, s) ->
    In (status response) [401; 403; 405] ->
    existsb isInvoked (events s) = false.
Proof.
  intros response s H Hst. unfold start in H.
  handler_cases H; try discriminate;
    try (injection H as <- <-); cbn in Hst |- *;
    first [reflexivity | intuition discriminate].
Qed.

Lemma action_own_statuses services classes request params env :
  forall response s,
    action services classes request params env start = (Ok response, s) ->
    In (status response) [401; 403; 405] ->
    existsb isInvoked (events s) = false.
Proof.
  intros response s H Hst. unfold start in H.
  handler_cases H; try discriminate;
    try (injection H as <- <-); cbn in Hst |- *;
    first [reflexivity | intuition discriminate].
Qed.




(** *** State propagation *)

Lemma withClientState_spec (services : Services) (client : StorageClient)
  (storageId : option Z) (T : Type) (action : BM T) (s : Session) :
  let r := fst (action s) in
  let s1 := snd (action s) in
  let out := withClientState services client storageId action s in
  fst out = r
  /\ instance (snd out) = instance s1
  /\ events (snd out)
     = events s1
       ++ match getStateUpdates client with
          | None => []
          | Some read =>
              ReadState
              :: match read (instance s1) with
                 | None | Some (None, None) => []
                 | Some (config, saving) =>
                     let input := mkUpdateInput config saving in
                     UpdateStorage storageId input
                     :: (if isOk (updateStorage services
                                    (List.length
                                       (filter isUpdate (events s1)))
                                    storageId input)
                         then []
                         else [Logged "Failed to persist storage state:"])
                 end
          end.
Proof.
  cbv zeta. unfold withClientState, persistClientState.
  destruct (action s) as [r s1]. cbn [fst snd].
  destruct (getStateUpdates client) as [read|]; cbn [ret instance events].
  - assert (Hn : List.length (filter isUpdate (events s1 ++ [ReadState]))
                 = List.length (filter isUpdate (events s1))).
    { rewrite filter_app. cbn. rewrite app_nil_r. reflexivity. }
    destruct (read (instance s1)) as [[[cfg|] [sav|]]|];
      cbn [instance events]; rewrite ?Hn;
      try (destruct (updateStorage services _ storageId _));
      cbn [instance events isOk]; rewrite <- ?app_assoc; auto.
  - unfold ret. rewrite app_nil_r. auto.
Qed.

Lemma getStateUpdates_changed (c : Client) :
  match Provider.getStateUpdates c with
  | None => configChanged c = false /\ savingChanged c = false
  | Some (cfg, sav) =>
      (configChanged c = true \/ savingChanged c = true)
      /\ cfg = (if configChanged c then Some (config c) else None)
      /\ sav = (if savingChanged c then Some (saving c) else None)
  end.
Proof.
  unfold Provider.getStateUpdates.
  destruct (savingChanged c), (configChanged c); cbn; auto.
Qed.

Lemma loader_reads_state services classes request params env :
  (forall storage, getStateUpdates (createClient classes storage) <> None) ->
  readAfterEachInvocation
    (events (snd (loader services classes request params env start))) = true.
Proof.
  intros Hst.
  destruct (loader services classes request params env start) as [r s] eqn:H.
  unfold start in H. cbn [snd].
  handler_cases H; try discriminate; try reflexivity;
    exfalso; eapply Hst; eassumption.
Qed.

Lemma action_reads_state services classes request params env :
  (forall storage, getStateUpdates (createClient classes storage) <> None) ->
  readAfterEachInvocation
    (events (snd (action services classes request params env start))) = true.
Proof.
  intros Hst.
  destruct (action services classes request params env start) as [r s] eqn:H.
  unfold start in H. cbn [snd].
  handler_cases H; try discriminate; try reflexivity;
    exfalso; eapply Hst; eassumption.
Qed.


Lemma sampleClasses_stateful (storage : Storage) :
  getStateUpdates (createClient sampleClasses storage) <> None.
Proof.
  unfold createClient.
  repeat match goal with
         | |- context [if ?b then _ else _] => destruct b
         end; discriminate.
Qed.


End WebDavFacts.
(** ** Root paths *)

Module RootPathFacts.
Import JsString DriveUtils Provider.

Lemma prefix_refl (s : string) : String.prefix s s = true.
Proof.
  induction s as [|c t IH]; [reflexivity|].
  cbn. destruct (ascii_dec c c); [exact IH|contradiction].
Qed.

Lemma prefix_append (s t : string) : String.prefix s (s ++ t) = true.
Proof.
  induction s as [|c u IH]; [destruct t; reflexivity|].
  cbn. destruct (ascii_dec c c); [exact IH|contradiction].
Qed.

Lemma normalizeRootPath_rooted (rootPath : string) :
  startsWithSlash (normalizeRootPath rootPath) = true.
Proof.
  unfold normalizeRootPath.
  destruct (truthy rootPath); [|reflexivity]. cbn [negb].
  set (n := if negb (startsWithSlash (trim rootPath))
            then ("/" ++ trim rootPath)%string else trim rootPath).
  assert (Hn : startsWithSlash n = true).
  { unfold n. destruct (startsWithSlash (trim rootPath)) eqn:E;
      [exact E|reflexivity]. }
  destruct (Nat.ltb 1 (String.length n) && endsWithSlash n) eqn:E;
    [|exact Hn].
  apply andb_prop in E. destruct E as [Hlen _].
  apply Nat.ltb_lt in Hlen.
  destruct n as [|c [|d u]]; cbn in Hlen; try lia.
  exact Hn.
Qed.

(** X1.  [normalizeRootPath] returns an absolute path for every input:
    its result always begins with the separator (and so is never
    empty), also for the empty root and for a root of white space. *)
Theorem X1_normalizeRootPath_absolute (rootPath : string) :
  startsWithSlash (normalizeRootPath rootPath) = true
  /\ normalizeRootPath rootPath <> "".
Proof.
  pose proof (normalizeRootPath_rooted rootPath) as H.
  split; [exact H|].
  intro E. rewrite E in H. discriminate.
Qed.

Lemma lastChar_cons (c d : ascii) (u : string) :
  lastChar (String c (String d u)) = lastChar (String d u).
Proof. reflexivity. Qed.

Lemma sliceInit_cons (c d : ascii) (u : string) :
  sliceInit (String c (String d u)) = String c (sliceInit (String d u)).
Proof. reflexivity. Qed.

Lemma endsWithSlash_cons (c d : ascii) (u : string) :
  endsWithSlash (String c (String d u)) = endsWithSlash (String d u).
Proof. reflexivity. Qed.

(** Without a doubled separator at its end, a path of two characters or
    more that loses its last character no longer ends with one. *)
Lemma sliceInit_no_slash (n : string) :
  1 < String.length n -> endsWithTwoSlashes n = false ->
  endsWithSlash n = true -> endsWithSlash (sliceInit n) = false.
Proof.
  intros _ Htwo Hend. unfold endsWithTwoSlashes in Htwo.
  rewrite Hend in Htwo. exact Htwo.
Qed.

Lemma endsWithTwoSlashes_cons (c : ascii) (n : string) :
  startsWithSlash n = false ->
  endsWithTwoSlashes (String c n) = endsWithTwoSlashes n.
Proof.
  intro Hs. unfold endsWithTwoSlashes.
  destruct n as [|d u]; [cbn; apply andb_false_r|].
  rewrite endsWithSlash_cons, sliceInit_cons.
  destruct u as [|e v].
  - cbn in Hs. cbn. rewrite Hs. reflexivity.
  - rewrite sliceInit_cons, endsWithSlash_cons. reflexivity.
Qed.

(** X2.  Unless the trimmed input ends with two separators, the result
    of [normalizeRootPath] is the root "/" or does not end with a
    separator. *)
Theorem X2_normalizeRootPath_no_trailing_slash (rootPath : string) :
  endsWithTwoSlashes (trim rootPath) = false ->
  normalizeRootPath rootPath = "/"
  \/ endsWithSlash (normalizeRootPath rootPath) = false.
Proof.
  intro Htwo. unfold normalizeRootPath.
  destruct (truthy rootPath); [|left; reflexivity]. cbn [negb].
  set (n := if negb (startsWithSlash (trim rootPath))
            then ("/" ++ trim rootPath)%string else trim rootPath).
  assert (Hn : endsWithTwoSlashes n = false).
  { unfold n. destruct (startsWithSlash (trim rootPath)) eqn:E;
      cbn [negb]; [exact Htwo|].
    change ("/" ++ trim rootPath)%string with (String "/" (trim rootPath)).
    rewrite (endsWithTwoSlashes_cons _ _ E). exact Htwo. }
  assert (Hs : startsWithSlash n = true).
  { unfold n. destruct (startsWithSlash (trim rootPath)) eqn:E;
      [exact E|reflexivity]. }
  destruct (Nat.ltb 1 (String.length n)) eqn:Hlen; cbn [andb].
  - destruct (endsWithSlash n) eqn:Hend; [|right; exact Hend].
    right. apply Nat.ltb_lt in Hlen.
    exact (sliceInit_no_slash n Hlen Hn Hend).
  - left. apply Nat.ltb_ge in Hlen.
    destruct n as [|c [|d u]]; cbn in Hlen, Hs; try discriminate; try lia.
    apply Ascii.eqb_eq in Hs. subst c. reflexivity.
Qed.

Lemma X2_normalizeRootPath_no_trailing_slash_witness :
  endsWithTwoSlashes (trim " docs/ ") = false
  /\ (normalizeRootPath " docs/ " = "/"
      \/ endsWithSlash (normalizeRootPath " docs/ ") = false).
Proof.
  split; [reflexivity|].
  apply (X2_normalizeRootPath_no_trailing_slash " docs/ "). reflexivity.
Defined.

Lemma joinRootPath_under_root (rootPath path : string) :
  String.prefix (normalizeRootPath rootPath) (joinRootPath rootPath path)
  = true.
Proof.
  unfold joinRootPath.
  set (root := normalizeRootPath rootPath).
  destruct (truthy path) eqn:Hp; cbn [negb orb].
  - set (cleanPath := if startsWithSlash path then path
                      else ("/" ++ path)%string).
    assert (Hc : startsWithSlash cleanPath = true).
    { unfold cleanPath. destruct (startsWithSlash path) eqn:E;
        [exact E|reflexivity]. }
    destruct (String.eqb cleanPath "/"); [apply prefix_refl|].
    destruct (String.eqb root "/") eqn:Hr.
    + apply String.eqb_eq in Hr. rewrite Hr.
      destruct cleanPath as [|c t]; [discriminate|].
      cbn in Hc. apply Ascii.eqb_eq in Hc. subst c.
      cbn. destruct (ascii_dec "/" "/"); [|contradiction].
      destruct t; reflexivity.
    + apply prefix_append.
  - apply prefix_refl.
Qed.

Lemma prefix_rooted (r s : string) :
  startsWithSlash r = true -> String.prefix r s = true ->
  startsWithSlash s = true.
Proof.
  intros Hr Hp. destruct r as [|c t]; [discriminate|].
  destruct s as [|d u]; [discriminate|].
  cbn in Hp. destruct (ascii_dec c d) as [->|]; [exact Hr|discriminate].
Qed.

(** X3.  [joinRootPath] stays under the root: its result always begins
    with the normalized root, and so with the separator.  The branch of
    the Baidu adapter's [resolvePath] that prepends a separator is
    therefore never taken: [resolvePath] is [joinRootPath] on the
    configured root, "/" when none is configured. *)
Theorem X3_joinRootPath_under_root (rootPath path : string) (c : Client) :
  String.prefix (normalizeRootPath rootPath) (joinRootPath rootPath path)
  = true
  /\ startsWithSlash (joinRootPath rootPath path) = true
  /\ Baidu.resolvePath c path
     = joinRootPath (orElse (root_path (config c)) "/") path.
Proof.
  assert (H : forall r p, startsWithSlash (joinRootPath r p) = true).
  { intros r p.
    exact (prefix_rooted _ _ (normalizeRootPath_rooted r)
             (joinRootPath_under_root r p)). }
  split; [apply joinRootPath_under_root|].
  split; [apply H|].
  unfold Baidu.resolvePath. rewrite H. reflexivity.
Qed.

End RootPathFacts.

(** ** Slice size and digest text *)

Module SliceFacts.
Import Provider Baidu.
Local Open Scope Z_scope.

(** X4.  The slice size of the Baidu upload is between 4 MiB and 32 MiB
    for every account tier and every configured part size, whatever the
    file size; a configured size of 4 to 32 (MiB) is used as it is. *)
Theorem X4_getSliceSize_bounds (c : Client) (fileSize : Z) :
  4 * MiB <= getSliceSize c fileSize <= 32 * MiB
  /\ (forall custom,
        custom_upload_part_size (config c) = Some custom ->
        4 <= custom <= 32 -> getSliceSize c fileSize = custom * MiB).
Proof.
  split.
  - unfold getSliceSize, MiB.
    destruct (custom_upload_part_size (config c)) as [v|];
      destruct (vip_type (saving c)) as [t|]; cbn -[Z.mul Z.max Z.min];
      repeat match goal with
             | |- context [if ?b then _ else _] => destruct b
             end; lia.
  - intros custom Hc Hr. unfold getSliceSize, MiB. rewrite Hc.
    destruct (0 <? custom) eqn:E; [lia|].
    apply Z.ltb_ge in E. lia.
Qed.

End SliceFacts.

Module DigestFacts.
Import JsInt MD5 Hex.
Local Open Scope Z_scope.

Lemma band_byte (x : Z) : 0 <= band x 0xff <= 255.
Proof.
  unfold band.
  change (toInt32 0xff) with (Z.ones 8).
  rewrite Z.land_ones by lia.
  generalize (toInt32 x). intro t.
  pose proof (Z.mod_pos_bound t (2 ^ 8) ltac:(reflexivity)) as H.
  unfold toInt32.
  change (2 ^ 8) with 256 in *. change (2 ^ 31) with 2147483648.
  change (2 ^ 32) with 4294967296.
  rewrite Z.mod_small by lia. lia.
Qed.

Lemma hexDigit_lower (n : Z) :
  0 <= n <= 15 -> isLowerHex (hexDigit n) = true.
Proof.
  intro H.
  assert (Hall : forallb (fun k => isLowerHex (hexDigit (Z.of_nat k)))
                   (seq 0 16) = true) by (vm_compute; reflexivity).
  rewrite forallb_forall in Hall.
  specialize (Hall (Z.to_nat n)). rewrite Z2Nat.id in Hall by lia.
  apply Hall. apply in_seq. lia.
Qed.

Lemma hexByte_shape (b : Z) :
  0 <= b <= 255 ->
  exists h l, hexByte b = String h (String l EmptyString)
              /\ isLowerHex h = true /\ isLowerHex l = true.
Proof.
  intro H. unfold hexByte. eexists. eexists. split; [reflexivity|].
  split; apply hexDigit_lower.
  - assert (b / 16 < 16) by (apply Z.div_lt_upper_bound; lia).
    split; [apply Z.div_pos; lia|lia].
  - pose proof (Z.mod_pos_bound b 16 ltac:(lia)). lia.
Qed.

Lemma toHex_shape (num : Z) :
  String.length (toHex num) = 8%nat
  /\ forallb isLowerHex (list_ascii_of_string (toHex num)) = true.
Proof.
  unfold toHex. cbn [fold_left].
  destruct (hexByte_shape _ (band_byte (shr num (0 * 8))))
    as (h0 & l0 & -> & H0 & L0).
  destruct (hexByte_shape _ (band_byte (shr num (1 * 8))))
    as (h1 & l1 & -> & H1 & L1).
  destruct (hexByte_shape _ (band_byte (shr num (2 * 8))))
    as (h2 & l2 & -> & H2 & L2).
  destruct (hexByte_shape _ (band_byte (shr num (3 * 8))))
    as (h3 & l3 & -> & H3 & L3).
  cbn. rewrite H0, L0, H1, L1, H2, L2, H3, L3. split; reflexivity.
Qed.

Lemma length_append (a b : string) :
  String.length (a ++ b) = (String.length a + String.length b)%nat.
Proof. induction a as [|c a IH]; cbn; [reflexivity|]. rewrite IH. reflexivity. Qed.

Lemma chars_of_append (a b : string) :
  list_ascii_of_string (a ++ b)
  = list_ascii_of_string a ++ list_ascii_of_string b.
Proof. induction a as [|c a IH]; cbn; [reflexivity|]. rewrite IH. reflexivity. Qed.

(** X5.  [md5Hex] returns 32 lower-case hexadecimal digits for every
    buffer. *)
Theorem X5_md5Hex_shape (buffer : list Byte.byte) :
  String.length (md5Hex buffer) = 32%nat
  /\ forallb isLowerHex (list_ascii_of_string (md5Hex buffer)) = true.
Proof.
  unfold md5Hex.
  destruct (blocks _ _ _ _) as [[[a b] c] d].
  destruct (toHex_shape a) as [La Ha]. destruct (toHex_shape b) as [Lb Hb].
  destruct (toHex_shape c) as [Lc Hc]. destruct (toHex_shape d) as [Ld Hd].
  split.
  - rewrite !length_append, La, Lb, Lc, Ld. reflexivity.
  - rewrite !chars_of_append, !forallb_app, Ha, Hb, Hc, Hd. reflexivity.
Qed.

End DigestFacts.

(** ** Escaped XML text *)

Module XmlFacts.
Import JsString Xml.

Lemma append_assoc (a b c : string) :
  ((a ++ b) ++ c)%string = (a ++ (b ++ c))%string.
Proof. induction a as [|x a IH]; cbn; [reflexivity|]. rewrite IH. reflexivity. Qed.

Lemma replaceEach_append (c : ascii) (r a b : string) :
  replaceEach c r (a ++ b) = (replaceEach c r a ++ replaceEach c r b)%string.
Proof.
  induction a as [|x a IH]; [reflexivity|].
  cbn [String.append replaceEach]. rewrite IH.
  destruct (Ascii.eqb x c); [|reflexivity].
  symmetry. apply append_assoc.
Qed.

(** The five passes of [escapeXml] on a text, given what they do to its
    first character. *)
Lemma escapeXml_cons (x : ascii) (t : string) :
  escapeXml (String x t) = (entity x ++ escapeXml t)%string.
Proof.
  unfold escapeXml, entity, quoteMark.
  cbn [replaceEach].
  destruct (Ascii.eqb_spec x "&") as [->|H1].
  { rewrite !replaceEach_append. reflexivity. }
  cbn [replaceEach].
  destruct (Ascii.eqb_spec x "<") as [->|H2].
  { rewrite !replaceEach_append. reflexivity. }
  cbn [replaceEach].
  destruct (Ascii.eqb_spec x ">") as [->|H3].
  { rewrite !replaceEach_append. reflexivity. }
  cbn [replaceEach].
  destruct (Ascii.eqb_spec x "034") as [->|H4].
  { rewrite !replaceEach_append. reflexivity. }
  cbn [replaceEach].
  destruct (Ascii.eqb_spec x "'") as [->|H5]; reflexivity.
Qed.

Lemma escapeXml_chars (s : string) : escapeXml s = escapeChars s.
Proof.
  induction s as [|x t IH]; [reflexivity|].
  rewrite escapeXml_cons, IH. reflexivity.
Qed.

Lemma entity_markupFree (c : ascii) :
  forallb markupFree (list_ascii_of_string (entity c)) = true.
Proof.
  unfold entity, quoteMark.
  destruct (Ascii.eqb c "&") eqn:H1; [reflexivity|].
  destruct (Ascii.eqb c "<") eqn:H2; [reflexivity|].
  destruct (Ascii.eqb c ">") eqn:H3; [reflexivity|].
  destruct (Ascii.eqb c "034") eqn:H4; [reflexivity|].
  destruct (Ascii.eqb c "'") eqn:H5; [reflexivity|].
  cbn. unfold markupFree, quoteMark. rewrite H2, H3, H4, H5. reflexivity.
Qed.

(** X6.  The five successive replacements of [escapeXml] amount to one
    pass that writes each character as its entity, so that the
    ampersand of an entity is not escaped again; and the result holds
    none of the characters [<], [>], the double quote and the
    apostrophe. *)
Theorem X6_escapeXml_one_pass (str : string) :
  escapeXml str = escapeChars str
  /\ forallb markupFree (list_ascii_of_string (escapeXml str)) = true.
Proof.
  split; [apply escapeXml_chars|].
  rewrite escapeXml_chars.
  induction str as [|c t IH]; [reflexivity|].
  cbn [escapeChars]. rewrite DigestFacts.chars_of_append, forallb_app.
  rewrite entity_markupFree, IH. reflexivity.
Qed.

Lemma entity_cons (c : ascii) :
  exists d r, entity c = String d r.
Proof.
  unfold entity.
  repeat match goal with
         | |- context [if ?b then _ else _] => destruct b
         end; eexists; eexists; reflexivity.
Qed.

(** The entities form a prefix code. *)
Lemma entity_prefix_code (x y : ascii) (a b : string) :
  (entity x ++ a)%string = (entity y ++ b)%string -> x = y /\ a = b.
Proof.
  unfold entity, quoteMark.
  destruct (Ascii.eqb_spec x "&") as [->|X1];
    [|destruct (Ascii.eqb_spec x "<") as [->|X2];
      [|destruct (Ascii.eqb_spec x ">") as [->|X3];
        [|destruct (Ascii.eqb_spec x "034") as [->|X4];
          [|destruct (Ascii.eqb_spec x "'") as [->|X5]]]]];
    (destruct (Ascii.eqb_spec y "&") as [->|Y1];
     [|destruct (Ascii.eqb_spec y "<") as [->|Y2];
       [|destruct (Ascii.eqb_spec y ">") as [->|Y3];
         [|destruct (Ascii.eqb_spec y "034") as [->|Y4];
           [|destruct (Ascii.eqb_spec y "'") as [->|Y5]]]]]);
    cbn [String.append]; intro H; inversion H; subst;
    first [split; reflexivity | contradiction | congruence].
Qed.

(** X7.  [escapeXml] is injective: two texts with the same escaped form
    are the same text. *)
Theorem X7_escapeXml_injective (a b : string) :
  escapeXml a = escapeXml b -> a = b.
Proof.
  rewrite !escapeXml_chars. revert b.
  induction a as [|x a IH]; intros [|y b] H.
  - reflexivity.
  - cbn [escapeChars] in H. destruct (entity_cons y) as (d & r & E).
    rewrite E in H. discriminate.
  - cbn [escapeChars] in H. destruct (entity_cons x) as (d & r & E).
    rewrite E in H. discriminate.
  - cbn [escapeChars] in H. apply entity_prefix_code in H.
    destruct H as [-> H]. f_equal. exact (IH b H).
Qed.

Lemma X7_escapeXml_injective_witness :
  escapeXml "a<b" = escapeXml "a<b" /\ "a<b" = "a<b".
Proof.
  split; [reflexivity|].
  apply (X7_escapeXml_injective "a<b" "a<b"). reflexivity.
Defined.

End XmlFacts.

(** ** Audit log *)

Module AuditFacts.
Import JsString Json Audit.
Local Open Scope Z_scope.

(** X8.  [pickClientIp] never returns the empty text; a non-empty
    CF-Connecting-IP header is returned as it is; and a non-empty
    X-Forwarded-For header decides the result alone when
    CF-Connecting-IP is not sent: X-Real-IP is then not consulted, also
    when the first forwarded entry is blank and the result is null. *)
Theorem X8_pickClientIp_precedence (request : Headers) :
  pickClientIp request <> Some ""
  /\ (forall ip, cfConnectingIp request = Some ip -> ip <> "" ->
        pickClientIp request = Some ip)
  /\ (truthyOpt (cfConnectingIp request) = false ->
      truthyOpt (xForwardedFor request) = true ->
      forall realIp,
        pickClientIp request
        = pickClientIp
            (mkHeaders (cfConnectingIp request) (xForwardedFor request)
               realIp (userAgentHeader request))).
Proof.
  split; [|split].
  - unfold pickClientIp.
    destruct (truthyOpt (cfConnectingIp request)) eqn:Hcf.
    { destruct (cfConnectingIp request) as [[|c t]|]; discriminate. }
    destruct (truthyOpt (xForwardedFor request)) eqn:Hx.
    { destruct (truthy (trim _)) eqn:Ht; [|discriminate].
      intro E. injection E as E. rewrite E in Ht. discriminate. }
    destruct (truthyOpt (xRealIp request)) eqn:Hr; [|discriminate].
    destruct (xRealIp request) as [[|c t]|]; discriminate.
  - intros ip Hcf Hne. unfold pickClientIp. rewrite Hcf.
    destruct ip; [contradiction|reflexivity].
  - intros Hcf Hxff realIp. unfold pickClientIp. cbn.
    rewrite Hcf, Hxff. reflexivity.
Qed.

Lemma firstn_short {A : Type} (n : nat) (l : list A) :
  (List.length l <= n)%nat -> firstn n l = l.
Proof. intro H. apply firstn_all2. exact H. Qed.

Lemma clip_spec (s : wstring) :
  clip s = firstn 2000 s /\ (List.length (clip s) <= 2000)%nat.
Proof.
  unfold clip. destruct (Nat.ltb 2000 (List.length s)) eqn:E.
  - split; [reflexivity|]. apply firstn_le_length.
  - apply Nat.ltb_ge in E. split; [|exact E].
    symmetry. apply firstn_short. exact E.
Qed.


Lemma auditQuery_spec (f : Filter) :
  placeholders (fst (auditQuery f)) = List.length (snd (auditQuery f))
  /\ limitAndOffset (snd (auditQuery f))
     = Some (BindNumber (match limit f with Some n => n | None => Int 200 end),
             BindNumber (match offset f with Some n => n | None => Int 0 end)).
Proof.
  unfold auditQuery.
  destruct (truthyOpt (action f));
    destruct (storageId f) as [[|z]|];
    destruct (truthyOpt (userType f));
    cbn [fst snd]; split; reflexivity.
Qed.

(** X10.  The statement that [getAuditLogs] prepares has exactly as many
    placeholders as values are bound to it, for every combination of
    filters, and the last two values are the limit and the offset, 200
    and 0 when they are not given. *)
Theorem X10_auditQuery_placeholders (f : Filter) :
  placeholders (fst (auditQuery f)) = List.length (snd (auditQuery f))
  /\ limitAndOffset (snd (auditQuery f))
     = Some (BindNumber (match limit f with Some n => n | None => Int 200 end),
             BindNumber (match offset f with Some n => n | None => Int 0 end)).
Proof. apply auditQuery_spec. Qed.

Lemma limit_capped (s : string) :
  exists l,
    (if isNaN (mathMin (parseNumber s) 500) then Int 200
     else mathMin (parseNumber s) 500) = Int l
    /\ l <= 500.
Proof.
  destruct (parseNumber s) as [|z]; cbn.
  - exists 200. split; [reflexivity|lia].
  - exists (Z.min z 500). split; [reflexivity|lia].
Qed.

Lemma offset_number (s : string) :
  exists o,
    (if isNaN (parseNumber s) then Int 0 else parseNumber s) = Int o.
Proof.
  destruct (parseNumber s) as [|z]; cbn; eexists; reflexivity.
Qed.


End AuditFacts.

(** ** WebDAV bridge: further properties of the handlers *)

Module BridgeFacts.
Import JsString Provider Drive WebDav Bridge WebDavFacts.
Local Open Scope Z_scope.

(** The tests of the method that a known method decides. *)
Ltac decide_method Hm :=
  repeat match goal with
         | E : String.eqb (toUpperCase _) _ = _ |- _ =>
             rewrite Hm in E; vm_compute in E;
             first [discriminate E | clear E]
         end.

(** X12.  A MOVE deletes the source only after the copy has succeeded:
    whenever a MOVE request makes the bridge invoke [deleteObject], the
    adapter had carried out a [copyObject] before (the client has no
    [moveObject]), so a failed copy never costs the source. *)
Theorem X12_move_deletes_after_copy :
  forall (services : Services) (classes : Classes) (request : Request)
         (params : Params) (env : Env) r s,
    toUpperCase (method request) = "MOVE" ->
    action services classes request params env start = (r, s) ->
    existsb isDelete (events s) = true ->
    exists before after,
      events s = before ++ after
      /\ existsb isCopied before = true
      /\ existsb isDelete before = false.
Proof.
  intros services classes request params env r s Hm H Hdel.
  unfold start in H.
  handler_cases H; decide_method Hm; try discriminate;
    cbn in Hdel; try discriminate.
  all: cbn [events app isOk].
  all: match goal with
       | |- exists before after, ?a :: ?b :: ?c :: ?rest = _ /\ _ =>
           exists [a; b; c], rest; repeat split; reflexivity
       end.
Qed.

Lemma X12_move_deletes_after_copy_witness :
  exists before after,
    events (snd (action sampleServices copyingClasses moveRequest
                   sampleParams (sampleEnv (Some "true")) start))
    = before ++ after
    /\ existsb isCopied before = true
    /\ existsb isDelete before = false.
Proof.
  apply (X12_move_deletes_after_copy sampleServices copyingClasses
           moveRequest sampleParams (sampleEnv (Some "true"))
           (fst (action sampleServices copyingClasses moveRequest
                   sampleParams (sampleEnv (Some "true")) start))
           (snd (action sampleServices copyingClasses moveRequest
                   sampleParams (sampleEnv (Some "true")) start))).
  - reflexivity.
  - apply surjective_pairing.
  - vm_compute. reflexivity.
Defined.

End BridgeFacts.

(** ** WebDAV bridge: destinations, persistence and HEAD *)

Module BridgeMoreFacts.
Import JsString Provider Drive WebDav Bridge WebDavFacts BridgeFacts.
Local Open Scope Z_scope.

(** X13.  COPY and MOVE reach the adapter only with a destination: when
    the Destination header is missing or empty, or is not a URL, the
    bridge invokes no adapter operation and does not answer 201. *)
Theorem X13_destination_required :
  forall (services : Services) (classes : Classes) (request : Request)
         (params : Params) (env : Env) r s,
    toUpperCase (method request) = "COPY"
    \/ toUpperCase (method request) = "MOVE" ->
    truthyOpt (destination request) = false
    \/ urlPathname services (orElse (destination request) "") = None ->
    action services classes request params env start = (r, s) ->
    existsb isInvoked (events s) = false /\ r <> Ok (created 201).
Proof.
  intros services classes request params env r s Hm Hd H.
  unfold start in H.
  destruct Hm as [Hm|Hm];
    handler_cases H; decide_method Hm; try discriminate;
    cbn [events app existsb isInvoked orb];
    try (split; [reflexivity|discriminate]);
    (destruct Hd as [Hd|Hd]; [rewrite Hd in *; discriminate|congruence]).
Qed.

Lemma X13_destination_required_witness :
  existsb isInvoked
    (events (snd (action sampleServices sampleClasses
                    (sampleRequest "COPY" defaultAuthorization) sampleParams
                    (sampleEnv (Some "true")) start)))
  = false
  /\ fst (action sampleServices sampleClasses
            (sampleRequest "COPY" defaultAuthorization) sampleParams
            (sampleEnv (Some "true")) start)
     <> Ok (created 201).
Proof.
  apply (X13_destination_required sampleServices sampleClasses
           (sampleRequest "COPY" defaultAuthorization) sampleParams
           (sampleEnv (Some "true"))).
  - left. reflexivity.
  - left. reflexivity.
  - apply surjective_pairing.
Defined.

End BridgeMoreFacts.

(** ** WebDAV bridge: persistence failures *)

Module BridgePersistFacts.
Import JsString Provider Drive WebDav Bridge WebDavFacts BridgeFacts.
Local Open Scope Z_scope.

Ltac both_cases H1 H2 :=
  unfold loader, action, destinationPath, bind, ret, throw, tryCatch,
    withClientState, invoke, persistClientState, query, construct,
    withUpdateStorage in H1, H2;
  unfold ret, throw in H1, H2;
  cbn [instance events initDatabase getAllStorages getStorageById
       updateStorage urlPathname] in H1, H2;
  repeat (case_step;
          cbn [instance events fst snd initDatabase getAllStorages
               getStorageById updateStorage urlPathname] in * ).

Lemma action_ignores_persistence services update classes request params env :
  fst (action (withUpdateStorage update services) classes request params env
         start)
  = fst (action services classes request params env start).
Proof.
  destruct (action (withUpdateStorage update services) classes request
              params env start) as [r1 s1] eqn:H1.
  destruct (action services classes request params env start)
    as [r2 s2] eqn:H2.
  cbn [fst]. unfold start in H1, H2.
  both_cases H1 H2; congruence.
Qed.

Lemma loader_ignores_persistence services update classes request params env :
  fst (loader (withUpdateStorage update services) classes request params env
         start)
  = fst (loader services classes request params env start).
Proof.
  destruct (loader (withUpdateStorage update services) classes request
              params env start) as [r1 s1] eqn:H1.
  destruct (loader services classes request params env start)
    as [r2 s2] eqn:H2.
  cbn [fst]. unfold start in H1, H2.
  both_cases H1 H2; congruence.
Qed.

(** X14.  What the configuration store answers to [updateStorage] does
    not reach the client: with any other outcome of the writes, the
    loader and the action give the same response, or reject with the
    same error.  A failure to persist the adapter's state is only
    logged. *)
Theorem X14_persistence_failure_is_swallowed :
  forall (services : Services)
         (update : nat -> option Z -> UpdateInput -> result unit)
         (classes : Classes) (request : Request) (params : Params)
         (env : Env),
    fst (loader (withUpdateStorage update services) classes request params
           env start)
    = fst (loader services classes request params env start)
    /\ fst (action (withUpdateStorage update services) classes request
              params env start)
       = fst (action services classes request params env start).
Proof.
  intros. split.
  - apply loader_ignores_persistence.
  - apply action_ignores_persistence.
Qed.

End BridgePersistFacts.

(** ** WebDAV bridge: HEAD *)

Module BridgeHeadFacts.
Import JsString Provider Drive WebDav Bridge WebDavFacts BridgeFacts.
Local Open Scope Z_scope.

Ltac closed_tests H :=
  repeat match type of H with
         | context [String.eqb ?a ?b] =>
             let v := eval vm_compute in (String.eqb a b) in
             change (String.eqb a b) with v in H
         end.

Ltac head_get_cases H1 H2 :=
  unfold loader, bind, ret, throw, tryCatch, withClientState, invoke,
    persistClientState, query, construct in H1, H2;
  unfold ret, throw in H1, H2;
  cbn [instance events method withMethod authorization url] in H1, H2;
  change (toUpperCase "HEAD") with "HEAD" in H1;
  change (toUpperCase "GET") with "GET" in H2;
  closed_tests H1; closed_tests H2;
  cbn [orb negb] in H1, H2;
  repeat (case_step; cbn [instance events fst snd] in * ).

(** X15.  A HEAD request is served like the GET request for the same
    resource: the loader makes the same calls to the store and to the
    adapter, and answers with the same status and the same headers;
    the body is the one of GET or empty.  Both reject alike. *)
Theorem X15_head_like_get :
  forall (services : Services) (classes : Classes) (request : Request)
         (params : Params) (env : Env),
    let head :=
      loader services classes (withMethod "HEAD" request) params env start in
    let get :=
      loader services classes (withMethod "GET" request) params env start in
    snd head = snd get
    /\ match fst head, fst get with
       | Ok h, Ok g =>
           status h = status g /\ headers h = headers g
           /\ (responseBody h = responseBody g \/ responseBody h = NoBody)
       | Err a, Err b => a = b
       | _, _ => False
       end.
Proof.
  intros services classes request params env. cbv zeta.
  assert (Hauth : validateWebdavAuth (withMethod "HEAD" request) env
                  = validateWebdavAuth (withMethod "GET" request) env)
    by reflexivity.
  destruct (loader services classes (withMethod "HEAD" request) params env
              start) as [r1 s1] eqn:H1.
  destruct (loader services classes (withMethod "GET" request) params env
              start) as [r2 s2] eqn:H2.
  unfold start in H1, H2. cbn [fst snd].
  unfold loader in H1, H2. rewrite Hauth in H1.
  head_get_cases H1 H2; try congruence;
    cbn [status headers responseBody]; auto.
Qed.

End BridgeHeadFacts.

(** ** Listings keep every entry *)

Module ListingEntriesFacts.
Import JsString DriveUtils Drive.
Local Open Scope Z_scope.

Lemma Permutation_filter_same {A : Type} (p : A -> bool) (l l' : list A) :
  Permutation l l' -> Permutation (filter p l) (filter p l').
Proof.
  induction 1 as [|x l l' _ IH|x y l|l l' l'' _ IH1 _ IH2]; cbn.
  - constructor.
  - destruct (p x); [constructor|]; exact IH.
  - destruct (p x), (p y); try constructor; apply Permutation_refl.
  - eapply Permutation_trans; eassumption.
Qed.

(** What the adapters assemble keeps the collected entries. *)
Lemma assembled_entries {F : Type} (cmp : DriveObject -> DriveObject -> Z)
  (f : F -> DriveObject) (files : list F) (truncated : bool)
  (token : option string) :
  let r :=
    let '(objects, prefixes) := collect f files in
    mkListObjectsResult (sortBy cmp objects) prefixes truncated token in
  Permutation (map f files) (objects r)
  /\ Permutation (prefixes r) (map key (filter isDirectory (objects r))).
Proof.
  cbv zeta. rewrite ListingFacts.collect_spec. cbn [objects prefixes].
  pose proof (ListingFacts.sortBy_perm _ cmp (map f files)) as Hp.
  split; [exact Hp|].
  apply Permutation_map, Permutation_filter_same. exact Hp.
Qed.

Lemma names_of {F : Type} (f : F -> DriveObject) (nameOf : F -> string)
  (files : list F) (os : list DriveObject) :
  (forall x, name (f x) = nameOf x) ->
  Permutation (map f files) os ->
  Permutation (map nameOf files) (map name os).
Proof.
  intros Hn Hp.
  replace (map nameOf files) with (map name (map f files)).
  - apply Permutation_map. exact Hp.
  - rewrite map_map. apply map_ext. exact Hn.
Qed.

(** X16.  The listings of the four adapters keep every entry of the
    provider's answer: the names of [objects] are the names the provider
    sent, each as often as it was sent, whatever the comparator does;
    and [prefixes] holds exactly the keys of the directories of
    [objects], each as often as it is listed.  (Google Drive and Aliyun:
    for a folder that was found.) *)
Theorem X16_listing_keeps_entries :
  forall localeCompare : string -> string -> Z,
    (forall toISOString prefix files,
        let r := Baidu.buildListing localeCompare toISOString prefix files in
        Permutation (map Baidu.server_filename files) (map name (objects r))
        /\ Permutation (prefixes r)
             (map key (filter isDirectory (objects r))))
    /\ (forall parseInt prefix folderId result,
        truthyOpt folderId = true ->
        let r := GoogleDrive.buildListing localeCompare parseInt prefix
                   folderId result in
        Permutation
          (map GoogleDrive.name
             (match GoogleDrive.files result with
              | Some l => l
              | None => []
              end))
          (map name (objects r))
        /\ Permutation (prefixes r)
             (map key (filter isDirectory (objects r))))
    /\ (forall prefix result,
        let r := OneDrive.buildListing localeCompare prefix result in
        Permutation (map OneDrive.name (OneDrive.value result))
          (map name (objects r))
        /\ Permutation (prefixes r)
             (map key (filter isDirectory (objects r))))
    /\ (forall prefix folderId response,
        truthyOpt folderId = true ->
        let r := Aliyun.buildListing localeCompare prefix folderId
                   response in
        Permutation
          (map Aliyun.name
             (match Aliyun.items response with
              | Some l => l
              | None => []
              end))
          (map name (objects r))
        /\ Permutation (prefixes r)
             (map key (filter isDirectory (objects r)))).
Proof.
  intro lc. split; [|split; [|split]].
  - intros toISO prefix files. cbv zeta. unfold Baidu.buildListing.
    destruct (assembled_entries (compareObjects lc)
                (Baidu.toDriveObject toISO
                   (if truthy prefix
                    then (stripTrailingSlash (stripLeadingSlash prefix)
                          ++ "/")%string
                    else ""))
                files false None) as [H1 H2].
    split; [|exact H2].
    eapply names_of; [|exact H1]. reflexivity.
  - intros parseInt prefix folderId result Hf. cbv zeta.
    unfold GoogleDrive.buildListing. rewrite Hf. cbn [negb].
    match goal with
    | |- context [collect ?f ?l] =>
        destruct (assembled_entries (compareObjects lc) f l
                    (truthyOpt (GoogleDrive.nextPageToken result))
                    (GoogleDrive.nextPageToken result)) as [H1 H2]
    end.
    split; [|exact H2].
    eapply names_of; [|exact H1]. reflexivity.
  - intros prefix result. cbv zeta. unfold OneDrive.buildListing.
    match goal with
    | |- context [collect ?f ?l] =>
        destruct (assembled_entries (compareObjects lc) f l
                    (truthyOpt (OneDrive.nextLink result))
                    (OneDrive.nextLink result)) as [H1 H2]
    end.
    split; [|exact H2].
    eapply names_of; [|exact H1]. reflexivity.
  - intros prefix folderId response Hf. cbv zeta.
    unfold Aliyun.buildListing. rewrite Hf. cbn [negb].
    match goal with
    | |- context [collect ?f ?l] =>
        destruct (assembled_entries (compareObjects lc) f l
                    (truthyOpt (Aliyun.next_marker response))
                    (Aliyun.next_marker response)) as [H1 H2]
    end.
    split; [|exact H2].
    eapply names_of; [|exact H1]. reflexivity.
Qed.

End ListingEntriesFacts.

(** ** Upload tokens with foreign characters *)

Module TokenFacts.
Import JsString Base64 UploadState Token.

Lemma foreign_spec (c : ascii) :
  foreign c = true ->
  decodeChar c = None /\ isAsciiWhitespace c = false
  /\ Ascii.eqb c "=" = false /\ swap "_" "/" (swap "-" "+" c) = c.
Proof.
  destruct c as [[] [] [] [] [] [] [] []]; vm_compute;
    intro H; try discriminate H; repeat split.
Qed.

Lemma decodeChars_foreign (c : ascii) (l : list ascii) :
  In c l -> decodeChar c = None -> decodeChars l = None.
Proof.
  intros Hin Hc. induction l as [|x l IH]; [contradiction|].
  cbn [decodeChars]. destruct Hin as [->|Hin].
  - rewrite Hc. reflexivity.
  - rewrite (IH Hin). destruct (decodeChar x); reflexivity.
Qed.

Lemma dropPadding_keeps (c : ascii) (l : list ascii) :
  In c l -> Ascii.eqb c "=" = false -> In c (dropPadding l).
Proof.
  intros Hin Hc. unfold dropPadding.
  assert (Hrev : In c (rev l)) by (apply in_rev in Hin; exact Hin).
  destruct (rev l) as [|x r]; [exact Hin|].
  destruct (Ascii.eqb_spec x "=") as [->|Hx].
  - destruct Hrev as [<-|Hrev]; [discriminate Hc|].
    destruct r as [|y r']; [contradiction|].
    destruct (Ascii.eqb_spec y "=") as [->|Hy].
    + destruct Hrev as [<-|Hrev]; [discriminate Hc|].
      apply in_rev in Hrev. exact Hrev.
    + assert (E : match y with
                  | "="%char => rev r'
                  | _ => rev (y :: r')
                  end = rev (y :: r')).
      { destruct y as [[] [] [] [] [] [] [] []]; try reflexivity.
        contradiction Hy. reflexivity. }
      rewrite E. apply in_rev in Hrev. exact Hrev.
  - assert (E : match x with
                | "="%char =>
                    match r with
                    | "="%char :: r0 => rev r0
                    | _ => rev r
                    end
                | _ => l
                end = l).
    { destruct x as [[] [] [] [] [] [] [] []]; try reflexivity.
      contradiction Hx. reflexivity. }
    rewrite E. exact Hin.
Qed.

Lemma atob_foreign (c : ascii) (s : string) :
  In c (list_ascii_of_string s) -> foreign c = true -> atob s = None.
Proof.
  intros Hin Hf. destruct (foreign_spec c Hf) as (Hd & Hw & He & _).
  unfold atob, atobBytes.
  set (data := filter (fun x => negb (isAsciiWhitespace x))
                 (list_ascii_of_string s)).
  assert (Hdata : In c data).
  { unfold data. apply filter_In. split; [exact Hin|].
    rewrite Hw. reflexivity. }
  destruct (Nat.eqb (Nat.modulo (List.length data) 4) 0).
  - pose proof (dropPadding_keeps c data Hdata He) as Hkept.
    destruct (Nat.eqb (Nat.modulo (List.length (dropPadding data)) 4) 1);
      [reflexivity|].
    rewrite (decodeChars_foreign c _ Hkept Hd). reflexivity.
  - destruct (Nat.eqb (Nat.modulo (List.length data) 4) 1); [reflexivity|].
    rewrite (decodeChars_foreign c _ Hdata Hd). reflexivity.
Qed.

(** X17.  [decodeUploadState] rejects every token that holds a character
    outside the base64 alphabets, the padding character and ASCII white
    space: [atob] throws InvalidCharacterError, before anything is
    parsed. *)
Theorem X17_decode_rejects_foreign_characters (token : string) (c : ascii) :
  In c (list_ascii_of_string token) -> foreign c = true ->
  decodeUploadState token = Err "InvalidCharacterError".
Proof.
  intros Hin Hf. destruct (foreign_spec c Hf) as (_ & _ & _ & Hs).
  unfold decodeUploadState. cbv zeta.
  rewrite (atob_foreign c); [reflexivity| |exact Hf].
  rewrite Base64Facts.chars_append. apply in_or_app. left.
  rewrite <- (string_of_list_ascii_of_string token).
  rewrite !UploadStateFacts.replaceAll_text.
  rewrite list_ascii_of_string_of_list_ascii, map_map.
  rewrite <- Hs. apply in_map_iff.
  exists c. split; [reflexivity|exact Hin].
Qed.

Lemma X17_decode_rejects_foreign_characters_witness :
  In "!"%char (list_ascii_of_string "e30!") /\ foreign "!" = true
  /\ decodeUploadState "e30!" = Err "InvalidCharacterError".
Proof.
  assert (Hin : In "!"%char (list_ascii_of_string "e30!"))
    by (cbn; auto).
  split; [exact Hin|]. split; [reflexivity|].
  apply (X17_decode_rejects_foreign_characters "e30!" "!" Hin).
  reflexivity.
Defined.

End TokenFacts.

(** ** Aliyun Drive: paths *)

Module AliyunFilesFacts.
Import JsString DriveUtils Aliyun AliyunFiles.

Lemma segments_stripLeadingSlash (path : string) :
  segments (stripLeadingSlash path) = segments path.
Proof.
  unfold segments, stripLeadingSlash, startsWithSlash, slice1.
  destruct path as [|c t]; [reflexivity|].
  destruct (Ascii.eqb c "/") eqn:E; [|reflexivity].
  cbn [split]. rewrite E. reflexivity.
Qed.

Lemma findFileIdByPath_segments (S : Type)
  (listFiles : string -> Async S (list AliyunFile))
  (root : option string) (path : string) (s : S) :
  findFileIdByPath listFiles root path s
  = resolveParts listFiles (segments path) (getRootId root) s.
Proof.
  unfold findFileIdByPath. rewrite <- segments_stripLeadingSlash.
  destruct (stripLeadingSlash path) as [|c t]; reflexivity.
Qed.

(** X18.  [findFileIdByPath] of the Aliyun adapter resolves the parts of
    the path that are not empty, one listing per part, from the root
    folder: two paths with the same non-empty parts (a leading, a
    trailing or a doubled separator more or less) resolve alike, and a
    path without such parts is the root folder, found without any
    listing. *)
Theorem X18_findFileIdByPath_segments (S : Type)
  (listFiles : string -> Async S (list AliyunFile))
  (root : option string) (path : string) (s : S) :
  findFileIdByPath listFiles root path s
  = resolveParts listFiles (segments path) (getRootId root) s
  /\ (forall other,
        segments other = segments path ->
        findFileIdByPath listFiles root other s
        = findFileIdByPath listFiles root path s)
  /\ (segments path = [] ->
      findFileIdByPath listFiles root path s = (Ok (Some (getRootId root)), s)).
Proof.
  split; [apply findFileIdByPath_segments|]. split.
  - intros other H. rewrite !findFileIdByPath_segments, H. reflexivity.
  - intro H. rewrite findFileIdByPath_segments, H. reflexivity.
Qed.

Example findFileIdByPath_sample :
  findFileIdByPath sampleList None "//docs//a.txt/" 0
  = (Ok (Some "f2"), 2)
  /\ findFileIdByPath sampleList None "docs/b.txt" 0 = (Ok None, 2)
  /\ findFileIdByPath sampleList None "///" 0 = (Ok (Some "root"), 0).
Proof. vm_compute. repeat split. Qed.

End AliyunFilesFacts.

(** ** Resumable uploads *)

Module ResumableFacts.
Import JsString Provider Resumable.
Local Open Scope Z_scope.

Section Parts.
Variable accepted : Z.
Variable failure : string.
Variable readState : string -> result UploadSession.
Variable uploadId : string.
Variable state : UploadSession.
Variable data : list Byte.byte.
Hypothesis Hstate : readState uploadId = Ok state.
Hypothesis Hchunk : 0 < chunkSize state.

Let c := chunkSize state.
Let total := Z.of_nat (List.length data).
Let K := (total + c - 1) / c.

Lemma part_before (i : Z) : 0 <= i -> (i * c < total <-> i < K).
Proof. intros _. apply BaiduFacts.ceil_div_gt. exact Hchunk. Qed.

Lemma K_nonneg : 0 <= K.
Proof.
  unfold K. apply Z.div_pos; [|exact Hchunk].
  unfold total, c in *. lia.
Qed.

Lemma sliceBuffer_inside (a b : Z) :
  0 <= a <= b -> b <= total ->
  sliceBuffer data a b
  = firstn (Z.to_nat (b - a)) (skipn (Z.to_nat a) data).
Proof.
  intros Ha Hb. unfold sliceBuffer, clampIndex. fold total.
  destruct (a <? 0) eqn:Ea; [apply Z.ltb_lt in Ea; lia|].
  destruct (b <? 0) eqn:Eb; [apply Z.ltb_lt in Eb; lia|].
  rewrite !Z.min_l by lia. rewrite Z.max_l by lia. reflexivity.
Qed.

Lemma sliceBuffer_length (a b : Z) :
  0 <= a <= b -> b <= total ->
  Z.of_nat (List.length (sliceBuffer data a b)) = b - a.
Proof.
  intros Ha Hb. rewrite sliceBuffer_inside by assumption.
  rewrite length_firstn, length_skipn. unfold total in Hb. lia.
Qed.

(** One iteration: the part that begins at byte [i * c]. *)
Lemma uploadPart_at (i : nat) (r : PartReply) (rest : list PartReply)
  (out : list PartRequest) :
  Z.of_nat i < K -> goesOn accepted r = true ->
  exists tag,
    uploadPart accepted failure readState uploadId (Z.of_nat i + 1)
      (sliceBuffer data (Z.of_nat i * c)
         (Z.min (Z.of_nat i * c + c) total))
      (Some (Z.of_nat
               (List.length
                  (sliceBuffer data (Z.of_nat i * c)
                     (Z.min (Z.of_nat i * c + c) total)))))
      (mkNet (r :: rest) out)
    = (Ok tag, mkNet rest (out ++ [partRequestAt state data i])).
Proof.
  intros Hi Hr. apply part_before in Hi; [|lia].
  unfold uploadPart. rewrite Hstate.
  assert (Hlen : Z.of_nat
                   (List.length
                      (sliceBuffer data (Z.of_nat i * c)
                         (Z.min (Z.of_nat i * c + c) total)))
                 = Z.min (Z.of_nat i * c + c) total - Z.of_nat i * c).
  { apply sliceBuffer_length; lia. }
  rewrite Hlen.
  assert (Hpos : 0 < Z.min (Z.of_nat i * c + c) total - Z.of_nat i * c)
    by lia.
  unfold truthyNum.
  destruct (Z.eqb_spec (Z.min (Z.of_nat i * c + c) total - Z.of_nat i * c) 0)
    as [E|_]; [lia|]. cbn [negb].
  unfold bind, fetchPart. cbn [replies sent].
  unfold goesOn in Hr.
  replace (negb (replyOk r) && negb (status r =? accepted)) with false
    by (destruct (replyOk r), (status r =? accepted); cbn in *; congruence).
  unfold ret. eexists. f_equal. f_equal. f_equal.
  unfold partRequestAt. fold c. fold total.
  replace (Z.of_nat i + 1 - 1) with (Z.of_nat i) by lia.
  replace (Z.of_nat i * c
           + (Z.min (Z.of_nat i * c + c) total - Z.of_nat i * c) - 1)
    with (Z.min (Z.of_nat i * c + c) total - 1) by lia.
  reflexivity.
Qed.

Lemma uploadParts_ok (remaining : nat) :
  forall (i fuel : nat) (w : Net),
    Z.of_nat i + Z.of_nat remaining = K ->
    (remaining <= fuel)%nat ->
    (remaining <= List.length (replies w))%nat ->
    forallb (goesOn accepted) (firstn remaining (replies w)) = true ->
    uploadParts accepted failure readState fuel uploadId data c total
      (Z.min (Z.of_nat i * c) total) (Z.of_nat i + 1) w
    = (Ok tt,
       mkNet (skipn remaining (replies w))
         (sent w ++ map (partRequestAt state data) (seq i remaining))).
Proof.
  induction remaining as [|remaining IH];
    intros i fuel w Hi Hfuel Hreplies Hgo.
  - assert (Hend : ~ Z.of_nat i * c < total)
      by (rewrite part_before by lia; lia).
    assert (E : (Z.min (Z.of_nat i * c) total <? total) = false)
      by (apply Z.ltb_ge; lia).
    cbn [skipn seq map]. rewrite app_nil_r.
    destruct fuel; cbn [uploadParts]; rewrite E; destruct w; reflexivity.
  - assert (Hin : Z.of_nat i < K) by lia.
    pose proof Hin as Hlt. apply part_before in Hlt; [|lia].
    destruct fuel as [|fuel]; [lia|].
    destruct w as [[|r rest] out]; [cbn in Hreplies; lia|].
    cbn [replies firstn forallb] in Hgo, Hreplies.
    apply andb_prop in Hgo. destruct Hgo as [Hr Hgo].
    cbn [uploadParts].
    rewrite Z.min_l by lia.
    assert (E : (Z.of_nat i * c <? total) = true) by (apply Z.ltb_lt; lia).
    rewrite E. unfold bind at 1.
    destruct (uploadPart_at i r rest out Hin Hr) as (tag & Hpart).
    rewrite Hpart.
    replace (Z.min (Z.of_nat i * c + c) total)
      with (Z.min (Z.of_nat (S i) * c) total) by (f_equal; lia).
    replace (Z.of_nat i + 1 + 1) with (Z.of_nat (S i) + 1) by lia.
    rewrite (IH (S i) fuel (mkNet rest (out ++ [partRequestAt state data i]))).
    + cbn [replies sent skipn seq map]. rewrite <- app_assoc. reflexivity.
    + lia.
    + lia.
    + cbn [replies] in *. cbn in Hreplies. lia.
    + exact Hgo.
Qed.

(** The chunks of the parts, one after the other, are the data. *)
Lemma chunks_from (remaining : nat) :
  forall i : nat,
    Z.of_nat i + Z.of_nat remaining = K ->
    concat (map (fun j => content (partRequestAt state data j))
              (seq i remaining))
    = skipn (Z.to_nat (Z.min (Z.of_nat i * c) total)) data.
Proof.
  induction remaining as [|remaining IH]; intros i Hi.
  - assert (Hend : ~ Z.of_nat i * c < total)
      by (rewrite part_before by lia; lia).
    cbn [seq map concat]. rewrite Z.min_r by lia.
    unfold total. rewrite Nat2Z.id. symmetry. apply skipn_all.
  - assert (Hlt : Z.of_nat i * c < total)
      by (apply part_before; lia).
    assert (Hc : 0 < c) by exact Hchunk.
    assert (Ha : 0 <= Z.of_nat i * c) by (apply Z.mul_nonneg_nonneg; lia).
    cbn [seq map concat]. rewrite (IH (S i)) by lia.
    unfold partRequestAt. cbn [content]. fold c. fold total.
    rewrite sliceBuffer_inside by lia.
    rewrite (Z.min_l (Z.of_nat i * c) total) by lia.
    replace (Z.of_nat (S i) * c) with (Z.of_nat i * c + c) by lia.
    set (a := Z.of_nat i * c). set (b := Z.min (a + c) total).
    replace (Z.to_nat b) with (Z.to_nat (b - a) + Z.to_nat a)%nat
      by (unfold a, b in *; lia).
    rewrite <- skipn_skipn. apply firstn_skipn.
Qed.

End Parts.

(** X19.  The resumable upload of Google Drive and OneDrive sends the
    body in consecutive parts.  When the token holds a positive chunk
    size and the provider lets every part go on, the loop of
    [putObject] ends after as many PUT requests as the body has chunks,
    part [i] (from 0) carrying the bytes from [i * chunkSize] up to the
    next multiple or the end of the body, under the Content-Range of
    exactly these bytes; the parts, one after the other, are the
    body. *)
Theorem X19_resumable_parts_tile :
  forall (accepted : Z) (failure : string)
         (readState : string -> result UploadSession) (uploadId : string)
         (state : UploadSession) (data : list Byte.byte) (w : Net),
    readState uploadId = Ok state ->
    0 < chunkSize state ->
    let parts := partCount (chunkSize state) (Z.of_nat (List.length data)) in
    (parts <= List.length (replies w))%nat ->
    forallb (goesOn accepted) (firstn parts (replies w)) = true ->
    putObjectParts accepted failure readState uploadId data w
    = (Ok tt,
       mkNet (skipn parts (replies w))
         (sent w ++ map (partRequestAt state data) (seq 0 parts)))
    /\ concat (map (fun i => content (partRequestAt state data i))
                 (seq 0 parts))
       = data.
Proof.
  intros accepted failure readState uploadId state data w Hstate Hchunk
    parts Hreplies Hgo.
  pose proof (K_nonneg state data Hchunk) as HK.
  assert (Hparts : Z.of_nat 0 + Z.of_nat parts
                   = (Z.of_nat (List.length data) + chunkSize state - 1)
                     / chunkSize state).
  { unfold parts, partCount. lia. }
  split.
  - unfold putObjectParts. rewrite Hstate.
    pose proof (uploadParts_ok accepted failure readState uploadId state
                  data Hstate Hchunk parts 0 (List.length data) w Hparts)
      as H.
    cbn [Z.of_nat Z.mul Z.add] in H.
    rewrite Z.min_l in H by lia.
    apply H; [|exact Hreplies|exact Hgo].
    (* no more parts than bytes *)
    assert ((Z.of_nat (List.length data) + chunkSize state - 1)
            / chunkSize state <= Z.of_nat (List.length data)).
    { destruct (Z.eq_dec (Z.of_nat (List.length data)) 0) as [E|E].
      - rewrite E, Z.div_small by lia. lia.
      - apply Z.div_le_upper_bound; [exact Hchunk|nia]. }
    lia.
  - rewrite (chunks_from state data Hchunk parts 0 Hparts).
    cbn [Z.of_nat Z.mul]. rewrite Z.min_l by lia. reflexivity.
Qed.

Lemma X19_resumable_parts_tile_witness :
  putObjectParts 308 "Google Drive upload part failed" sampleReadState "t1"
    sampleBody sampleNet
  = (Ok tt,
     mkNet []
       (map (partRequestAt sampleSession sampleBody) [0; 1; 2]%nat))
  /\ map contentRange
       (map (partRequestAt sampleSession sampleBody) [0; 1; 2]%nat)
     = ["bytes 0-2/7"; "bytes 3-5/7"; "bytes 6-6/7"].
Proof.
  split; [|reflexivity].
  apply (X19_resumable_parts_tile 308 "Google Drive upload part failed"
           sampleReadState "t1" sampleSession sampleBody sampleNet).
  - reflexivity.
  - reflexivity.
  - cbn. lia.
  - reflexivity.
Defined.

End ResumableFacts.

(** ** Storage statistics *)

Module StatsFacts.
Import JsString Drive Stats.
Local Open Scope Z_scope.

Section Collect.
Variable lowerExtension : string -> string.
Variable inherited : string -> bool.
Variable W : Type.
Variable listObjects : string -> option string -> Async W ListObjectsResult.

Lemma hasOwn_In (ext : string) (dist : list (string * TypeStats)) :
  hasOwn ext dist = true <-> In ext (map fst dist).
Proof.
  unfold hasOwn. rewrite existsb_exists, in_map_iff. split.
  - intros (p & Hp & E). apply String.eqb_eq in E. exists p. auto.
  - intros (p & E & Hp). exists p. split; [exact Hp|].
    apply String.eqb_eq. exact E.
Qed.

Lemma countUp_absent (ext : string) (size : Z)
  (dist : list (string * TypeStats)) :
  ~ In ext (map fst dist) -> map (countUp ext size) dist = dist.
Proof.
  induction dist as [|p dist IH]; intro H; [reflexivity|].
  cbn [map] in *. rewrite IH by (intro; apply H; right; assumption).
  unfold countUp. destruct (String.eqb_spec (fst p) ext) as [E|_];
    [|reflexivity].
  exfalso. apply H. left. exact E.
Qed.

Lemma countUp_keys (ext : string) (size : Z)
  (dist : list (string * TypeStats)) :
  map fst (map (countUp ext size) dist) = map fst dist.
Proof.
  rewrite map_map. apply map_ext. intro p. unfold countUp.
  destruct (String.eqb (fst p) ext); reflexivity.
Qed.

Lemma countUp_sums (ext : string) (size : Z)
  (dist : list (string * TypeStats)) :
  NoDup (map fst dist) -> In ext (map fst dist) ->
  countedFiles (map (countUp ext size) dist) = countedFiles dist + 1
  /\ countedBytes (map (countUp ext size) dist) = countedBytes dist + size.
Proof.
  induction dist as [|p dist IH]; intros Hnd Hin; [contradiction|].
  cbn [map] in Hnd. inversion Hnd as [|k ks Hk Hnd']; subst.
  cbn [map countedFiles countedBytes fold_right].
  fold (countedFiles dist). fold (countedBytes dist).
  fold (countedFiles (map (countUp ext size) dist)).
  fold (countedBytes (map (countUp ext size) dist)).
  unfold countUp at 1 3.
  destruct (String.eqb_spec (fst p) ext) as [E|E].
  - rewrite countUp_absent by (rewrite <- E; exact Hk).
    cbn [snd count typeSize]. lia.
  - destruct Hin as [Hin|Hin]; [contradiction|].
    destruct (IH Hnd' Hin) as [H1 H2]. lia.
Qed.

Lemma countUp_counts (ext : string) (size : Z)
  (dist : list (string * TypeStats)) :
  Forall (fun p => 1 <= count (snd p)) dist ->
  Forall (fun p => 1 <= count (snd p)) (map (countUp ext size) dist).
Proof.
  induction 1 as [|p dist Hp _ IH]; cbn [map]; constructor; [|exact IH].
  unfold countUp. destruct (String.eqb (fst p) ext); cbn; lia.
Qed.

Lemma counted_app (dist : list (string * TypeStats))
  (p : string * TypeStats) :
  countedFiles (dist ++ [p]) = countedFiles dist + count (snd p)
  /\ countedBytes (dist ++ [p]) = countedBytes dist + typeSize (snd p).
Proof.
  induction dist as [|q dist [IH1 IH2]]; cbn; [lia|].
  fold (countedFiles (dist ++ [p])). fold (countedBytes (dist ++ [p])).
  fold (countedFiles dist). fold (countedBytes dist). lia.
Qed.

Lemma countObject_kept (stats : StorageStats) (obj : DriveObject) :
  kept inherited stats ->
  kept inherited (countObject lowerExtension inherited stats obj).
Proof.
  intros [(Hnd & Hcounts & Hle) Hbal]. unfold countObject.
  destruct (isDirectory obj); cbn [negb];
    [split; [repeat split; assumption|exact Hbal]|].
  set (ext := if truthy (lowerExtension (name obj))
              then lowerExtension (name obj) else "no-extension").
  unfold kept, wellKept, balanced, countType.
  cbn [typeDistribution fileCount totalSize].
  fold (countUp ext (size obj)).
  destruct (hasOwn ext (typeDistribution stats)) eqn:Hown.
  - apply hasOwn_In in Hown.
    destruct (countUp_sums ext (size obj) _ Hnd Hown) as [H1 H2].
    rewrite countUp_keys, H1, H2.
    split; [repeat split; [exact Hnd|apply countUp_counts; exact Hcounts|lia]|].
    intro Hplain. destruct (Hbal Hplain) as [B1 B2]. lia.
  - assert (Hnew : ~ In ext (map fst (typeDistribution stats))).
    { intro H. apply hasOwn_In in H. congruence. }
    destruct (inherited ext) eqn:Hinh.
    + split; [repeat split; [exact Hnd|exact Hcounts|lia]|].
      intro Hplain. rewrite Hplain in Hinh. discriminate.
    + destruct (counted_app (typeDistribution stats)
                  (ext, mkTypeStats (0 + 1) (0 + size obj))) as [H1 H2].
      rewrite H1, H2. cbn [snd count typeSize].
      split.
      * repeat split.
        -- rewrite map_app. cbn [map fst].
           apply NoDup_app; [exact Hnd|repeat constructor; intros []| ].
           intros k Hk [<-|[]]. exact (Hnew Hk).
        -- apply Forall_app. split; [exact Hcounts|].
           repeat constructor. cbn. lia.
        -- lia.
      * intro Hplain. destruct (Hbal Hplain) as [B1 B2]. lia.
Qed.

Lemma countObjects_kept (objs : list DriveObject) :
  forall stats,
    kept inherited stats ->
    kept inherited
      (fold_left (countObject lowerExtension inherited) objs stats).
Proof.
  induction objs as [|o objs IH]; intros stats H; [exact H|].
  cbn [fold_left]. apply IH, countObject_kept, H.
Qed.

Lemma countPage_kept (result : ListObjectsResult)
  (acc : StorageStats * list string) :
  kept inherited (fst acc) ->
  kept inherited (fst (countPage lowerExtension inherited result acc)).
Proof.
  intro H. unfold countPage. cbn [fst].
  apply (countObjects_kept (objects result)) in H.
  exact H.
Qed.

Lemma morePages_kept (fuel : nat) :
  forall prefix token acc s acc' s',
    kept inherited (fst acc) ->
    morePages lowerExtension inherited listObjects fuel prefix token acc s
    = (Ok acc', s') ->
    kept inherited (fst acc').
Proof.
  induction fuel as [|fuel IH]; intros prefix token acc s acc' s' Hk H;
    cbn [morePages] in H; destruct (truthyOpt token).
  - discriminate H.
  - injection H as <- _. exact Hk.
  - unfold bind in H.
    destruct (listObjects prefix token s) as [[next|e] s1];
      [|discriminate H].
    eapply IH; [|exact H]. apply countPage_kept, Hk.
  - injection H as <- _. exact Hk.
Qed.

Lemma visit_kept (fuel : nat) :
  forall queue visited stats s stats' s',
    kept inherited stats ->
    visit lowerExtension inherited listObjects fuel queue visited stats s
    = (Ok stats', s') ->
    kept inherited stats'.
Proof.
  induction fuel as [|fuel IH];
    intros queue visited stats s stats' s' Hk H;
    destruct queue as [|cur queue]; cbn [visit] in H.
  - injection H as <- _. exact Hk.
  - discriminate H.
  - injection H as <- _. exact Hk.
  - destruct (existsb (String.eqb cur) visited).
    + eapply IH; [exact Hk|exact H].
    + unfold bind in H.
      destruct (listObjects cur None s) as [[result|e] s1];
        [|discriminate H].
      destruct (isTruncated result
                && truthyOpt (nextContinuationToken result)).
      * destruct (morePages lowerExtension inherited listObjects fuel cur
                    (nextContinuationToken result)
                    (countPage lowerExtension inherited result
                       (stats, queue)) s1)
          as [[acc|e] s2] eqn:Hm; [|discriminate H].
        eapply IH; [|exact H].
        eapply morePages_kept; [|exact Hm].
        apply countPage_kept. exact Hk.
      * unfold ret in H. eapply IH; [|exact H].
        apply countPage_kept. exact Hk.
Qed.

End Collect.



End StatsFacts.

(** ** Token refresh *)

Module RefreshFacts.
Import JsString Provider.
Local Open Scope Z_scope.

Ltac run_step :=
  match goal with
  | H : (_, _) = (_, _) |- _ => injection H as ? ?; subst
  | H : context [match ?x with _ => _ end] |- _ =>
      first [ is_var x; destruct x | destruct x eqn:? ]
  | H : context [if ?b then _ else _] |- _ => destruct b eqn:?
  end.

Ltac run_cases H :=
  unfold bind, ret, throw, getClient, dateNow, modifyClient, fetchToken,
    record in H;
  cbn [client now tokenReplies replies calls] in H;
  repeat (run_step; cbn [client now tokenReplies replies calls] in * ).

Lemma google_refresh_failure (D : Type) (w w' : World D GoogleDrive.Request)
  (e : string) :
  GoogleDrive.refreshToken w = (Err e, w') -> client w' = client w.
Proof.
  intro H. unfold GoogleDrive.refreshToken in H.
  run_cases H; try discriminate; reflexivity.
Qed.

Lemma onedrive_refresh_failure (D : Type) (w w' : World D OneDrive.Request)
  (e : string) :
  OneDrive.refreshToken w = (Err e, w') -> client w' = client w.
Proof.
  intro H.
  unfold OneDrive.refreshToken, OneDrive.refreshTokenOnline,
    OneDrive.refreshTokenLocal in H.
  run_cases H; try discriminate; reflexivity.
Qed.

Lemma baidu_refresh_failure (w w' : Baidu.BWorld) (e : string) :
  Baidu.refreshToken w = (Err e, w') -> client w' = client w.
Proof.
  intro H.
  unfold Baidu.refreshToken, Baidu.refreshTokenOnline,
    Baidu.refreshTokenLocal in H.
  run_cases H; try discriminate; reflexivity.
Qed.

(** X21.  A token refresh that fails leaves the adapter as it was: in
    the Google Drive, OneDrive and Baidu adapters neither the config,
    nor the session state, nor the two change flags differ after a
    rejected [refreshToken], so that nothing is persisted for it. *)
Theorem X21_failed_refresh_keeps_state :
  (forall (D : Type) (w w' : World D GoogleDrive.Request) (e : string),
      GoogleDrive.refreshToken w = (Err e, w') ->
      client w' = client w
      /\ getStateUpdates (client w') = getStateUpdates (client w))
  /\ (forall (D : Type) (w w' : World D OneDrive.Request) (e : string),
      OneDrive.refreshToken w = (Err e, w') ->
      client w' = client w
      /\ getStateUpdates (client w') = getStateUpdates (client w))
  /\ (forall (w w' : Baidu.BWorld) (e : string),
      Baidu.refreshToken w = (Err e, w') ->
      client w' = client w
      /\ getStateUpdates (client w') = getStateUpdates (client w)).
Proof.
  split; [|split].
  - intros D w w' e H. apply google_refresh_failure in H.
    rewrite H. split; reflexivity.
  - intros D w w' e H. apply onedrive_refresh_failure in H.
    rewrite H. split; reflexivity.
  - intros w w' e H. apply baidu_refresh_failure in H.
    rewrite H. split; reflexivity.
Qed.

(** X22.  A successful refresh of the Google Drive adapter stores the
    access token it was granted and the time it expires (an hour from
    now when the provider names none) and flags the session state as
    changed; it touches the config, and flags it, exactly when the
    provider sent a new refresh token, which then replaces the old
    one. *)
Theorem X22_google_refresh_marks_what_changed :
  forall (D : Type) (w w' : World D GoogleDrive.Request),
    GoogleDrive.refreshToken w = (Ok tt, w') ->
    exists (r : Reply TokenData) (rest : list (Reply TokenData))
           (data : TokenData),
      tokenReplies w = r :: rest /\ json r = Some data
      /\ access_token (saving (client w')) = td_access_token data
      /\ truthyOpt (td_access_token data) = true
      /\ expires_at (saving (client w'))
         = Some (GoogleDrive.expiry (now w) data)
      /\ savingChanged (client w') = true
      /\ (if truthyOpt (td_refresh_token data)
          then refresh_token (config (client w')) = td_refresh_token data
               /\ configChanged (client w') = true
          else config (client w') = config (client w)
               /\ configChanged (client w') = configChanged (client w)).
Proof.
  intros D w w' H. unfold GoogleDrive.refreshToken in H.
  run_cases H; try discriminate.
  injection H as <-. cbn [client now].
  match goal with
  | E : negb (truthyOpt (td_access_token _)) = false |- _ =>
      apply negb_false_iff in E
  end.
  match goal with
  | Hl : tokenReplies w = ?a :: ?l, Hj : json ?a = Some ?t,
    Ht : truthyOpt (td_access_token ?t) = true |- _ =>
      exists a, l, t; split; [reflexivity|]; split; [exact Hj|];
      unfold GoogleDrive.storeTokens;
      destruct (truthyOpt (td_refresh_token t)); cbn;
      repeat split; try reflexivity; exact Ht
  end.
Qed.

Lemma X22_google_refresh_marks_what_changed_witness :
  exists data,
    json (GoogleDrive.sampleGrant "t1") = Some data
    /\ access_token
         (saving
            (client (snd (GoogleDrive.refreshToken
                            (GoogleDrive.sampleWorld [])))))
       = td_access_token data
    /\ configChanged
         (client (snd (GoogleDrive.refreshToken
                         (GoogleDrive.sampleWorld []))))
       = false.
Proof.
  destruct (X22_google_refresh_marks_what_changed unit
              (GoogleDrive.sampleWorld [])
              (snd (GoogleDrive.refreshToken (GoogleDrive.sampleWorld [])))
              eq_refl)
    as (r & rest & data & Hr & Hj & Ha & _ & _ & _ & Hc).
  injection Hr as <- <-. injection Hj as <-.
  eexists. split; [reflexivity|]. split; [exact Ha|].
  cbn in Hc. destruct Hc as [_ Hc]. exact Hc.
Defined.

End RefreshFacts.

(** ** Upload states of one-byte text *)

Module ByteStateFacts.
Import Json UploadState ByteState.
Local Open Scope N_scope.

Ltac ndiv := zify; Z.to_euclidean_division_equations; lia.

Lemma hexDigit_small (n : N) : n < 16 -> hexDigit n < 256.
Proof. intro H. unfold hexDigit. destruct (n <? 10); lia. Qed.

Lemma unicodeEscape_small (u : N) :
  u < 65536 -> Forall (fun x => x < 256) (unicodeEscape u).
Proof.
  intro H. unfold unicodeEscape.
  repeat (apply Forall_cons; [try lia; apply hexDigit_small; ndiv|]).
  apply Forall_nil.
Qed.

Lemma quoteUnit_small (prev : option N) (u : N) (next : option N) :
  u < 256 -> Forall (fun x => x < 256) (quoteUnit prev u next).
Proof.
  intro H. unfold quoteUnit.
  repeat match goal with
         | |- context [if ?b then _ else _] => destruct b
         end;
    try (apply unicodeEscape_small; lia);
    repeat (apply Forall_cons; [lia|]); apply Forall_nil.
Qed.

Lemma quoteUnits_small (s : wstring) :
  Forall (fun x => x < 256) s ->
  forall prev, Forall (fun x => x < 256) (quoteUnits prev s).
Proof.
  induction 1 as [|u t Hu _ IH]; intro prev; cbn [quoteUnits];
    [apply Forall_nil|].
  apply Forall_app. split; [apply quoteUnit_small; exact Hu|apply IH].
Qed.

Lemma quote_small (s : wstring) :
  Forall (fun x => x < 256) s -> Forall (fun x => x < 256) (quote s).
Proof.
  intro H. unfold quote. apply Forall_cons; [lia|].
  apply Forall_app. split; [apply quoteUnits_small; exact H|].
  apply Forall_cons; [lia|apply Forall_nil].
Qed.

Lemma digitsText_small (d : Decimal.uint) :
  Forall (fun x => x < 256) (digitsText d).
Proof.
  induction d; cbn [digitsText];
    try apply Forall_nil; (apply Forall_cons; [lia|assumption]).
Qed.

Lemma numberText_small (z : Z) : Forall (fun x => x < 256) (numberText z).
Proof.
  unfold numberText. destruct (Z.to_int z);
    [|apply Forall_cons; [lia|]]; apply digitsText_small.
Qed.

Lemma joinComma_small (parts : list wstring) :
  Forall (Forall (fun x => x < 256)) parts ->
  Forall (fun x => x < 256) (joinComma parts).
Proof.
  induction 1 as [|p rest Hp Hrest IH]; [apply Forall_nil|].
  destruct rest as [|q rest]; [exact Hp|].
  change (joinComma (p :: q :: rest))
    with (p ++ 44 :: joinComma (q :: rest)).
  apply Forall_app. split; [exact Hp|].
  apply Forall_cons; [lia|exact IH].
Qed.

Lemma stringify_small (v : value) :
  latin1Value v -> Forall (fun x => x < 256) (stringify v).
Proof.
  induction v as [ | b | z | s | items IH | members IH]
    using JsonFacts.value_induction; intro H.
  - cbn. repeat (apply Forall_cons; [lia|]). apply Forall_nil.
  - destruct b; cbn; repeat (apply Forall_cons; [lia|]); apply Forall_nil.
  - apply numberText_small.
  - apply quote_small. exact H.
  - cbn [stringify]. apply Forall_cons; [lia|].
    apply Forall_app. split; [|apply Forall_cons; [lia|apply Forall_nil]].
    apply joinComma_small.
    induction IH as [|x l Hx _ IHl]; [apply Forall_nil|].
    destruct H as [H1 H2]. cbn [map].
    apply Forall_cons; [apply Hx; exact H1|apply IHl; exact H2].
  - cbn [stringify]. apply Forall_cons; [lia|].
    apply Forall_app. split; [|apply Forall_cons; [lia|apply Forall_nil]].
    apply joinComma_small.
    induction IH as [|m l Hm _ IHl]; [apply Forall_nil|].
    destruct H as (H1 & H2 & H3). cbn [map].
    apply Forall_cons; [|apply IHl; exact H3].
    apply Forall_app. split; [apply quote_small; exact H1|].
    apply Forall_cons; [lia|apply Hm; exact H2].
Qed.


Lemma byteSample_wellFormed : wellFormed (Obj ByteState.sampleState).
Proof.
  split.
  - repeat constructor; cbn; intuition discriminate.
  - cbn. repeat split; try reflexivity;
      repeat (constructor; [reflexivity|]); constructor.
Qed.

Lemma byteSample_latin1 : latin1Value (Obj ByteState.sampleState).
Proof.
  cbn. repeat split; repeat (constructor; [reflexivity|]); constructor.
Qed.


End ByteStateFacts.

(** ** WebDAV bridge: the destination of COPY and MOVE *)

Module DestinationFacts.
Import JsString Provider Drive WebDav.
Local Open Scope Z_scope.

Lemma sliceFrom_append (p rest : string) :
  sliceFrom (String.length p) (p ++ rest) = rest.
Proof. induction p as [|c p IH]; cbn; [destruct rest; reflexivity|exact IH]. Qed.

Lemma replaceFirst_unfold (pattern s : string) :
  replaceFirst pattern s
  = if String.prefix pattern s then sliceFrom (String.length pattern) s
    else match s with
         | String c t => String c (replaceFirst pattern t)
         | EmptyString => EmptyString
         end.
Proof. destruct s; reflexivity. Qed.

Lemma replaceFirst_prefix (pattern rest : string) :
  replaceFirst pattern (pattern ++ rest) = rest.
Proof.
  rewrite replaceFirst_unfold, RootPathFacts.prefix_append.
  apply sliceFrom_append.
Qed.

Lemma replaceFirst_absent (pattern s : string) :
  includes s pattern = false -> replaceFirst pattern s = s.
Proof.
  induction s as [|c t IH]; intro H; rewrite replaceFirst_unfold;
    cbn [includes] in H; apply orb_false_elim in H; destruct H as [Hp Ht];
    rewrite Hp; [reflexivity|].
  rewrite (IH Ht). reflexivity.
Qed.

(** X24.  The key that COPY and MOVE hand to the adapter as destination
    is the path of the Destination URL below the mount point of the
    storage addressed, "/dav/<id>/"; a Destination that does not
    contain this mount point, such as one under another storage, is
    used as a key with its whole path. *)
Theorem X24_destination_below_mount_point :
  forall (services : Services) (storageId : option Z) (header : string)
         (pathname : string) (s : Session),
    urlPathname services header = Some pathname ->
    (forall rest,
        pathname = ("/dav/" ++ idText storageId ++ "/" ++ rest)%string ->
        destinationPath services storageId header s = (Ok rest, s))
    /\ (includes pathname ("/dav/" ++ idText storageId ++ "/")%string = false ->
        destinationPath services storageId header s = (Ok pathname, s)).
Proof.
  intros services storageId header pathname s Hurl.
  unfold destinationPath. rewrite Hurl. unfold ret. split.
  - intros rest ->.
    replace ("/dav/" ++ idText storageId ++ "/" ++ rest)%string
      with (("/dav/" ++ idText storageId ++ "/") ++ rest)%string.
    + rewrite replaceFirst_prefix. reflexivity.
    + rewrite !XmlFacts.append_assoc. reflexivity.
  - intro H. rewrite (replaceFirst_absent _ _ H). reflexivity.
Qed.

Lemma X24_destination_below_mount_point_witness :
  destinationPath sampleServices (Some 3)
    "https://clist.example/dav/3/docs/a.txt" start
  = (Ok "docs/a.txt", start).
Proof.
  apply (X24_destination_below_mount_point sampleServices (Some 3)
           "https://clist.example/dav/3/docs/a.txt" "/dav/3/docs/a.txt"
           start eq_refl).
  reflexivity.
Defined.

End DestinationFacts.

(** ** Baidu: file-manager entries *)

Module BaiduEntriesFacts.
Import JsString DriveUtils Provider Baidu BaiduEntries.
Local Open Scope Z_scope.

Lemma split_nonempty (c : ascii) (s : string) : split c s <> [].
Proof.
  destruct s as [|x t]; cbn; [discriminate|].
  destruct (Ascii.eqb x c); [discriminate|].
  destruct (split c t); discriminate.
Qed.

Lemma lastIndexOf_bound (c : ascii) (s : string) : -1 <= lastIndexOf c s.
Proof.
  induction s as [|x t IH]; cbn [lastIndexOf]; [lia|].
  destruct (0 <=? lastIndexOf c t) eqn:E; [apply Z.leb_le in E; lia|].
  destruct (Ascii.eqb x c); lia.
Qed.

Lemma split_one_absent (u : string) :
  forall seg, split "/" u = [seg] -> lastIndexOf "/" u = -1.
Proof.
  induction u as [|y u IH]; intros seg H; [reflexivity|].
  cbn [split] in H. cbn [lastIndexOf].
  destruct (Ascii.eqb y "/") eqn:Ey.
  - injection H as _ H. exfalso. exact (split_nonempty _ _ H).
  - destruct (split "/" u) as [|a [|b r]] eqn:Hu; try discriminate H.
    + exfalso. exact (split_nonempty _ _ Hu).
    + rewrite (IH a eq_refl). reflexivity.
Qed.

Lemma split_absent (u : string) :
  lastIndexOf "/" u = -1 -> split "/" u = [u].
Proof.
  induction u as [|y u IH]; intro H; [reflexivity|].
  cbn [lastIndexOf] in H. cbn [split].
  pose proof (lastIndexOf_bound "/" u) as Hb.
  destruct (0 <=? lastIndexOf "/" u) eqn:E; [apply Z.leb_le in E; lia|].
  apply Z.leb_gt in E.
  destruct (Ascii.eqb y "/"); [discriminate H|].
  rewrite IH by lia. reflexivity.
Qed.

(** In a text with a separator, the part before the last separator, the
    separator and the last segment make up the text. *)
Lemma last_separator (s : string) :
  0 <= lastIndexOf "/" s ->
  (substring0 (lastIndexOf "/" s) s ++ "/"
   ++ List.last (split "/" s) "")%string = s.
Proof.
  induction s as [|x t IH]; [cbn; lia|].
  cbn [lastIndexOf split]. intro H.
  pose proof (lastIndexOf_bound "/" t) as Hb.
  destruct (0 <=? lastIndexOf "/" t) eqn:E.
  - apply Z.leb_le in E. specialize (IH E).
    cbn [substring0].
    destruct (lastIndexOf "/" t + 1 <=? 0) eqn:E1;
      [apply Z.leb_le in E1; lia|].
    replace (lastIndexOf "/" t + 1 - 1) with (lastIndexOf "/" t) by lia.
    cbn [String.append]. f_equal.
    destruct (split "/" t) as [|seg rest] eqn:Hsplit;
      [exfalso; exact (split_nonempty _ _ Hsplit)|].
    destruct (Ascii.eqb x "/").
    + change (List.last ("" :: seg :: rest) "")
        with (List.last (seg :: rest) "").
      exact IH.
    + destruct rest as [|seg' rest'].
      * pose proof (split_one_absent t seg Hsplit). lia.
      * change (List.last (String x seg :: seg' :: rest') "")
          with (List.last (seg :: seg' :: rest') "").
        exact IH.
  - apply Z.leb_gt in E.
    destruct (Ascii.eqb_spec x "/") as [->|Hx]; [|lia].
    rewrite split_absent by lia. reflexivity.
Qed.

Lemma last_no_separator (s : string) :
  includes (List.last (split "/" s) "") "/" = false.
Proof.
  induction s as [|x t IH]; [reflexivity|].
  cbn [split]. destruct (Ascii.eqb x "/") eqn:Ex.
  - destruct (split "/" t) as [|seg rest] eqn:Hsplit;
      [exfalso; exact (split_nonempty _ _ Hsplit)|].
    exact IH.
  - destruct (split "/" t) as [|seg rest] eqn:Hsplit;
      [exfalso; exact (split_nonempty _ _ Hsplit)|].
    destruct rest as [|seg' rest']; [|exact IH].
    cbn [List.last] in *. cbn [includes String.prefix].
    destruct (ascii_dec "/" x) as [<-|_]; [discriminate Ex|].
    exact IH.
Qed.

Lemma lastSegment_last (s : string) :
  lastSegment s = List.last (split "/" s) "".
Proof.
  unfold lastSegment, orElse. destruct (List.last (split "/" s) "");
    reflexivity.
Qed.

Lemma resolvePath_rooted (c : Client) (path : string) :
  startsWithSlash (resolvePath c path) = true.
Proof.
  assert (H : startsWithSlash
                (joinRootPath (orElse (root_path (config c)) "/") path)
              = true).
  { exact (RootPathFacts.prefix_rooted _ _
             (RootPathFacts.normalizeRootPath_rooted _)
             (RootPathFacts.joinRootPath_under_root _ _)). }
  unfold resolvePath. rewrite H. exact H.
Qed.

Lemma rooted_has_separator (s : string) :
  startsWithSlash s = true -> 0 <= lastIndexOf "/" s.
Proof.
  destruct s as [|x t]; [discriminate|]. cbn. intro H. rewrite H.
  pose proof (lastIndexOf_bound "/" t).
  destruct (0 <=? lastIndexOf "/" t) eqn:E; [apply Z.leb_le in E|]; lia.
Qed.

(** X25.  The entry that the Baidu adapter's [renameObject] sends names
    as destination the directory of the source: the destination, a
    separator and the last segment of the source path make up the
    source path (so an entry directly under "/" is renamed with the
    empty text as directory).  [moveObject] keeps the name: its new
    name is that last segment of the source path, and holds no
    separator. *)
Theorem X25_baidu_rename_stays_in_place (c : Client)
  (path newName destPath : string) :
  let renamed := renameEntry c path newName in
  let moved := moveEntry c path destPath in
  (dest renamed ++ "/" ++ lastSegment (entryPath renamed))%string
  = entryPath renamed
  /\ newname renamed = newName
  /\ (dest renamed ++ "/" ++ newname moved)%string = entryPath moved
  /\ includes (newname moved) "/" = false.
Proof.
  cbv zeta. unfold renameEntry, moveEntry. cbn [dest entryPath newname].
  assert (H : (substring0 (lastIndexOf "/" (resolvePath c path))
                 (resolvePath c path)
               ++ "/" ++ lastSegment (resolvePath c path))%string
              = resolvePath c path).
  { rewrite lastSegment_last.
    apply last_separator, rooted_has_separator, resolvePath_rooted. }
  split; [exact H|]. split; [reflexivity|]. split; [exact H|].
  rewrite lastSegment_last. apply last_no_separator.
Qed.

End BaiduEntriesFacts.
